(** * Telemetry relay: sensor store and device-command queue

    A shallow embedding of the relay server (the Express application with
    the routes /api/data, /api/getData, /api/thresholds, /api/deviceCommand,
    /api/getDeviceCommand and /api/pollDeviceCommand) and the properties
    of its change detector, its sensor store and its command dispatcher.

    JavaScript numbers are IEEE 754 binary64 values: they are modelled by
    the kernel's primitive floats, so [Math.abs(a - b) >= t] is evaluated
    with the very rounding the server performs.  Instants ([Date] values
    and their ISO 8601 renderings) are the integer count of milliseconds
    since the epoch. *)

From stdpp Require Import gmap strings list.
From Stdlib Require Import ZArith Floats.

(* Decimal literals denote the nearest binary64 value, as in JavaScript. *)
Set Warnings "-inexact-float".

Local Open Scope Z_scope.
Local Open Scope string_scope.
Local Open Scope list_scope.

(** ** JavaScript values *)

Module JS.

(** The values a parsed JSON body can hold, plus [undefined] for an absent
    property.  Arrays and objects are never inspected by the handlers
    modelled here beyond their type and identity, so they are kept as a
    reference. *)
Inductive jsval : Type :=
  | JUndefined
  | JNull
  | JBool (b : bool)
  | JNum (x : float)
  | JStr (s : string)
  | JObj (ref : nat).

Definition is_boolean (v : jsval) : bool :=
  match v with JBool _ => true | _ => false end.

(** [v === undefined] *)
Definition is_undefined (v : jsval) : bool :=
  match v with JUndefined => true | _ => false end.

(** [v === undefined || v === null] *)
Definition is_nullish (v : jsval) : bool :=
  match v with JUndefined | JNull => true | _ => false end.

(** [a === b]: no coercion; numbers compare as floats (NaN differs from
    itself, the two zeros are equal), objects by reference. *)
Definition strict_eq (a b : jsval) : bool :=
  match a, b with
  | JUndefined, JUndefined => true
  | JNull, JNull => true
  | JBool x, JBool y => Bool.eqb x y
  | JNum x, JNum y => PrimFloat.eqb x y
  | JStr x, JStr y => String.eqb x y
  | JObj x, JObj y => Nat.eqb x y
  | _, _ => false
  end.

(** [a !== b] *)
Definition strict_neq (a b : jsval) : bool := negb (strict_eq a b).

(** The property names every plain object inherits from
    [Object.prototype]: reading one of them from an object literal yields
    a function (or, for [__proto__], the prototype), never [undefined]. *)
Definition objectPrototypeKeys : list string :=
  [ "constructor"; "hasOwnProperty"; "isPrototypeOf";
    "propertyIsEnumerable"; "toLocaleString"; "toString"; "valueOf";
    "__defineGetter__"; "__defineSetter__"; "__lookupGetter__";
    "__lookupSetter__"; "__proto__" ].

Definition inherited (key : string) : bool :=
  bool_decide (key ∈ objectPrototypeKeys).

End JS.

Import JS.

(** ** Validation layer *)

(** [isValidNumber(value)]:
    [typeof value === 'number' && !isNaN(value) && isFinite(value)] *)
Definition isValidNumber (value : jsval) : bool :=
  match value with
  | JNum x => negb (is_nan x) && is_finite x
  | _ => false
  end.

Definition validMovements : list string :=
  [ "sitting"; "standing"; "walking" ].

(** [validMovements.includes(value)] *)
Definition isValidMovement (value : jsval) : bool :=
  existsb (fun m => strict_eq (JStr m) value) validMovements.

(** [isValidNumber(value) && Math.abs(value) <= 180] *)
Definition isValidCoordinate (value : jsval) : bool :=
  match value with
  | JNum x => isValidNumber value && (abs x <=? 180)%float
  | _ => false
  end.

(** [value < 0] for the heart rate, reached only after [isValidNumber]. *)
Definition js_lt_zero (value : jsval) : bool :=
  match value with
  | JNum x => (x <? 0)%float
  | _ => false
  end.

(** ** Sensor fields and the latest-state table *)

Inductive field : Type := temp | heartrate | movement | lat | lon.

#[global] Instance field_eq_dec : EqDecision field.
Proof. solve_decision. Defined.

(** [Object.keys(latestData)], in the order of the object literal. *)
Definition fields : list field := [ temp; heartrate; movement; lat; lon ].

Definition field_name (f : field) : string :=
  match f with
  | temp => "temp"
  | heartrate => "heartrate"
  | movement => "movement"
  | lat => "lat"
  | lon => "lon"
  end.

(** An entry of [latestData]: [{ value, timestamp }]. *)
Record SensorReading : Type := mkReading {
  value : jsval;
  timestamp : Z
}.

(** [latestData]: every field is [null] ([None]) or a reading. *)
Definition LatestData : Type := field -> option SensorReading.

Definition noData : LatestData := fun _ => None.

Definition setReading (d : LatestData) (f : field) (r : SensorReading)
  : LatestData :=
  fun g => if decide (g = f) then Some r else d g.

(** [changeThresholds]: the own properties of the thresholds object. *)
Abbreviation Thresholds := (gmap string float).

Definition initialThresholds : Thresholds :=
  <["temp" := 0.1%float]>
  (<["heartrate" := 1%float]>
  (<["movement" := 0.5%float]>
  (<["lat" := 0.0001%float]>
  (<["lon" := 0.0001%float]> ∅)))).

(** ** Change detector *)

Section ChangeDetector.

Variable changeThresholds : Thresholds.

(** [hasDataChanged(sensorType, newValue, oldValue)].  A threshold that is
    not a number ([undefined], or an inherited function) converts to NaN
    and makes the comparison false. *)
Definition hasDataChanged (sensorType : string) (newValue oldValue : jsval)
  : bool :=
  if is_nullish oldValue then true
  else if is_nullish newValue then false
  else
    match newValue, oldValue with
    | JNum n, JNum o =>
        match changeThresholds !! sensorType with
        | Some threshold => (threshold <=? abs (n - o))%float
        | None => false
        end
    | _, _ => strict_neq newValue oldValue
    end.

(** The old value read on line 89,
    [latestData[key]?.value !== undefined ? latestData[key].value
                                           : latestData[key]].
    A reading is only ever built from a value that passed the
    [!== undefined] test, so the conditional selects [.value]; were the
    value [undefined], the detector would answer [true] for the record
    object just as it does for [undefined]. *)
Definition oldValueOf (latestData : LatestData) (key : field) : jsval :=
  match latestData key with
  | None => JNull
  | Some r => value r
  end.

(** One iteration of the [forEach] of [updateChangedFields]; [now] is the
    clock reading [new Date()] takes for this key. *)
Definition updateField (now : Z) (key : field) (newValue : jsval)
    (acc : LatestData * list (field * SensorReading))
  : LatestData * list (field * SensorReading) :=
  let '(latestData, changedFields) := acc in
  if negb (is_nullish newValue) then
    if hasDataChanged (field_name key) newValue (oldValueOf latestData key)
    then
      let r := mkReading newValue now in
      (setReading latestData key r, changedFields ++ [(key, r)])
    else acc
  else acc.

(** [updateChangedFields(newData)]: [newData] lists the own properties of
    the received object in insertion order; [clock key] is the instant read
    while [key] is processed.  Returns the new table and [changedFields]
    ([None] for the [null] result). *)
Definition updateChangedFields (clock : field -> Z)
    (newData : list (field * jsval)) (latestData : LatestData)
  : LatestData * option (list (field * SensorReading)) :=
  let '(d, changed) :=
    fold_left (fun acc kv => updateField (clock (fst kv)) (fst kv) (snd kv) acc)
              newData (latestData, []) in
  (d, match changed with [] => None | _ => Some changed end).

End ChangeDetector.

(** ** Sensor state store and its request handlers *)

(** The module-level tables of the sensor side. *)
Record SensorState : Type := mkSensorState {
  latestData : LatestData;
  changeThresholds : Thresholds
}.

Definition initialSensorState : SensorState :=
  mkSensorState noData initialThresholds.

(** The body of POST /api/data after destructuring: an absent property is
    [JUndefined]. *)
Record SensorRequest : Type := mkSensorRequest {
  r_temp : jsval;
  r_heartrate : jsval;
  r_movement : jsval;
  r_lat : jsval;
  r_lon : jsval
}.

Definition requestField (data : SensorRequest) (f : field) : jsval :=
  match f with
  | temp => r_temp data
  | heartrate => r_heartrate data
  | movement => r_movement data
  | lat => r_lat data
  | lon => r_lon data
  end.

Definition errTemp : string := "Temperature must be a valid number".
Definition errHeartrate : string :=
  "Heart rate must be a valid positive number".
Definition errMovement : string :=
  "Movement must be one of: sitting, standing, walking".
Definition errLat : string :=
  "Latitude must be a valid coordinate between -180 and 180".
Definition errLon : string :=
  "Longitude must be a valid coordinate between -180 and 180".

(** The rule of one field in [validateSensorData]: [true] when the field
    is provided and rejected. *)
Definition fieldRejected (f : field) (v : jsval) : bool :=
  negb (is_undefined v) &&
  match f with
  | temp => negb (isValidNumber v)
  | heartrate => negb (isValidNumber v) || js_lt_zero v
  | movement => negb (isValidMovement v)
  | lat | lon => negb (isValidCoordinate v)
  end.

(** [validateSensorData(data)]: the five tests in source order, every
    violation collected. *)
Definition validateSensorData (data : SensorRequest) : list string :=
  (if fieldRejected temp (r_temp data) then [errTemp] else []) ++
  (if fieldRejected heartrate (r_heartrate data) then [errHeartrate] else []) ++
  (if fieldRejected movement (r_movement data) then [errMovement] else []) ++
  (if fieldRejected lat (r_lat data) then [errLat] else []) ++
  (if fieldRejected lon (r_lon data) then [errLon] else []).

(** [receivedData]: the provided fields, in the order they are copied. *)
Definition receivedData (data : SensorRequest) : list (field * jsval) :=
  List.filter (fun kv => negb (is_undefined (snd kv)))
         (map (fun f => (f, requestField data f)) fields).

(** The body [{ f: v }] that provides the single field [f]. *)
Definition singleFieldRequest (f : field) (v : jsval) : SensorRequest :=
  let only g := if decide (g = f) then v else JUndefined in
  mkSensorRequest (only temp) (only heartrate) (only movement)
                  (only lat) (only lon).

Inductive DataResponse : Type :=
  | ValidationFailed (errors : list string)        (* 400 *)
  | NoValidData                                    (* 400 *)
  | DataProcessed (changes : list (field * SensorReading))
  | NoSignificantChange.

(** POST /api/data (SubmitReading), for a body that is an object (the JSON
    body parser delivers nothing else). *)
Definition postData (clock : field -> Z) (data : SensorRequest)
    (st : SensorState) : SensorState * DataResponse :=
  let validationErrors := validateSensorData data in
  if negb (Nat.eqb (length validationErrors) 0) then
    (st, ValidationFailed validationErrors)
  else
    let received := receivedData data in
    if Nat.eqb (length received) 0 then (st, NoValidData)
    else
      match updateChangedFields (changeThresholds st) clock received
                                (latestData st) with
      | (d, Some changedFields) =>
          (mkSensorState d (changeThresholds st), DataProcessed changedFields)
      | (d, None) =>
          (mkSensorState d (changeThresholds st), NoSignificantChange)
      end.

(** The [lastUpdate] property of the body of POST /api/getData: absent or
    falsy, not a date, or the instant [new Date(lastUpdate)] denotes. *)
Inductive LastUpdate : Type :=
  | NoLastUpdate
  | InvalidDate
  | Since (lastUpdateDate : Z).

Inductive GetDataResponse : Type :=
  | InvalidLastUpdate                              (* 400 *)
  | Readings (data : list (field * SensorReading)) (fullUpdate : bool).

(** [changedSinceLastUpdate]: the loop over [Object.keys(latestData)]. *)
Definition changedSince (d : LatestData) (lastUpdateDate : Z)
  : list (field * SensorReading) :=
  flat_map (fun key =>
      match d key with
      | Some r => if Z.ltb lastUpdateDate (timestamp r) then [(key, r)] else []
      | None => []
      end) fields.

(** [currentData]: every field that is not [null]. *)
Definition snapshot (d : LatestData) : list (field * SensorReading) :=
  flat_map (fun key =>
      match d key with
      | Some r => [(key, r)]
      | None => []
      end) fields.

(** POST /api/getData (GetReadingsSince). *)
Definition getData (lastUpdate : LastUpdate) (st : SensorState)
  : GetDataResponse :=
  match lastUpdate with
  | InvalidDate => InvalidLastUpdate
  | Since lastUpdateDate =>
      let changedSinceLastUpdate := changedSince (latestData st) lastUpdateDate in
      Readings changedSinceLastUpdate
               (Nat.eqb (length changedSinceLastUpdate) 0)
  | NoLastUpdate => Readings (snapshot (latestData st)) true
  end.

(** The body of POST /api/thresholds: an array, or an object given by its
    own properties as [Object.keys] enumerates them. *)
Inductive ThresholdsBody : Type :=
  | BodyArray
  | BodyObject (entries : list (string * jsval)).

(** [changeThresholds[key] !== undefined]: an own property (always a
    number here) or a property inherited from [Object.prototype]. *)
Definition thresholdDefined (th : Thresholds) (key : string) : bool :=
  match th !! key with
  | Some _ => true
  | None => inherited key
  end.

(** [changeThresholds[key] = x]: writes an own property, except that
    [__proto__] is an accessor whose setter ignores a number. *)
Definition assignThreshold (th : Thresholds) (key : string) (x : float)
  : Thresholds :=
  if String.eqb key "__proto__" then th else <[key := x]> th.

(** [value >= 0], reached only after [isValidNumber]. *)
Definition js_ge_zero (value : jsval) : bool :=
  match value with
  | JNum x => (0 <=? x)%float
  | _ => false
  end.

(** One iteration of the [forEach] of POST /api/thresholds. *)
Definition updateThreshold (acc : Thresholds * nat) (kv : string * jsval)
  : Thresholds * nat :=
  let '(th, updatedCount) := acc in
  let '(key, v) := kv in
  if thresholdDefined th key && isValidNumber v && js_ge_zero v then
    match v with
    | JNum x => (assignThreshold th key x, S updatedCount)
    | _ => acc
    end
  else acc.

Inductive ThresholdsResponse : Type :=
  | ThresholdsNotObject                            (* 400 *)
  | ThresholdsUpdated (updatedCount : nat) (thresholds : Thresholds).

(** POST /api/thresholds (SetThresholds). *)
Definition setThresholds (newThresholds : ThresholdsBody) (st : SensorState)
  : SensorState * ThresholdsResponse :=
  match newThresholds with
  | BodyArray => (st, ThresholdsNotObject)
  | BodyObject entries =>
      let '(th, updatedCount) :=
        fold_left updateThreshold entries (changeThresholds st, 0%nat) in
      (mkSensorState (latestData st) th, ThresholdsUpdated updatedCount th)
  end.

(** ** Command queue and dispatcher *)

(** [deviceCommands] *)
Record DeviceCommands : Type := mkDeviceCommands {
  buzzer : bool;
  led : bool
}.

(** [commandUpdate]: the object that receives only the changed fields. *)
Record CommandUpdate : Type := mkCommandUpdate {
  cu_buzzer : option bool;
  cu_led : option bool
}.

Definition noUpdate : CommandUpdate := mkCommandUpdate None None.

(** An element of [pendingCommands]: [{ id, commands, timestamp }]. *)
Record PendingCommand : Type := mkPendingCommand {
  id : string;
  commands : CommandUpdate;
  createdAt : Z
}.

(** An element of [commandListeners]: [{ res, timestamp }].  A response
    object is identified by the number of the request it belongs to. *)
Record Listener : Type := mkListener {
  res : nat;
  registeredAt : Z
}.

(** The marker property a command response carries, if any. *)
Inductive Marker : Type :=
  | NoMarker
  | Immediate                      (* immediate: true *)
  | TimedOut                       (* timeout: true *)
  | NewCommands (b : bool).        (* newCommands: b *)

(** The bodies handed to [res.json]. *)
Inductive Response : Type :=
  | CommandDelta (cmds : CommandUpdate) (commandId : string)
                 (stamp : Z) (marker : Marker)
  | CommandSnapshot (cmds : DeviceCommands) (stamp : Z) (marker : Marker)
  | CommandsUpdated (cmds : DeviceCommands) (updated : bool)
  | BadRequest (message : string)                  (* 400 *)
  | ServerError (message : string)                 (* 500 *)
  | Cleared (count : nat).

Definition msgEmptyRequest : string :=
  "At least one command (buzzer or led) must be provided".
Definition msgBuzzerType : string := "Buzzer value must be boolean".
Definition msgLedType : string := "LED value must be boolean".
Definition msgInternalError : string := "Internal server error".

(** The module-level state of the command side, together with what the
    HTTP layer holds: the bodies already written ([sent], oldest first),
    the timeouts armed by [res.setTimeout] (request and duration in
    milliseconds), and the number of the next request. *)
Record ServerState : Type := mkServerState {
  deviceCommands : DeviceCommands;
  pendingCommands : list PendingCommand;
  commandListeners : list Listener;
  sent : list (nat * Response);
  timers : list (nat * Z);
  nextRes : nat
}.

Definition initialState : ServerState :=
  mkServerState (mkDeviceCommands false false) [] [] [] [] 0.

Definition setDeviceCommands (c : DeviceCommands) (st : ServerState) :=
  mkServerState c (pendingCommands st) (commandListeners st) (sent st)
                (timers st) (nextRes st).
Definition setPendingCommands (q : list PendingCommand) (st : ServerState) :=
  mkServerState (deviceCommands st) q (commandListeners st) (sent st)
                (timers st) (nextRes st).
Definition setCommandListeners (ls : list Listener) (st : ServerState) :=
  mkServerState (deviceCommands st) (pendingCommands st) ls (sent st)
                (timers st) (nextRes st).
Definition setSent (log : list (nat * Response)) (st : ServerState) :=
  mkServerState (deviceCommands st) (pendingCommands st) (commandListeners st)
                log (timers st) (nextRes st).
Definition setTimers (ts : list (nat * Z)) (st : ServerState) :=
  mkServerState (deviceCommands st) (pendingCommands st) (commandListeners st)
                (sent st) ts (nextRes st).

(** [res.headersSent] *)
Definition headersSent (r : nat) (st : ServerState) : bool :=
  existsb (fun p => Nat.eqb (fst p) r) (sent st).

(** [res.json(body)]: writes the body, or throws ([None]) when the
    response was already written. *)
Definition json (r : nat) (body : Response) (st : ServerState)
  : option ServerState :=
  if headersSent r st then None
  else Some (setSent (sent st ++ [(r, body)]) st).

(** A request arrives: its response object is fresh. *)
Definition accept (st : ServerState) : nat * ServerState :=
  (nextRes st,
   mkServerState (deviceCommands st) (pendingCommands st)
                 (commandListeners st) (sent st) (timers st)
                 (S (nextRes st))).

(** [res.json(body)] on a response that is known to be unwritten: the
    response of the request being handled, or one whose [headersSent] was
    just tested. *)
Definition reply (r : nat) (body : Response) (st : ServerState)
  : ServerState :=
  setSent (sent st ++ [(r, body)]) st.

(** [notifyCommandListeners(command)]: the [try]/[catch] around each
    [listener.res.json] swallows a failed write; the registry is cleared
    afterwards. *)
Definition notifyCommandListeners (command : PendingCommand)
    (st : ServerState) : ServerState :=
  let st1 :=
    fold_left (fun s listener =>
        match json (res listener)
                   (CommandDelta (commands command) (id command)
                                 (createdAt command) NoMarker) s with
        | Some s' => s'
        | None => s
        end) (commandListeners st) st in
  setCommandListeners [] st1.

(** POST /api/deviceCommand (SetCommand).  [newId] is the string
    [Date.now() + Math.random().toString(36).substr(2, 9)] and [now] the
    clock reading.  The statements run in source order: the buzzer is
    checked and stored before the LED is looked at. *)
Definition setCommand (buzzerArg ledArg : jsval) (newId : string) (now : Z)
    (st0 : ServerState) : ServerState :=
  let '(r, st) := accept st0 in
  if is_undefined buzzerArg && is_undefined ledArg then
    reply r (BadRequest msgEmptyRequest) st
  else
    (* if (buzzer !== undefined) { ... } *)
    let afterBuzzer : option (ServerState * bool * CommandUpdate) :=
      match buzzerArg with
      | JUndefined => Some (st, false, noUpdate)
      | JBool b =>
          if negb (Bool.eqb (buzzer (deviceCommands st)) b) then
            Some (setDeviceCommands
                    (mkDeviceCommands b (led (deviceCommands st))) st,
                  true, mkCommandUpdate (Some b) None)
          else Some (st, false, noUpdate)
      | _ => None
      end in
    match afterBuzzer with
    | None => reply r (BadRequest msgBuzzerType) st
    | Some (st1, updated1, commandUpdate1) =>
        (* if (led !== undefined) { ... } *)
        let afterLed : option (ServerState * bool * CommandUpdate) :=
          match ledArg with
          | JUndefined => Some (st1, updated1, commandUpdate1)
          | JBool b =>
              if negb (Bool.eqb (led (deviceCommands st1)) b) then
                Some (setDeviceCommands
                        (mkDeviceCommands (buzzer (deviceCommands st1)) b) st1,
                      true,
                      mkCommandUpdate (cu_buzzer commandUpdate1) (Some b))
              else Some (st1, updated1, commandUpdate1)
          | _ => None
          end in
        match afterLed with
        | None => reply r (BadRequest msgLedType) st1
        | Some (st2, updated, commandUpdate) =>
            let st3 :=
              if updated then
                let newCommand := mkPendingCommand newId commandUpdate now in
                notifyCommandListeners newCommand
                  (setPendingCommands (pendingCommands st2 ++ [newCommand]) st2)
              else st2 in
            reply r (CommandsUpdated (deviceCommands st3) updated) st3
        end
    end.

(** The callback given to [res.setTimeout] for the listener of request
    [r]. *)
Definition onTimeout (r : nat) (now : Z) (st : ServerState) : ServerState :=
  let st1 :=
    setCommandListeners
      (List.filter (fun l => negb (Nat.eqb (res l) r)) (commandListeners st))
      st in
  if negb (headersSent r st1) then
    reply r (CommandSnapshot (deviceCommands st1) now TimedOut) st1
  else st1.

(** What [parseInt] returns: an integer, or a number that is not finite
    ([NaN] when the text starts with no digit, an infinity when it holds
    more digits than a number can). *)
Inductive ParsedInt : Type :=
  | NotFinite
  | Finite (n : Z).

(** The longest duration a timer takes: [2^31 - 1] milliseconds. *)
Definition TIMEOUT_MAX : Z := 2147483647.

(** What [res.setTimeout(msecs, callback)] does with the duration: it
    throws for a negative or non-finite one; for [0] the timeout of the
    socket is switched off and the callback is never called; any other
    duration arms the timeout, cut down to [TIMEOUT_MAX]. *)
Inductive TimeoutOutcome : Type :=
  | TimeoutRejected
  | TimeoutDisarmed
  | TimeoutArmed (msecs : Z).

Definition setTimeoutOutcome (msecs : ParsedInt) : TimeoutOutcome :=
  match msecs with
  | NotFinite => TimeoutRejected
  | Finite n =>
      if (n <? 0)%Z then TimeoutRejected
      else if (n =? 0)%Z then TimeoutDisarmed
      else TimeoutArmed (Z.min n TIMEOUT_MAX)
  end.

(** GET /api/getDeviceCommand (long poll).  [timeoutArg] is
    [parseInt(req.query.timeout)] when the parameter is present and not
    empty; [immediate] is [req.query.immediate === 'true'].  The listener
    is pushed before [res.setTimeout] is called: when that call throws,
    the [catch] answers 500 and the listener stays in the registry. *)
Definition getDeviceCommand (timeoutArg : option ParsedInt) (immediate : bool)
    (now : Z) (st0 : ServerState) : ServerState :=
  let '(r, st) := accept st0 in
  let timeout :=
    match timeoutArg with Some t => t | None => Finite 30000 end in
  if immediate || negb (Nat.eqb (length (pendingCommands st)) 0) then
    match pendingCommands st with
    | latestCommand :: rest =>                       (* shift() *)
        reply r (CommandDelta (commands latestCommand) (id latestCommand)
                              (createdAt latestCommand) Immediate)
              (setPendingCommands rest st)
    | [] => reply r (CommandSnapshot (deviceCommands st) now Immediate) st
    end
  else
    let listener := mkListener r now in
    let st1 := setCommandListeners (commandListeners st ++ [listener]) st in
    match setTimeoutOutcome timeout with
    | TimeoutArmed msecs => setTimers (timers st1 ++ [(r, msecs)]) st1
    | TimeoutDisarmed => st1
    | TimeoutRejected =>                             (* catch (error) *)
        reply r (ServerError msgInternalError) st1
    end.

(** GET /api/pollDeviceCommand (plain poll). *)
Definition pollDeviceCommand (now : Z) (st0 : ServerState) : ServerState :=
  let '(r, st) := accept st0 in
  match pendingCommands st with
  | latestCommand :: rest =>                         (* shift() *)
      reply r (CommandDelta (commands latestCommand) (id latestCommand)
                            (createdAt latestCommand) (NewCommands true))
            (setPendingCommands rest st)
  | [] => reply r (CommandSnapshot (deviceCommands st) now (NewCommands false)) st
  end.

(** POST /api/clearPendingCommands. *)
Definition clearPendingCommands (st0 : ServerState) : ServerState :=
  let '(r, st) := accept st0 in
  let count := length (pendingCommands st) in
  reply r (Cleared count)
        (setCommandListeners [] (setPendingCommands [] st)).

(** ** Runs of the dispatcher *)

(** What can happen to the command side: a request arrives, or the
    timeout armed for request [r] fires; [now] is the clock reading of the
    handler or of the callback. *)
Inductive Event : Type :=
  | SetCommand (buzzerArg ledArg : jsval) (newId : string) (now : Z)
  | LongPoll (timeoutArg : option ParsedInt) (immediate : bool) (now : Z)
  | Poll (now : Z)
  | TimerFires (r : nat) (now : Z)
  | ClearPending.

(** A timeout fires only for a request that armed one.  The callback
    runs on the timer of the socket, not on the clock it reads: nothing
    ties [now] to the instant the listener was registered. *)
Definition timerArmed (r : nat) (st : ServerState) : bool :=
  existsb (fun t => Nat.eqb (fst t) r) (timers st).

Definition step (e : Event) (st : ServerState) : option ServerState :=
  match e with
  | SetCommand b l newId now => Some (setCommand b l newId now st)
  | LongPoll t imm now => Some (getDeviceCommand t imm now st)
  | Poll now => Some (pollDeviceCommand now st)
  | TimerFires r now =>
      if timerArmed r st then Some (onTimeout r now st) else None
  | ClearPending => Some (clearPendingCommands st)
  end.

(** [run tr st]: the events of [tr] handled one after the other (the
    event loop runs each handler to completion). *)
Fixpoint run (tr : list Event) (st : ServerState) : option ServerState :=
  match tr with
  | [] => Some st
  | e :: tr' =>
      match step e st with
      | Some st' => run tr' st'
      | None => None
      end
  end.

Definition reachable (st : ServerState) : Prop :=
  exists tr, run tr initialState = Some st.

(** The identifiers of the commands handed out by dequeuing (a plain poll,
    or a long poll answered on arrival), oldest first. *)
Definition dequeuedIds (log : list (nat * Response)) : list string :=
  flat_map (fun p =>
      match snd p with
      | CommandDelta _ commandId _ Immediate => [commandId]
      | CommandDelta _ commandId _ (NewCommands _) => [commandId]
      | _ => []
      end) log.

(** The identifiers handed to waiting listeners by
    [notifyCommandListeners], one per listener served. *)
Definition broadcastIds (log : list (nat * Response)) : list string :=
  flat_map (fun p =>
      match snd p with
      | CommandDelta _ commandId _ NoMarker => [commandId]
      | _ => []
      end) log.

(** The identifiers the [SetCommand] requests of a trace were given. *)
Definition issuedIds (tr : list Event) : list string :=
  flat_map (fun e =>
      match e with
      | SetCommand _ _ newId _ => [newId]
      | _ => []
      end) tr.

(** The field a [SetCommand] argument changes: a boolean that differs from
    the stored one. *)
Definition changedField (current : bool) (arg : jsval) : option bool :=
  match arg with
  | JBool b => if Bool.eqb current b then None else Some b
  | _ => None
  end.

(** A [SetCommand] argument is well typed when absent or boolean. *)
Definition commandArgOk (arg : jsval) : bool :=
  is_undefined arg || is_boolean arg.

(** ** Predicates used in the statements *)

(** A float that is neither NaN nor infinite is a zero or a finite
    number of the specification. *)
Definition SF_is_finite (x : spec_float) : Prop :=
  match x with
  | S754_zero _ | S754_finite _ _ _ => True
  | _ => False
  end.

(** Every threshold of the table is [>= 0]. *)
Definition thresholdsNonNegative (th : Thresholds) : Prop :=
  forall key t, th !! key = Some t -> (0 <=? t)%float = true.

(** An entry of a SetThresholds body is applicable when it names a field
    of the thresholds table and carries a finite number [>= 0]. *)
Definition applicable (th : Thresholds) (kv : string * jsval) : bool :=
  bool_decide (is_Some (th !! fst kv))
  && isValidNumber (snd kv) && js_ge_zero (snd kv).

(** A [SetCommand] argument that is absent or equal to the stored value. *)
Definition sameOrAbsent (current : bool) (arg : jsval) : bool :=
  match arg with
  | JUndefined => true
  | JBool b => Bool.eqb current b
  | _ => false
  end.

(** The state invariant of the dispatcher: no request was answered twice;
    requests are numbered below [nextRes]; a registered listener is still
    unanswered, or it is one whose [res.setTimeout] threw and that was
    answered 500; no request is registered twice. *)
Record wellFormed (st : ServerState) : Prop := mkWellFormed {
  wf_answered_once : NoDup (map fst (sent st));
  wf_sent_known : forall p, In p (sent st) -> (fst p < nextRes st)%nat;
  wf_listener_known :
    forall l, In l (commandListeners st) -> (res l < nextRes st)%nat;
  wf_listener_state :
    forall l, In l (commandListeners st) ->
              headersSent (res l) st = false
              \/ In (res l, ServerError msgInternalError) (sent st);
  wf_listener_distinct : NoDup (map res (commandListeners st));
  wf_timer_known : forall t, In t (timers st) -> (fst t < nextRes st)%nat
}.

(** What [res.setTimeout] does with the timeout a long poll asks for:
    [30000] when the parameter is absent. *)
Definition requestedTimeout (timeoutArg : option ParsedInt) : TimeoutOutcome :=
  setTimeoutOutcome
    (match timeoutArg with Some t => t | None => Finite 30000 end).

(** The timeouts [res.setTimeout] takes without throwing. *)
Definition acceptsTimeout (timeoutArg : option ParsedInt) : bool :=
  match requestedTimeout timeoutArg with
  | TimeoutRejected => false
  | _ => true
  end.

(** The long polls of a trace that ask for the timeout to be switched
    off. *)
Definition asksNoTimeout (e : Event) : bool :=
  match e with
  | LongPoll (Some (Finite 0)) _ _ => true
  | _ => false
  end.

(** The listeners of the registry whose response is still unwritten. *)
Definition unanswered (st : ServerState) : list Listener :=
  List.filter (fun l => negb (headersSent (res l) st)) (commandListeners st).

(** The identifiers of the commands that were dequeued or are still
    queued, oldest first. *)
Definition consumable (st : ServerState) : list string :=
  dequeuedIds (sent st) ++ map id (pendingCommands st).

(** ** Runs of the sensor side *)

(** What changes the sensor side: a reading is submitted, or the
    thresholds are updated.  The queries leave it as it is. *)
Inductive SensorEvent : Type :=
  | SubmitReading (clock : field -> Z) (data : SensorRequest)
  | SetThresholds (newThresholds : ThresholdsBody).

Definition sensorStep (e : SensorEvent) (st : SensorState) : SensorState :=
  match e with
  | SubmitReading clock data => fst (postData clock data st)
  | SetThresholds newThresholds => fst (setThresholds newThresholds st)
  end.

Definition sensorRun (tr : list SensorEvent) (st : SensorState) : SensorState :=
  fold_left (fun s e => sensorStep e s) tr st.

(** A provided field is significant when it is set and the change
    detector accepts it against the stored value. *)
Definition significant (th : Thresholds) (d : LatestData)
    (data : SensorRequest) (f : field) : bool :=
  negb (is_nullish (requestField data f))
  && hasDataChanged th (field_name f) (requestField data f) (oldValueOf d f).

(** The value a list of properties holds for a key. *)
Definition propertyOf (f : field) (nd : list (field * jsval)) : option jsval :=
  snd <$> List.find (fun kv => bool_decide (fst kv = f)) nd.

(** The reading a submission stores for a field. *)
Definition submitted (clock : field -> Z) (data : SensorRequest) (f : field)
  : SensorReading :=
  mkReading (requestField data f) (clock f).

(** Every stored value passes the validation of its field. *)
Definition storeValid (d : LatestData) : Prop :=
  forall f r, d f = Some r ->
    is_undefined (value r) = false /\ fieldRejected f (value r) = false.

(** What the validation of a field lets through. *)
Definition acceptedValue (f : field) (v : jsval) : Prop :=
  match f with
  | temp => exists x, v = JNum x /\ is_finite x = true
  | heartrate =>
      exists x, v = JNum x /\ is_finite x = true /\ (0 <=? x)%float = true
  | movement => exists m, v = JStr m /\ In m validMovements
  | lat | lon =>
      exists x, v = JNum x /\ is_finite x = true
                /\ (abs x <=? 180)%float = true
  end.

(** The five sensor fields have a threshold. *)
Definition thresholdsCover (th : Thresholds) : Prop :=
  forall f, is_Some (th !! field_name f).

(** Every threshold of the table is a finite number. *)
Definition thresholdsFinite (th : Thresholds) : Prop :=
  forall key t, th !! key = Some t -> is_finite t = true.

(** ** Field selection *)

(** [Object.keys(latestData)] *)
Definition validFields : list string := map field_name fields.

(** [validFields.includes(field)] *)
Definition isFieldName (v : jsval) : bool :=
  existsb (fun name => strict_eq (JStr name) v) validFields.

(** The field a valid name denotes. *)
Definition fieldOfName (v : jsval) : option field :=
  List.find (fun f => strict_eq (JStr (field_name f)) v) fields.

(** [obj[f] = r] on an object given by its properties in insertion
    order: an existing property keeps its place. *)
Definition setProperty (obj : list (field * SensorReading)) (f : field)
    (r : SensorReading) : list (field * SensorReading) :=
  if existsb (fun kv => bool_decide (fst kv = f)) obj
  then map (fun kv => if decide (fst kv = f) then (f, r) else kv) obj
  else obj ++ [(f, r)].

Inductive SpecificResponse : Type :=
  | FieldsArrayRequired                            (* 400 *)
  | InvalidFields (invalidFields : list jsval) (valid : list string) (* 400 *)
  | SpecificData (data : list (field * SensorReading)).

(** POST /api/getSpecificData; [fieldsArg] is the [fields] property of the
    body when it is an array. *)
Definition getSpecificData (fieldsArg : option (list jsval))
    (st : SensorState) : SpecificResponse :=
  match fieldsArg with
  | None => FieldsArrayRequired
  | Some requested =>
      let invalidFields :=
        List.filter (fun v => negb (isFieldName v)) requested in
      if negb (Nat.eqb (length invalidFields) 0) then
        InvalidFields invalidFields validFields
      else
        SpecificData
          (fold_left (fun specificData v =>
              match fieldOfName v with
              | Some f =>
                  match latestData st f with
                  | Some r => setProperty specificData f r
                  | None => specificData
                  end
              | None => specificData
              end) requested [])
  end.

(** ** Shutdown *)

(** The body [gracefulShutdown] writes to a waiting listener. *)
Record ShutdownNotice : Type := mkShutdownNotice {
  sn_message : string;
  sn_commands : DeviceCommands;
  sn_stamp : Z
}.

Definition msgShutdown : string := "Server shutting down".

(** [gracefulShutdown()], up to [process.exit]: the notices written, oldest
    first.  [clock r] is the instant read while the listener of request [r]
    is served; a write to a response that was already written throws and is
    caught. *)
Definition gracefulShutdown (clock : nat -> Z) (st : ServerState)
  : list (nat * ShutdownNotice) :=
  fold_left (fun written listener =>
      if headersSent (res listener) st
         || existsb (fun p => Nat.eqb (fst p) (res listener)) written
      then written
      else written ++
           [(res listener,
             mkShutdownNotice msgShutdown (deviceCommands st)
                              (clock (res listener)))])
    (commandListeners st) [].

(** ** Predicates on commands and runs *)

(** A command delta names at least one field. *)
Definition updateNonEmpty (u : CommandUpdate) : bool :=
  match cu_buzzer u, cu_led u with
  | None, None => false
  | _, _ => true
  end.

(** A delta laid over a command state. *)
Definition applyUpdate (dc : DeviceCommands) (u : CommandUpdate)
  : DeviceCommands :=
  mkDeviceCommands (default (buzzer dc) (cu_buzzer u))
                   (default (led dc) (cu_led u)).

(** The command SetCommand builds from its arguments. *)
Definition builtUpdate (st : ServerState) (buzzerArg ledArg : jsval)
  : CommandUpdate :=
  mkCommandUpdate (changedField (buzzer (deviceCommands st)) buzzerArg)
                  (changedField (led (deviceCommands st)) ledArg).

(** The value a SetCommand argument asks for, given the stored one. *)
Definition requestedValue (current : bool) (arg : jsval) : bool :=
  match arg with
  | JBool b => b
  | _ => current
  end.

(** The deltas handed out by dequeuing, oldest first. *)
Definition dequeuedDeltas (log : list (nat * Response)) : list CommandUpdate :=
  flat_map (fun p =>
      match snd p with
      | CommandDelta cmds _ _ Immediate => [cmds]
      | CommandDelta cmds _ _ (NewCommands _) => [cmds]
      | _ => []
      end) log.

(** Every delta written to a device, by dequeuing or by broadcast. *)
Definition writtenDeltas (log : list (nat * Response)) : list CommandUpdate :=
  flat_map (fun p =>
      match snd p with
      | CommandDelta cmds _ _ _ => [cmds]
      | _ => []
      end) log.

(** An event whose SetCommand arguments, if any, are absent or boolean,
    and that is not the administrative reset. *)
Definition regularEvent (e : Event) : bool :=
  match e with
  | SetCommand buzzerArg ledArg _ _ =>
      commandArgOk buzzerArg && commandArgOk ledArg
  | ClearPending => false
  | _ => true
  end.

(** ** The dashboard *)

(** The state updater of [fetchData] in the dashboard: every entry of the
    received data that has a value replaces the entry shown.  A field the
    dashboard has no reading for ([{ value: null, timestamp: null }]) is
    [None]. *)
Definition mergeReadings (prev : LatestData)
    (data : list (field * SensorReading)) : LatestData :=
  fold_left (fun newData kv =>
      if negb (is_undefined (value (snd kv)))
      then setReading newData (fst kv) (snd kv)
      else newData) data prev.

(** A notification banner of the dashboard. *)
Record Notification : Type := mkNotification {
  n_id : Z;
  n_message : string;
  n_type : string
}.

(** [setNotifications(prev => [notification, ...prev.slice(0, 4)])] *)
Definition addNotification (notification : Notification)
    (prev : list Notification) : list Notification :=
  notification :: take 4 prev.

(** [setNotifications(prev => prev.filter(n => n.id !== id))] *)
Definition expireNotification (expired : Z) (prev : list Notification)
  : list Notification :=
  List.filter (fun n => negb (Z.eqb (n_id n) expired)) prev.

Inductive NotificationEvent : Type :=
  | Notify (notification : Notification)
  | Expire (expired : Z).

Definition notificationStep (e : NotificationEvent)
    (shown : list Notification) : list Notification :=
  match e with
  | Notify n => addNotification n shown
  | Expire i => expireNotification i shown
  end.

(** Every queued command and every delta written names a field. *)
Definition deltasNonEmpty (st : ServerState) : Prop :=
  Forall (fun c => updateNonEmpty (commands c) = true) (pendingCommands st)
  /\ Forall (fun u => updateNonEmpty u = true) (writtenDeltas (sent st)).

(** The deltas dequeued so far followed by those still queued. *)
Definition deltaHistory (st : ServerState) : list CommandUpdate :=
  dequeuedDeltas (sent st) ++ map commands (pendingCommands st).
(** ** Facts about binary64 arithmetic used below *)

Section FloatFacts.

Lemma shl_align_same (m : positive) (e : Z) : shl_align m e e = (m, e).
Proof. unfold shl_align. rewrite Z.sub_diag. reflexivity. Qed.

Lemma is_finite_SF (v : float) : is_finite v = true -> SF_is_finite (Prim2SF v).
Proof.
  unfold is_finite, Prim2SF.
  destruct (is_nan v); simpl; [discriminate |].
  destruct (is_infinity v); simpl; [discriminate |]. intros _.
  destruct (is_zero v); [exact I |].
  destruct (Z.frexp v). destruct (shr_fexp _ _ _ _ _).
  destruct (shr_m _); exact I.
Qed.

Lemma SFsub_diag (x : spec_float) :
  SF_is_finite x -> SF64sub x x = S754_zero false.
Proof.
  destruct x as [s | s | | s m e]; simpl; try tauto; intros _.
  - destruct s; reflexivity.
  - unfold SF64sub, SFsub. rewrite Z.min_id, shl_align_same. simpl.
    rewrite Z.sub_diag. reflexivity.
Qed.

(** [v - v] is [+0] for every finite [v]. *)
Lemma float_sub_diag (v : float) : is_finite v = true -> (v - v)%float = 0%float.
Proof.
  intros H. apply Prim2SF_inj.
  rewrite sub_spec, SFsub_diag by (apply is_finite_SF; exact H).
  reflexivity.
Qed.

(** Either zero is [<= +0]. *)
Lemma float_zero_leb_zero (t : float) :
  (t =? 0)%float = true -> (t <=? 0)%float = true.
Proof.
  rewrite eqb_spec, leb_spec.
  change (Prim2SF 0) with (S754_zero false).
  destruct (Prim2SF t) as [s | s | | s m e]; try destruct s;
    unfold SFeqb, SFleb; simpl; try discriminate; auto.
Qed.

Lemma float_zero_leb_abs_sub_diag (t v : float) :
  (t =? 0)%float = true -> is_finite v = true ->
  (t <=? abs (v - v))%float = true.
Proof.
  intros Ht Hv. rewrite float_sub_diag by exact Hv.
  change (abs 0) with 0%float. apply float_zero_leb_zero, Ht.
Qed.

End FloatFacts.

(** ** Sanity checks of the embedding on concrete requests *)

Example hasDataChanged_temp_small :
  hasDataChanged initialThresholds "temp" (JNum 36.65) (JNum 36.6) = false.
Proof. vm_compute. reflexivity. Qed.

Example hasDataChanged_temp_large :
  hasDataChanged initialThresholds "temp" (JNum 37.2) (JNum 36.6) = true.
Proof. vm_compute. reflexivity. Qed.

(** The difference is rounded: 0.3 - 0.2 is just below the binary64 value
    of 0.1, while 36.7 - 36.6 is just above it. *)
Example hasDataChanged_rounding :
  hasDataChanged initialThresholds "temp" (JNum 0.3) (JNum 0.2) = false
  /\ hasDataChanged initialThresholds "temp" (JNum 36.7) (JNum 36.6) = true.
Proof. split; vm_compute; reflexivity. Qed.

Example hasDataChanged_movement :
  hasDataChanged initialThresholds "movement" (JStr "walking") (JStr "sitting")
  = true.
Proof. vm_compute. reflexivity. Qed.

Example validate_bad_heartrate :
  validateSensorData
    (mkSensorRequest (JNum 36.6) (JNum (-4)) (JStr "running") JUndefined JUndefined)
  = [errHeartrate; errMovement].
Proof. vm_compute. reflexivity. Qed.

(** ** The change detector *)

Lemma string_neq_eqb (a b : string) : negb (String.eqb a b) = true <-> a <> b.
Proof.
  destruct (String.eqb_spec a b) as [-> | Hne]; simpl; split; intros H;
    congruence.
Qed.

(** C1.  [hasDataChanged] is a function of the thresholds table and its three
    arguments only.  For a field whose threshold is [t]: an unset old value
    ([null] or [undefined]) is always significant; an unset new value
    against a set old value never is; two categorical (string) values are
    significant exactly when they differ; two numbers are significant
    exactly when [abs (new - old) >= t] in binary64 arithmetic. *)
Theorem hasDataChanged_contract (th : Thresholds) (f : field) (t : float)
    (Ht : th !! field_name f = Some t) :
  (forall newValue oldValue,
      is_nullish oldValue = true ->
      hasDataChanged th (field_name f) newValue oldValue = true)
  /\ (forall newValue oldValue,
      is_nullish oldValue = false -> is_nullish newValue = true ->
      hasDataChanged th (field_name f) newValue oldValue = false)
  /\ (forall a b : string,
      hasDataChanged th (field_name f) (JStr a) (JStr b) = true <-> a <> b)
  /\ (forall n o : float,
      hasDataChanged th (field_name f) (JNum n) (JNum o)
      = (t <=? abs (n - o))%float).
Proof.
  repeat split.
  - intros newValue oldValue Hold. unfold hasDataChanged. now rewrite Hold.
  - intros newValue oldValue Hold Hnew. unfold hasDataChanged.
    now rewrite Hold, Hnew.
  - unfold hasDataChanged, strict_neq; simpl. apply string_neq_eqb.
  - unfold hasDataChanged, strict_neq; simpl. apply string_neq_eqb.
  - intros n o. unfold hasDataChanged; simpl. now rewrite Ht.
Qed.

Lemma hasDataChanged_contract_witness :
  initialThresholds !! field_name temp = Some 0.1%float
  /\ hasDataChanged initialThresholds "temp" (JNum 36.7) (JNum 36.6)
     = (0.1 <=? abs (36.7 - 36.6))%float.
Proof.
  split; [reflexivity |].
  apply (hasDataChanged_contract initialThresholds temp 0.1%float).
  reflexivity.
Defined.

(** ** Validation before the store *)

(** No error is reported exactly when no provided field is rejected. *)
Lemma validateSensorData_nil (data : SensorRequest) :
  validateSensorData data = [] <->
  forall f, fieldRejected f (requestField data f) = false.
Proof.
  unfold validateSensorData. split.
  - intros H f.
    destruct (fieldRejected temp (r_temp data)) eqn:E1; [discriminate |].
    destruct (fieldRejected heartrate (r_heartrate data)) eqn:E2; [discriminate |].
    destruct (fieldRejected movement (r_movement data)) eqn:E3; [discriminate |].
    destruct (fieldRejected lat (r_lat data)) eqn:E4; [discriminate |].
    destruct (fieldRejected lon (r_lon data)) eqn:E5; [discriminate |].
    destruct f; assumption.
  - intros H.
    rewrite (H temp : fieldRejected temp (r_temp data) = false).
    rewrite (H heartrate : fieldRejected heartrate (r_heartrate data) = false).
    rewrite (H movement : fieldRejected movement (r_movement data) = false).
    rewrite (H lat : fieldRejected lat (r_lat data) = false).
    rewrite (H lon : fieldRejected lon (r_lon data) = false).
    reflexivity.
Qed.

(** A reading with a rejected field is refused whole: the answer lists the
    violations and neither the table nor the thresholds change. *)
Lemma postData_rejected_unchanged (clock : field -> Z) (data : SensorRequest)
    (st : SensorState) (f : field) :
  fieldRejected f (requestField data f) = true ->
  postData clock data st = (st, ValidationFailed (validateSensorData data))
  /\ validateSensorData data <> [].
Proof.
  intros Hrej.
  assert (Hne : validateSensorData data <> []).
  { intros Hnil. rewrite validateSensorData_nil in Hnil.
    specialize (Hnil f). congruence. }
  split; [| exact Hne].
  unfold postData. destruct (validateSensorData data); [congruence | reflexivity].
Qed.

(** ** Delta queries *)

Lemma changedSince_In (d : LatestData) (t : Z) (f : field) (r : SensorReading) :
  In (f, r) (changedSince d t) <-> d f = Some r /\ t < timestamp r.
Proof.
  unfold changedSince. rewrite in_flat_map. split.
  - intros (key & _ & Hin). destruct (d key) as [r' |] eqn:Hd; [| destruct Hin].
    destruct (Z.ltb_spec t (timestamp r')) as [Hlt | Hge]; [| destruct Hin].
    destruct Hin as [Heq | []]. injection Heq as -> ->. auto.
  - intros [Hd Hlt]. exists f. split.
    + destruct f; simpl; auto 6.
    + rewrite Hd. destruct (Z.ltb_spec t (timestamp r)); [now left | lia].
Qed.

(** C8.  For every instant [t], GetReadingsSince(t) answers with exactly the
    fields whose stored timestamp is strictly greater than [t] (so none
    with a timestamp [<= t]), and its [fullUpdate] flag is true exactly
    when that mapping is empty. *)
Theorem getData_since_exact (st : SensorState) (t : Z) :
  exists data fullUpdate,
    getData (Since t) st = Readings data fullUpdate
    /\ (forall f r,
          In (f, r) data <-> latestData st f = Some r /\ t < timestamp r)
    /\ (forall f r, In (f, r) data -> ~ timestamp r <= t)
    /\ (fullUpdate = true <-> data = []).
Proof.
  exists (changedSince (latestData st) t),
         (Nat.eqb (length (changedSince (latestData st) t)) 0).
  split; [reflexivity |]. split; [| split].
  - intros f r. apply changedSince_In.
  - intros f r Hin. apply changedSince_In in Hin. lia.
  - destruct (changedSince (latestData st) t); simpl; split; congruence.
Qed.

(** ** Threshold updates *)

Lemma initialThresholds_nonneg : thresholdsNonNegative initialThresholds.
Proof.
  intros key t. unfold initialThresholds.
  repeat (rewrite lookup_insert; case_decide; [intros [= <-]; reflexivity |]).
  rewrite lookup_empty. discriminate.
Qed.

Lemma updateThreshold_nonneg (acc : Thresholds * nat) (kv : string * jsval) :
  thresholdsNonNegative (fst acc) ->
  thresholdsNonNegative (fst (updateThreshold acc kv)).
Proof.
  destruct acc as [th n], kv as [key v]. simpl. intros Hth.
  destruct (thresholdDefined th key && isValidNumber v && js_ge_zero v) eqn:E;
    [| exact Hth].
  destruct v; try exact Hth. simpl.
  apply andb_prop in E as [_ Hge]. simpl in Hge.
  unfold assignThreshold. destruct (String.eqb key "__proto__"); [exact Hth |].
  intros k t. rewrite lookup_insert. case_decide.
  - intros [= <-]. exact Hge.
  - apply Hth.
Qed.

Lemma fold_updateThreshold_nonneg (entries : list (string * jsval))
    (acc : Thresholds * nat) :
  thresholdsNonNegative (fst acc) ->
  thresholdsNonNegative (fst (fold_left updateThreshold entries acc)).
Proof.
  revert acc. induction entries as [| kv entries IH]; intros acc H; simpl.
  - exact H.
  - apply IH, updateThreshold_nonneg, H.
Qed.

(** SetThresholds never fails on an object body, and every threshold is
    still [>= 0] afterwards. *)
Lemma setThresholds_nonneg (entries : list (string * jsval)) (st : SensorState) :
  thresholdsNonNegative (changeThresholds st) ->
  exists n th,
    setThresholds (BodyObject entries) st
    = (mkSensorState (latestData st) th, ThresholdsUpdated n th)
    /\ thresholdsNonNegative th.
Proof.
  intros H. unfold setThresholds.
  pose proof (fold_updateThreshold_nonneg entries (changeThresholds st, 0%nat) H)
    as Hfold.
  destruct (fold_left updateThreshold entries (changeThresholds st, 0%nat))
    as [th n].
  exists n, th. split; [reflexivity | exact Hfold].
Qed.

(** The example of the specification: [{temp: -1, heartrate: 5}] applies
    only the heart-rate entry. *)
Lemma setThresholds_example :
  exists th,
    setThresholds (BodyObject [("temp", JNum (-1)); ("heartrate", JNum 5)])
                  initialSensorState
    = (mkSensorState noData th, ThresholdsUpdated 1 th)
    /\ th !! "temp" = Some 0.1%float
    /\ th !! "heartrate" = Some 5%float.
Proof. eexists. split; [reflexivity |]. split; reflexivity. Qed.

Lemma updateThreshold_own (th : Thresholds) (n : nat) (key : string) (v : jsval) :
  inherited key = false ->
  updateThreshold (th, n) (key, v)
  = if applicable th (key, v)
    then match v with
         | JNum x => (<[key := x]> th, S n)
         | _ => (th, n)
         end
    else (th, n).
Proof.
  intros Hinh. unfold updateThreshold, applicable, thresholdDefined. simpl.
  assert (Hproto : String.eqb key "__proto__" = false).
  { destruct (String.eqb_spec key "__proto__") as [-> |]; [| reflexivity].
    vm_compute in Hinh. discriminate. }
  destruct (th !! key) as [t |] eqn:Hk.
  - rewrite bool_decide_eq_true_2 by eauto.
    destruct v; simpl; try reflexivity.
    unfold assignThreshold. now rewrite Hproto.
  - rewrite Hinh, bool_decide_eq_false_2 by (intros [? ?]; discriminate).
    reflexivity.
Qed.

(** For a body whose keys are distinct and none of which is a name
    inherited from [Object.prototype], SetThresholds applies exactly the
    applicable entries: the count is their number, every applicable entry
    is stored, and every other threshold is untouched. *)
Lemma fold_updateThreshold_exact (entries : list (string * jsval))
    (th : Thresholds) (n : nat) :
  NoDup (map fst entries) ->
  (forall kv, In kv entries -> inherited (fst kv) = false) ->
  exists th',
    fold_left updateThreshold entries (th, n)
    = (th', (n + length (List.filter (applicable th) entries))%nat)
    /\ (forall key x, In (key, JNum x) entries ->
          applicable th (key, JNum x) = true -> th' !! key = Some x)
    /\ (forall key, (forall v, In (key, v) entries ->
                        applicable th (key, v) = false) ->
          th' !! key = th !! key).
Proof.
  revert th n.
  induction entries as [| [key v] entries IH]; intros th n Hnd Hinh;
    cbn [fold_left].
  - exists th. simpl. rewrite Nat.add_0_r. repeat split; auto. intros ? ? [].
  - rewrite map_cons in Hnd. apply NoDup_cons in Hnd as [Hnotin Hnd].
    rewrite list_elem_of_In in Hnotin.
    assert (Hk : inherited key = false) by (apply (Hinh (key, v)); now left).
    assert (Hinh' : forall kv, In kv entries -> inherited (fst kv) = false)
      by (intros kv Hin; apply Hinh; now right).
    rewrite updateThreshold_own by exact Hk.
    (* the table after this entry has the same keys, and differs at [key] only *)
    set (acc := if applicable th (key, v)
                then match v with
                     | JNum x => (<[key := x]> th, S n)
                     | _ => (th, n)
                     end
                else (th, n)).
    assert (Hacc : exists th1,
      acc = (th1, (n + (if applicable th (key, v) then 1 else 0))%nat)
      /\ (forall k, k <> key -> th1 !! k = th !! k)
      /\ (forall k, is_Some (th1 !! k) <-> is_Some (th !! k))
      /\ (applicable th (key, v) = false -> th1 = th)
      /\ (forall x, v = JNum x -> applicable th (key, v) = true ->
            th1 !! key = Some x)).
    { subst acc. destruct (applicable th (key, v)) eqn:Happ.
      - assert (exists x, v = JNum x) as [x ->].
        { unfold applicable in Happ. destruct v; simpl in Happ;
            rewrite ?andb_false_r in Happ; try discriminate. eauto. }
        exists (<[key := x]> th). rewrite Nat.add_1_r.
        split; [reflexivity |]. split; [| split; [| split]].
        + intros k Hne. now rewrite lookup_insert_ne.
        + intros k. rewrite lookup_insert. case_decide; [| reflexivity].
          subst k. unfold applicable in Happ. simpl in Happ.
          apply andb_prop in Happ as [Happ _].
          apply andb_prop in Happ as [Happ _].
          apply bool_decide_eq_true_1 in Happ. split; eauto.
        + discriminate.
        + intros x' [= <-] _. now rewrite lookup_insert_eq.
      - exists th. rewrite Nat.add_0_r.
        repeat split; auto; try discriminate. }
    destruct Hacc as (th1 & -> & Hother & Hdom & Hsame & Hset).
    assert (Happ_eq : forall kv, applicable th1 kv = applicable th kv).
    { intros kv. unfold applicable. f_equal. f_equal.
      apply bool_decide_ext, Hdom. }
    destruct (IH th1 (n + (if applicable th (key, v) then 1 else 0))%nat
                 Hnd Hinh') as (th' & Hfold & Happlied & Hkept).
    exists th'. split; [| split].
    + rewrite Hfold. f_equal. cbn [List.filter].
      rewrite (filter_ext _ _ Happ_eq).
      destruct (applicable th (key, v)); simpl; lia.
    + intros k x [[= <- ->] | Hin] Happ.
      * rewrite Hkept.
        -- now apply Hset.
        -- intros v' Hin'. exfalso. apply Hnotin.
           apply List.in_map_iff. now exists (key, v').
      * apply Happlied; [exact Hin | now rewrite Happ_eq].
    + intros k Hnone.
      rewrite Hkept by (intros v' Hin'; rewrite Happ_eq; apply Hnone; now right).
      destruct (decide (k = key)) as [-> | Hne].
      * rewrite Hsame; [reflexivity | apply Hnone; now left].
      * now apply Hother.
Qed.

(** C9.  The membership test [changeThresholds[key] !== undefined] also
    accepts the names a plain object inherits: the body [{toString: 5}]
    names no threshold field, yet it is applied (a threshold called
    [toString] is created) and counted. *)
Theorem setThresholds_inherited_key :
  exists th,
    setThresholds (BodyObject [("toString", JNum 5)]) initialSensorState
    = (mkSensorState noData th, ThresholdsUpdated 1 th)
    /\ initialThresholds !! "toString" = None
    /\ th !! "toString" = Some 5%float.
Proof. eexists. split; [reflexivity |]. split; reflexivity. Qed.

(** ** Resubmission under a zero threshold *)

Lemma singleFieldRequest_field (f g : field) (v : jsval) :
  requestField (singleFieldRequest f v) g = if decide (g = f) then v else JUndefined.
Proof. destruct g; reflexivity. Qed.

Lemma singleFieldRequest_valid (f : field) (v : jsval) :
  fieldRejected f v = false -> validateSensorData (singleFieldRequest f v) = [].
Proof.
  intros H. apply validateSensorData_nil. intros g.
  rewrite singleFieldRequest_field. case_decide as Hg.
  - now subst g.
  - destruct g; reflexivity.
Qed.

Lemma singleFieldRequest_received (f : field) (v : jsval) :
  is_undefined v = false -> receivedData (singleFieldRequest f v) = [(f, v)].
Proof.
  intros Hv. unfold receivedData, fields. cbn [map].
  rewrite !singleFieldRequest_field.
  destruct f; simpl; rewrite Hv; reflexivity.
Qed.

(** A number that passes the validation of its field is finite. *)
Lemma accepted_number_finite (f : field) (v : float) :
  fieldRejected f (JNum v) = false -> is_finite v = true.
Proof.
  unfold fieldRejected, isValidCoordinate, isValidMovement, isValidNumber.
  destruct (is_finite v); [reflexivity |].
  rewrite ?andb_false_r.
  destruct f; cbn [is_undefined negb andb orb existsb strict_eq validMovements];
    discriminate.
Qed.

(** C10.  When the threshold of a field is zero, submitting again the very
    number that is stored (a value its validation accepts) is a
    significant change: the reading is recorded again, reported as
    changed, and its timestamp becomes the instant of the resubmission. *)
Theorem zero_threshold_resubmission (clock : field -> Z) (st : SensorState)
    (f : field) (t v : float) (ts : Z)
    (Hth : changeThresholds st !! field_name f = Some t)
    (Hzero : (t =? 0)%float = true)
    (Hstored : latestData st f = Some (mkReading (JNum v) ts))
    (Hvalid : fieldRejected f (JNum v) = false) :
  hasDataChanged (changeThresholds st) (field_name f) (JNum v) (JNum v) = true
  /\ postData clock (singleFieldRequest f (JNum v)) st
     = (mkSensorState
          (setReading (latestData st) f (mkReading (JNum v) (clock f)))
          (changeThresholds st),
        DataProcessed [(f, mkReading (JNum v) (clock f))])
  /\ latestData (fst (postData clock (singleFieldRequest f (JNum v)) st)) f
     = Some (mkReading (JNum v) (clock f)).
Proof.
  assert (Hsig : hasDataChanged (changeThresholds st) (field_name f)
                                (JNum v) (JNum v) = true).
  { unfold hasDataChanged; simpl. rewrite Hth.
    apply float_zero_leb_abs_sub_diag; [exact Hzero |].
    exact (accepted_number_finite f v Hvalid). }
  assert (Hpost : postData clock (singleFieldRequest f (JNum v)) st
     = (mkSensorState
          (setReading (latestData st) f (mkReading (JNum v) (clock f)))
          (changeThresholds st),
        DataProcessed [(f, mkReading (JNum v) (clock f))])).
  { unfold postData.
    rewrite singleFieldRequest_valid by exact Hvalid.
    rewrite singleFieldRequest_received by reflexivity.
    cbn [length Nat.eqb negb].
    unfold updateChangedFields. cbn [fold_left fst snd].
    unfold updateField. cbn [is_nullish negb].
    unfold oldValueOf. rewrite Hstored. cbn [value].
    rewrite Hsig. reflexivity. }
  split; [exact Hsig |]. split; [exact Hpost |].
  rewrite Hpost. cbn [fst latestData]. unfold setReading.
  now rewrite decide_True by reflexivity.
Qed.

Lemma zero_threshold_resubmission_witness :
  latestData
    (fst (postData (fun _ => 2000)
            (singleFieldRequest heartrate (JNum 72))
            (mkSensorState
               (setReading noData heartrate (mkReading (JNum 72) 1000))
               (<["heartrate" := 0%float]> initialThresholds))))
    heartrate
  = Some (mkReading (JNum 72) 2000).
Proof.
  apply (zero_threshold_resubmission (fun _ => 2000)
           (mkSensorState
              (setReading noData heartrate (mkReading (JNum 72) 1000))
              (<["heartrate" := 0%float]> initialThresholds))
           heartrate 0%float 72%float 1000);
    reflexivity.
Defined.

(** ** Single requests on the command side *)

(** C4.  A long poll that finds a command queued is answered at once with
    the oldest one (the head of the queue, commands being pushed at its
    end), which is removed from the queue; with an empty queue and the
    immediate flag it is answered at once with the current command state
    and the queue stays as it is.  Neither registers a listener. *)
Theorem getDeviceCommand_immediate (st : ServerState)
    (timeoutArg : option ParsedInt) (immediate : bool) (now : Z) :
  (forall oldest rest,
      pendingCommands st = oldest :: rest ->
      let st' := getDeviceCommand timeoutArg immediate now st in
      sent st' = sent st ++
                 [(nextRes st,
                   CommandDelta (commands oldest) (id oldest)
                                (createdAt oldest) Immediate)]
      /\ pendingCommands st' = rest
      /\ commandListeners st' = commandListeners st
      /\ deviceCommands st' = deviceCommands st)
  /\ (pendingCommands st = [] ->
      let st' := getDeviceCommand timeoutArg true now st in
      sent st' = sent st ++
                 [(nextRes st,
                   CommandSnapshot (deviceCommands st) now Immediate)]
      /\ pendingCommands st' = []
      /\ commandListeners st' = commandListeners st
      /\ deviceCommands st' = deviceCommands st).
Proof.
  split.
  - intros oldest rest Hq. unfold getDeviceCommand; simpl.
    rewrite Hq. simpl. rewrite orb_true_r. auto.
  - intros Hq. unfold getDeviceCommand; simpl. rewrite Hq. simpl. auto.
Qed.

Lemma getDeviceCommand_immediate_witness :
  sent (getDeviceCommand None false 9
          (setPendingCommands
             [mkPendingCommand "a" (mkCommandUpdate (Some true) None) 5;
              mkPendingCommand "b" (mkCommandUpdate None (Some true)) 6]
             initialState))
  = [(0%nat, CommandDelta (mkCommandUpdate (Some true) None) "a" 5 Immediate)]
  /\ pendingCommands
       (getDeviceCommand None false 9
          (setPendingCommands
             [mkPendingCommand "a" (mkCommandUpdate (Some true) None) 5;
              mkPendingCommand "b" (mkCommandUpdate None (Some true)) 6]
             initialState))
     = [mkPendingCommand "b" (mkCommandUpdate None (Some true)) 6].
Proof.
  pose proof (proj1 (getDeviceCommand_immediate
                  (setPendingCommands
                     [mkPendingCommand "a" (mkCommandUpdate (Some true) None) 5;
                      mkPendingCommand "b" (mkCommandUpdate None (Some true)) 6]
                     initialState)
                  None false 9) _ _ eq_refl) as (Hsent & Hq & _).
  split; [exact Hsent | exact Hq].
Defined.

(** C7.  With neither field provided SetCommand answers with the
    empty-request error.  When every provided field is a boolean equal to
    the stored one, it answers [updated = false] with the unchanged command
    state; nothing is enqueued and no listener is written to.  In both
    cases the command state, the queue and the registry are unchanged, and
    the only response written is the one of the request itself. *)
Theorem setCommand_no_change (st : ServerState) (newId : string) (now : Z) :
  (let st' := setCommand JUndefined JUndefined newId now st in
   sent st' = sent st ++ [(nextRes st, BadRequest msgEmptyRequest)]
   /\ deviceCommands st' = deviceCommands st
   /\ pendingCommands st' = pendingCommands st
   /\ commandListeners st' = commandListeners st)
  /\ (forall buzzerArg ledArg,
      sameOrAbsent (buzzer (deviceCommands st)) buzzerArg = true ->
      sameOrAbsent (led (deviceCommands st)) ledArg = true ->
      is_undefined buzzerArg && is_undefined ledArg = false ->
      let st' := setCommand buzzerArg ledArg newId now st in
      sent st' = sent st ++
                 [(nextRes st, CommandsUpdated (deviceCommands st) false)]
      /\ deviceCommands st' = deviceCommands st
      /\ pendingCommands st' = pendingCommands st
      /\ commandListeners st' = commandListeners st).
Proof.
  split.
  - unfold setCommand; simpl. auto.
  - intros buzzerArg ledArg Hb Hl Hsome.
    destruct st as [[bz ld] q ls log ts n]. cbn [deviceCommands buzzer led] in *.
    destruct buzzerArg as [| | b | | |]; try discriminate Hb;
      destruct ledArg as [| | l | | |]; try discriminate Hl;
      try discriminate Hsome; simpl in Hb, Hl;
      try (apply Bool.eqb_prop in Hb; subst b);
      try (apply Bool.eqb_prop in Hl; subst l);
      unfold setCommand; simpl; repeat (rewrite Bool.eqb_reflx; simpl); auto.
Qed.

Lemma setCommand_no_change_witness :
  sent (setCommand (JBool true) JUndefined "x" 7
          (setDeviceCommands (mkDeviceCommands true false) initialState))
  = [(0%nat, CommandsUpdated (mkDeviceCommands true false) false)]
  /\ pendingCommands
       (setCommand (JBool true) JUndefined "x" 7
          (setDeviceCommands (mkDeviceCommands true false) initialState))
     = [].
Proof.
  pose proof (proj2 (setCommand_no_change
                  (setDeviceCommands (mkDeviceCommands true false) initialState)
                  "x" 7) (JBool true) JUndefined eq_refl eq_refl eq_refl)
    as (Hsent & _ & Hq & _).
  split; [exact Hsent | exact Hq].
Defined.

(** C6.  [SetCommand({buzzer: true, led: "on"})] on the initial state: the
    request is refused because the LED value is not boolean, yet the
    buzzer, checked and stored first, stays switched on; no command is
    queued for it. *)
Theorem setCommand_partial_application :
  let st' := setCommand (JBool true) (JStr "on") "x" 7 initialState in
  sent st' = [(0%nat, BadRequest msgLedType)]
  /\ deviceCommands initialState = mkDeviceCommands false false
  /\ deviceCommands st' = mkDeviceCommands true false
  /\ pendingCommands st' = [].
Proof. repeat split. Qed.

(** The first rejected field is the buzzer, or the LED with no change to the
    buzzer: then nothing is applied. *)
Lemma setCommand_rejected_before_change (st : ServerState)
    (buzzerArg ledArg : jsval) (newId : string) (now : Z) :
  (buzzerArg <> JUndefined /\ is_boolean buzzerArg = false)
  \/ (sameOrAbsent (buzzer (deviceCommands st)) buzzerArg = true
      /\ ledArg <> JUndefined /\ is_boolean ledArg = false) ->
  let st' := setCommand buzzerArg ledArg newId now st in
  deviceCommands st' = deviceCommands st
  /\ pendingCommands st' = pendingCommands st
  /\ commandListeners st' = commandListeners st
  /\ exists message, sent st' = sent st ++ [(nextRes st, BadRequest message)].
Proof.
  destruct st as [[bz ld] q ls log ts n]. cbn [deviceCommands buzzer led].
  intros [[Hb Hbt] | (Hb & Hl & Hlt)].
  - destruct buzzerArg; try congruence; try discriminate Hbt;
      unfold setCommand; simpl; eauto 7.
  - destruct ledArg; try congruence; try discriminate Hlt;
      destruct buzzerArg; try discriminate Hb; simpl in Hb;
      try (apply Bool.eqb_prop in Hb; subst b);
      unfold setCommand; simpl; repeat (rewrite Bool.eqb_reflx; simpl); eauto 7.
Qed.

(** ** Broadcast to the waiting listeners *)

Lemma headersSent_app (r : nat) (st : ServerState) (extra : list (nat * Response)) :
  headersSent r (setSent (sent st ++ extra) st)
  = headersSent r st || existsb (fun p => Nat.eqb (fst p) r) extra.
Proof. unfold headersSent; simpl. apply existsb_app. Qed.

Lemma setSent_setSent (log1 log2 : list (nat * Response)) (st : ServerState) :
  setSent log2 (setSent log1 st) = setSent log2 st.
Proof. reflexivity. Qed.

(** Writing to listeners that are all unanswered and pairwise distinct
    succeeds for each of them, in registry order. *)
Lemma notify_fold (body : Response) (ls : list Listener) (st : ServerState) :
  (forall l, In l ls -> headersSent (res l) st = false) ->
  NoDup (map res ls) ->
  fold_left (fun s listener =>
      match json (res listener) body s with
      | Some s' => s'
      | None => s
      end) ls st
  = setSent (sent st ++ map (fun l => (res l, body)) ls) st.
Proof.
  revert st. induction ls as [| a ls IH]; intros st Hun Hnd.
  - simpl. rewrite app_nil_r. now destruct st.
  - cbn [fold_left map]. unfold json at 2.
    rewrite (Hun a) by now left.
    rewrite map_cons in Hnd. apply NoDup_cons in Hnd as [Hnotin Hnd].
    rewrite IH.
    + rewrite setSent_setSent. cbn [sent setSent].
      now rewrite <- app_assoc.
    + intros l Hin. rewrite headersSent_app, (Hun l) by now right.
      cbn [existsb fst orb]. rewrite orb_false_r.
      apply Nat.eqb_neq. intros Heq. apply Hnotin.
      rewrite Heq. apply list_elem_of_In, List.in_map, Hin.
    + exact Hnd.
Qed.

Lemma notifyCommandListeners_all (command : PendingCommand) (st : ServerState) :
  (forall l, In l (commandListeners st) -> headersSent (res l) st = false) ->
  NoDup (map res (commandListeners st)) ->
  notifyCommandListeners command st
  = mkServerState (deviceCommands st) (pendingCommands st) []
      (sent st ++
       map (fun l => (res l,
                      CommandDelta (commands command) (id command)
                                   (createdAt command) NoMarker))
           (commandListeners st))
      (timers st) (nextRes st).
Proof.
  intros Hun Hnd. unfold notifyCommandListeners.
  rewrite notify_fold by assumption. reflexivity.
Qed.

(** The path SetCommand takes when every provided argument is a boolean
    and one of them changes a field: the command built holds exactly the
    changed fields, it is appended to the queue, and the listeners of the
    registry, when all of them are still unanswered, are answered with
    that very command, in registry order; the registry is empty
    afterwards. *)
Lemma setCommand_broadcast (st : ServerState) (buzzerArg ledArg : jsval)
    (newId : string) (now : Z)
    (Hb : commandArgOk buzzerArg = true)
    (Hl : commandArgOk ledArg = true)
    (Hchange : changedField (buzzer (deviceCommands st)) buzzerArg <> None
               \/ changedField (led (deviceCommands st)) ledArg <> None)
    (Hwaiting : forall l, In l (commandListeners st) ->
                          headersSent (res l) st = false)
    (Hdistinct : NoDup (map res (commandListeners st))) :
  let newCommand :=
    mkPendingCommand newId
      (mkCommandUpdate (changedField (buzzer (deviceCommands st)) buzzerArg)
                       (changedField (led (deviceCommands st)) ledArg))
      now in
  let st' := setCommand buzzerArg ledArg newId now st in
  pendingCommands st' = pendingCommands st ++ [newCommand]
  /\ sent st'
     = sent st
       ++ map (fun l => (res l,
                         CommandDelta (commands newCommand) newId now NoMarker))
              (commandListeners st)
       ++ [(nextRes st, CommandsUpdated (deviceCommands st') true)]
  /\ (forall l, In l (commandListeners st) ->
        In (res l, CommandDelta (commands newCommand) newId now NoMarker)
           (sent st'))
  /\ commandListeners st' = []
  /\ deviceCommands st'
     = mkDeviceCommands
         (default (buzzer (deviceCommands st)) (cu_buzzer (commands newCommand)))
         (default (led (deviceCommands st)) (cu_led (commands newCommand))).
Proof.
  intros newCommand st'.
  assert (Hmain :
    pendingCommands st' = pendingCommands st ++ [newCommand]
    /\ sent st'
       = sent st
         ++ map (fun l => (res l,
                           CommandDelta (commands newCommand) newId now NoMarker))
                (commandListeners st)
         ++ [(nextRes st, CommandsUpdated (deviceCommands st') true)]
    /\ commandListeners st' = []
    /\ deviceCommands st'
       = mkDeviceCommands
           (default (buzzer (deviceCommands st))
                    (cu_buzzer (commands newCommand)))
           (default (led (deviceCommands st))
                    (cu_led (commands newCommand)))).
  { subst st' newCommand.
    destruct st as [[bz ld] q ls log ts n].
    cbn [deviceCommands buzzer led commandListeners pendingCommands sent nextRes]
      in *.
    destruct buzzerArg as [| | b | | |]; try discriminate Hb;
      destruct ledArg as [| | l | | |]; try discriminate Hl;
      cbn [changedField] in *;
      try (destruct Hchange; congruence);
      try destruct (Bool.eqb bz b) eqn:Eb;
      try destruct (Bool.eqb ld l) eqn:El;
      try (destruct Hchange; congruence);
      unfold setCommand;
      cbn -[notifyCommandListeners];
      rewrite ?Eb, ?El; cbn -[notifyCommandListeners];
      rewrite ?Eb, ?El; cbn -[notifyCommandListeners];
      (rewrite notifyCommandListeners_all by assumption);
      cbn; rewrite <- ?app_assoc; auto. }
  destruct Hmain as (Hq & Hsent & Hls & Hdc).
  repeat split; try assumption.
  intros l Hin. rewrite Hsent. apply in_or_app. right. apply in_or_app. left.
  apply (List.in_map (fun l0 => (res l0, _)) _ _ Hin).
Qed.

Lemma setCommand_broadcast_two_listeners :
  sent (setCommand (JBool true) JUndefined "c1" 2
          (getDeviceCommand None false 1
             (getDeviceCommand None false 0 initialState)))
  = [(0%nat, CommandDelta (mkCommandUpdate (Some true) None) "c1" 2 NoMarker);
     (1%nat, CommandDelta (mkCommandUpdate (Some true) None) "c1" 2 NoMarker);
     (2%nat, CommandsUpdated (mkDeviceCommands true false) true)]
  /\ pendingCommands
       (setCommand (JBool true) JUndefined "c1" 2
          (getDeviceCommand None false 1
             (getDeviceCommand None false 0 initialState)))
     = [mkPendingCommand "c1" (mkCommandUpdate (Some true) None) 2]
  /\ commandListeners
       (setCommand (JBool true) JUndefined "c1" 2
          (getDeviceCommand None false 1
             (getDeviceCommand None false 0 initialState)))
     = [].
Proof.
  assert (Hwaiting : forall l,
    In l (commandListeners
            (getDeviceCommand None false 1
               (getDeviceCommand None false 0 initialState))) ->
    headersSent (res l)
      (getDeviceCommand None false 1
         (getDeviceCommand None false 0 initialState)) = false).
  { intros l [<- | [<- | []]]; reflexivity. }
  assert (Hdistinct : NoDup (map res
    (commandListeners
       (getDeviceCommand None false 1
          (getDeviceCommand None false 0 initialState))))).
  { apply (bool_decide_unpack _). vm_compute. exact I. }
  pose proof (setCommand_broadcast
                (getDeviceCommand None false 1
                   (getDeviceCommand None false 0 initialState))
                (JBool true) JUndefined "c1" 2 eq_refl eq_refl
                (or_introl (fun H : Some true = None =>
                              eq_ind (Some true)
                                (fun o => match o with
                                          | Some _ => True
                                          | None => False
                                          end) I None H))
                Hwaiting Hdistinct)
    as (Hq & Hsent & _ & Hls & _).
  split; [exact Hsent |]. split; [exact Hq | exact Hls].
Qed.

(** C3.  [SetCommand({buzzer: true, led: "on"})] while a long poll
    (request 0) waits: the buzzer differs from the stored value and is
    switched on, yet the request is refused for its LED value, no command
    is built or queued, and the waiting listener is written nothing and
    stays in the registry. *)
Theorem setCommand_change_without_command :
  let st := getDeviceCommand None false 0 initialState in
  let st' := setCommand (JBool true) (JStr "on") "x" 7 st in
  commandListeners st = [mkListener 0 0]
  /\ changedField (buzzer (deviceCommands st)) (JBool true) = Some true
  /\ deviceCommands st' = mkDeviceCommands true false
  /\ pendingCommands st' = []
  /\ sent st' = [(1%nat, BadRequest msgLedType)]
  /\ commandListeners st' = [mkListener 0 0]
  /\ headersSent 0 st' = false.
Proof. repeat split. Qed.

(** ** The invariant of the dispatcher *)

Lemma headersSent_false_iff (r : nat) (st : ServerState) :
  headersSent r st = false <-> ~ In r (map fst (sent st)).
Proof.
  unfold headersSent. split.
  - intros H Hin. apply List.in_map_iff in Hin as (p & <- & Hp).
    assert (existsb (fun q => Nat.eqb (fst q) (fst p)) (sent st) = true).
    { apply existsb_exists. exists p. split; [exact Hp | apply Nat.eqb_refl]. }
    congruence.
  - intros H. destruct (existsb _ (sent st)) eqn:E; [| reflexivity].
    exfalso. apply H. apply existsb_exists in E as (p & Hp & Heq).
    apply Nat.eqb_eq in Heq. subst r. now apply List.in_map.
Qed.

Lemma headersSent_fresh (st : ServerState) :
  (forall p, In p (sent st) -> (fst p < nextRes st)%nat) ->
  forall r, (nextRes st <= r)%nat -> headersSent r st = false.
Proof.
  intros Hknown r Hr. apply headersSent_false_iff. intros Hin.
  apply List.in_map_iff in Hin as (p & <- & Hp). apply Hknown in Hp. lia.
Qed.

Lemma NoDup_snoc_fresh (l : list nat) (x : nat) :
  NoDup l -> ~ In x l -> NoDup (l ++ [x]).
Proof.
  intros Hl Hx. apply NoDup_app. split; [exact Hl |]. split.
  - intros y Hy Hyx. apply list_elem_of_In in Hy.
    apply list_elem_of_singleton in Hyx. now subst y.
  - apply NoDup_singleton.
Qed.

Lemma NoDup_map_filter {A B : Type} (f : A -> B) (keep : A -> bool)
    (ls : list A) :
  NoDup (map f ls) -> NoDup (map f (List.filter keep ls)).
Proof.
  induction ls as [| a ls IH]; simpl; intros Hnd.
  - apply NoDup_nil_2.
  - apply NoDup_cons in Hnd as [Ha Hls].
    destruct (keep a); [| now apply IH].
    rewrite map_cons. apply NoDup_cons. split; [| now apply IH].
    intros Hin. apply Ha. apply list_elem_of_In in Hin.
    apply list_elem_of_In. apply List.in_map_iff in Hin as (l & <- & Hl).
    apply List.filter_In in Hl as [Hl _]. now apply List.in_map.
Qed.

(** A write to a listener whose response is already written throws and
    is caught: a broadcast over pairwise distinct listeners reaches
    exactly those still unanswered, in registry order. *)
Lemma notify_fold_unanswered (body : Response) (ls : list Listener)
    (st : ServerState) :
  NoDup (map res ls) ->
  fold_left (fun s listener =>
      match json (res listener) body s with
      | Some s' => s'
      | None => s
      end) ls st
  = setSent (sent st ++
             map (fun l => (res l, body))
                 (List.filter (fun l => negb (headersSent (res l) st)) ls))
            st.
Proof.
  revert st. induction ls as [| a ls IH]; intros st Hnd.
  - simpl. rewrite app_nil_r. now destruct st.
  - rewrite map_cons in Hnd. apply NoDup_cons in Hnd as [Hnotin Hnd].
    cbn [fold_left List.filter]. unfold json at 2.
    destruct (headersSent (res a) st) eqn:Ha; cbn [negb].
    + now apply IH.
    + rewrite IH by exact Hnd. rewrite setSent_setSent. cbn [sent setSent map].
      rewrite <- app_assoc. cbn [app].
      rewrite (List.filter_ext_in
                 (fun l => negb (headersSent (res l)
                                   (setSent (sent st ++ [(res a, body)]) st)))
                 (fun l => negb (headersSent (res l) st))); [reflexivity |].
      intros l Hl. rewrite headersSent_app. cbn [existsb fst].
      rewrite !orb_false_r.
      replace (Nat.eqb (res a) (res l)) with false; [now rewrite orb_false_r |].
      symmetry. apply Nat.eqb_neq. intros Heq. apply Hnotin.
      rewrite Heq. apply list_elem_of_In, List.in_map, Hl.
Qed.

Lemma notifyCommandListeners_unanswered (command : PendingCommand)
    (st : ServerState) :
  NoDup (map res (commandListeners st)) ->
  notifyCommandListeners command st
  = mkServerState (deviceCommands st) (pendingCommands st) []
      (sent st ++
       map (fun l => (res l,
                      CommandDelta (commands command) (id command)
                                   (createdAt command) NoMarker))
           (unanswered st))
      (timers st) (nextRes st).
Proof.
  intros Hnd. unfold notifyCommandListeners.
  rewrite notify_fold_unanswered by assumption. reflexivity.
Qed.

Lemma initialState_wellFormed : wellFormed initialState.
Proof.
  split; simpl; try (intros ? []); apply NoDup_nil_2.
Qed.

(** Answering the request being handled (numbered [nextRes] when it
    arrived) keeps the invariant, whatever the handler stored in the
    command state and the queue. *)
Lemma wellFormed_reply (st : ServerState) (dc : DeviceCommands)
    (q : list PendingCommand) (body : Response) :
  wellFormed st ->
  wellFormed (mkServerState dc q (commandListeners st)
                (sent st ++ [(nextRes st, body)]) (timers st)
                (S (nextRes st))).
Proof.
  intros [Hnd Hsent Hlk Hls Hld Htk].
  assert (Hfresh : ~ In (nextRes st) (map fst (sent st))).
  { apply headersSent_false_iff, headersSent_fresh; [exact Hsent | lia]. }
  split; cbn [sent nextRes commandListeners timers].
  - rewrite map_app. apply NoDup_snoc_fresh; assumption.
  - intros p Hp. apply in_app_or in Hp as [Hp | [<- | []]].
    + apply Hsent in Hp. lia.
    + simpl. lia.
  - intros l Hl. apply Hlk in Hl. lia.
  - intros l Hl. destruct (Hls l Hl) as [Hun | Herr].
    + left. apply headersSent_false_iff. cbn [sent]. rewrite map_app.
      intros Hin. apply in_app_or in Hin as [Hin | [Heq | []]].
      * apply headersSent_false_iff in Hun. contradiction.
      * simpl in Heq. apply Hlk in Hl. lia.
    + right. apply in_or_app. now left.
  - exact Hld.
  - intros t Ht. apply Htk in Ht. lia.
Qed.

(** Dropping every listener keeps the invariant. *)
Lemma wellFormed_no_listeners (st : ServerState) (dc : DeviceCommands)
    (q : list PendingCommand) :
  wellFormed st ->
  wellFormed (mkServerState dc q [] (sent st) (timers st) (nextRes st)).
Proof.
  intros [Hnd Hsent Hlk Hls Hld Htk].
  split; cbn [sent nextRes commandListeners timers]; try assumption;
    try (intros ? []).
  apply NoDup_nil_2.
Qed.

(** After a broadcast the unanswered listeners are answered and the
    registry is empty: the invariant holds again. *)
Lemma wellFormed_broadcast (st : ServerState) (dc : DeviceCommands)
    (q : list PendingCommand) (body : Response) :
  wellFormed st ->
  wellFormed (mkServerState dc q []
                (sent st ++ map (fun l => (res l, body)) (unanswered st))
                (timers st) (nextRes st)).
Proof.
  intros [Hnd Hsent Hlk Hls Hld Htk].
  split; cbn [sent nextRes commandListeners timers]; try assumption;
    try (intros ? []); try apply NoDup_nil_2.
  - rewrite map_app, List.map_map. cbn [fst].
    apply NoDup_app. split; [exact Hnd |].
    split; [| now apply NoDup_map_filter].
    intros r Hr Hr'. apply list_elem_of_In in Hr, Hr'.
    apply List.in_map_iff in Hr' as (l & <- & Hl).
    apply List.filter_In in Hl as [_ Hl]. apply negb_true_iff in Hl.
    apply headersSent_false_iff in Hl. contradiction.
  - intros p Hp. apply in_app_or in Hp as [Hp | Hp].
    + now apply Hsent.
    + apply List.in_map_iff in Hp as (l & <- & Hl). simpl.
      apply List.filter_In in Hl as [Hl _]. now apply Hlk.
Qed.

(** The two shapes of the state SetCommand leaves behind: only the
    request itself is answered, or the unanswered listeners are answered
    first and the registry is cleared. *)
Lemma setCommand_shape (st : ServerState) (buzzerArg ledArg : jsval)
    (newId : string) (now : Z) :
  NoDup (map res (commandListeners st)) ->
  (exists dc q body,
      setCommand buzzerArg ledArg newId now st
      = mkServerState dc q (commandListeners st)
          (sent st ++ [(nextRes st, body)]) (timers st) (S (nextRes st)))
  \/ (exists dc q upd body,
      setCommand buzzerArg ledArg newId now st
      = mkServerState dc q []
          ((sent st ++
            map (fun l => (res l, CommandDelta upd newId now NoMarker))
                (unanswered st))
           ++ [(nextRes st, body)])
          (timers st) (S (nextRes st))).
Proof.
  intros Hdistinct.
  destruct st as [[bz ld] q ls log ts n].
  cbn [commandListeners sent nextRes timers] in *.
  destruct buzzerArg as [| | b | | |], ledArg as [| | l | | |];
    try (left; do 3 eexists; reflexivity);
    try destruct (Bool.eqb bz b) eqn:Eb;
    try destruct (Bool.eqb ld l) eqn:El;
    unfold setCommand; cbn -[notifyCommandListeners];
    rewrite ?Eb, ?El; cbn -[notifyCommandListeners];
    rewrite ?Eb, ?El; cbn -[notifyCommandListeners];
    try (left; do 3 eexists; reflexivity);
    (rewrite notifyCommandListeners_unanswered by assumption);
    right; do 4 eexists; reflexivity.
Qed.

Lemma setCommand_wellFormed (st : ServerState) (buzzerArg ledArg : jsval)
    (newId : string) (now : Z) :
  wellFormed st -> wellFormed (setCommand buzzerArg ledArg newId now st).
Proof.
  intros Hwf.
  destruct (setCommand_shape st buzzerArg ledArg newId now
              (wf_listener_distinct st Hwf))
    as [(dc & q & body & ->) | (dc & q & upd & body & ->)].
  - now apply wellFormed_reply.
  - apply (wellFormed_reply
             (mkServerState dc q []
                (sent st ++
                 map (fun l => (res l, CommandDelta upd newId now NoMarker))
                     (unanswered st))
                (timers st) (nextRes st)) dc q body).
    now apply wellFormed_broadcast.
Qed.

(** Registering the request being handled as a listener keeps the
    invariant, whether its timeout is armed, switched off, or refused and
    the request answered 500. *)
Lemma wellFormed_register (st : ServerState) (dc : DeviceCommands)
    (q : list PendingCommand) (now : Z) (log : list (nat * Response))
    (ts : list (nat * Z)) :
  wellFormed st ->
  log = sent st
  \/ log = sent st ++ [(nextRes st, ServerError msgInternalError)] ->
  (forall t, In t ts -> In t (timers st) \/ fst t = nextRes st) ->
  wellFormed (mkServerState dc q
                (commandListeners st ++ [mkListener (nextRes st) now])
                log ts (S (nextRes st))).
Proof.
  intros [Hnd Hsent Hlk Hls Hld Htk] Hlog Hts.
  assert (Hfresh : ~ In (nextRes st) (map fst (sent st))).
  { apply headersSent_false_iff, headersSent_fresh; [exact Hsent | lia]. }
  split; cbn [sent nextRes commandListeners timers].
  - destruct Hlog as [-> | ->]; [exact Hnd |].
    rewrite map_app. now apply NoDup_snoc_fresh.
  - intros p Hp. destruct Hlog as [-> | ->].
    + apply Hsent in Hp. lia.
    + apply in_app_or in Hp as [Hp | [<- | []]].
      * apply Hsent in Hp. lia.
      * simpl. lia.
  - intros l Hl. apply in_app_or in Hl as [Hl | [<- | []]].
    + apply Hlk in Hl. lia.
    + simpl. lia.
  - intros l Hl. apply in_app_or in Hl as [Hl | [<- | []]].
    + destruct (Hls l Hl) as [Hun | Herr].
      * left. apply headersSent_false_iff. cbn [sent].
        apply headersSent_false_iff in Hun.
        destruct Hlog as [-> | ->]; [exact Hun |].
        rewrite map_app. intros Hin.
        apply in_app_or in Hin as [Hin | [Heq | []]]; [contradiction |].
        simpl in Heq. apply Hlk in Hl. lia.
      * right. destruct Hlog as [-> | ->]; [exact Herr |].
        apply in_or_app. now left.
    + cbn [res]. destruct Hlog as [-> | ->].
      * left. now apply headersSent_false_iff.
      * right. apply in_or_app. right. now left.
  - rewrite map_app. apply NoDup_snoc_fresh; [exact Hld |].
    intros Hin. apply List.in_map_iff in Hin as (l & Heq & Hl).
    simpl in Heq. apply Hlk in Hl. lia.
  - intros t Ht. destruct (Hts t Ht) as [Hold | ->]; [| lia].
    apply Htk in Hold. lia.
Qed.

(** The four ways a long poll ends its handler: answered on arrival, or
    parked with its timeout armed, switched off, or refused. *)
Lemma getDeviceCommand_parked (st : ServerState)
    (timeoutArg : option ParsedInt) (now : Z) :
  pendingCommands st = [] ->
  getDeviceCommand timeoutArg false now st
  = match requestedTimeout timeoutArg with
    | TimeoutArmed msecs =>
        mkServerState (deviceCommands st) []
          (commandListeners st ++ [mkListener (nextRes st) now]) (sent st)
          (timers st ++ [(nextRes st, msecs)]) (S (nextRes st))
    | TimeoutDisarmed =>
        mkServerState (deviceCommands st) []
          (commandListeners st ++ [mkListener (nextRes st) now]) (sent st)
          (timers st) (S (nextRes st))
    | TimeoutRejected =>
        mkServerState (deviceCommands st) []
          (commandListeners st ++ [mkListener (nextRes st) now])
          (sent st ++ [(nextRes st, ServerError msgInternalError)])
          (timers st) (S (nextRes st))
    end.
Proof.
  intros Hq. unfold getDeviceCommand, requestedTimeout.
  cbn [accept pendingCommands]. rewrite Hq. cbn [orb length Nat.eqb negb].
  now destruct (setTimeoutOutcome _).
Qed.

Lemma getDeviceCommand_answered (st : ServerState)
    (timeoutArg : option ParsedInt) (immediate : bool) (now : Z) :
  immediate = true \/ pendingCommands st <> [] ->
  exists body,
    getDeviceCommand timeoutArg immediate now st
    = mkServerState (deviceCommands st) (tail (pendingCommands st))
        (commandListeners st) (sent st ++ [(nextRes st, body)]) (timers st)
        (S (nextRes st))
    /\ body = match pendingCommands st with
              | latestCommand :: _ =>
                  CommandDelta (commands latestCommand) (id latestCommand)
                               (createdAt latestCommand) Immediate
              | [] => CommandSnapshot (deviceCommands st) now Immediate
              end.
Proof.
  intros H. unfold getDeviceCommand. cbn [accept pendingCommands].
  destruct (pendingCommands st) as [| c q] eqn:Hq.
  - destruct H as [-> | H]; [| congruence]. cbn. eauto.
  - cbn [length Nat.eqb negb]. rewrite orb_true_r. cbn. eauto.
Qed.

Lemma getDeviceCommand_cases (st : ServerState)
    (timeoutArg : option ParsedInt) (immediate : bool) (now : Z) :
  (immediate = true \/ pendingCommands st <> [])
  \/ (immediate = false /\ pendingCommands st = []).
Proof.
  destruct immediate; [now left; left |].
  destruct (pendingCommands st); [now right | left; right; discriminate].
Qed.

Lemma getDeviceCommand_wellFormed (st : ServerState)
    (timeoutArg : option ParsedInt) (immediate : bool) (now : Z) :
  wellFormed st -> wellFormed (getDeviceCommand timeoutArg immediate now st).
Proof.
  intros Hwf.
  destruct (getDeviceCommand_cases st timeoutArg immediate now)
    as [H | [-> Hq]].
  - destruct (getDeviceCommand_answered st timeoutArg immediate now H)
      as (body & -> & _).
    now apply wellFormed_reply.
  - rewrite (getDeviceCommand_parked st timeoutArg now Hq).
    destruct (requestedTimeout timeoutArg);
      apply wellFormed_register; auto.
    intros t Ht. apply in_app_or in Ht as [Ht | [<- | []]]; auto.
Qed.

Lemma pollDeviceCommand_wellFormed (st : ServerState) (now : Z) :
  wellFormed st -> wellFormed (pollDeviceCommand now st).
Proof.
  intros Hwf. unfold pollDeviceCommand. cbn [accept pendingCommands].
  destruct (pendingCommands st) as [| c q] eqn:Hq.
  - apply (wellFormed_reply st (deviceCommands st) [] _ Hwf).
  - apply (wellFormed_reply st (deviceCommands st) q _ Hwf).
Qed.

Lemma clearPendingCommands_wellFormed (st : ServerState) :
  wellFormed st -> wellFormed (clearPendingCommands st).
Proof.
  intros Hwf. unfold clearPendingCommands.
  apply (wellFormed_reply
           (mkServerState (deviceCommands st) [] [] (sent st) (timers st)
                          (nextRes st))
           (deviceCommands st) [] (Cleared (length (pendingCommands st)))).
  now apply wellFormed_no_listeners.
Qed.

Lemma timerArmed_registered (r : nat) (st : ServerState) :
  timerArmed r st = true <-> exists msecs, In (r, msecs) (timers st).
Proof.
  unfold timerArmed. split.
  - intros H. apply existsb_exists in H as ([r' d] & Hin & Hr).
    simpl in Hr. apply Nat.eqb_eq in Hr. subst r'. eauto.
  - intros [msecs Hin]. apply existsb_exists. exists (r, msecs).
    split; [exact Hin | apply Nat.eqb_refl].
Qed.

Lemma onTimeout_wellFormed (r : nat) (now : Z) (st : ServerState) :
  wellFormed st -> timerArmed r st = true -> wellFormed (onTimeout r now st).
Proof.
  intros [Hnd Hsent Hlk Hls Hld Htk] Harmed.
  apply timerArmed_registered in Harmed as (d & Hd).
  apply Htk in Hd. simpl in Hd.
  set (keep := fun l : Listener => negb (Nat.eqb (res l) r)).
  assert (Hfilter : forall l, In l (List.filter keep (commandListeners st)) ->
                              In l (commandListeners st) /\ res l <> r).
  { intros l Hl. apply List.filter_In in Hl as [Hl Hk]. split; [exact Hl |].
    unfold keep in Hk. apply negb_true_iff, Nat.eqb_neq in Hk. exact Hk. }
  assert (Hld' : NoDup (map res (List.filter keep (commandListeners st))))
    by (now apply NoDup_map_filter).
  unfold onTimeout. fold keep.
  change (headersSent r (setCommandListeners
            (List.filter keep (commandListeners st)) st))
    with (headersSent r st).
  destruct (headersSent r st) eqn:Hr; cbn [negb];
    split; cbn [reply setSent setCommandListeners sent nextRes
                commandListeners timers deviceCommands pendingCommands];
    try assumption.
  - intros l Hl. apply Hfilter in Hl as [Hl _]. now apply Hlk.
  - intros l Hl. apply Hfilter in Hl as [Hl _]. now apply Hls.
  - rewrite map_app. apply NoDup_snoc_fresh; [exact Hnd |].
    now apply headersSent_false_iff.
  - intros p Hp. apply in_app_or in Hp as [Hp | [<- | []]].
    + now apply Hsent.
    + exact Hd.
  - intros l Hl. apply Hfilter in Hl as [Hl _]. now apply Hlk.
  - intros l Hl. apply Hfilter in Hl as [Hl Hne].
    destruct (Hls l Hl) as [Hun | Herr].
    + left. apply headersSent_false_iff.
      cbn [reply setSent setCommandListeners sent]. rewrite map_app.
      intros Hin. apply in_app_or in Hin as [Hin | [Heq | []]].
      * apply headersSent_false_iff in Hun. contradiction.
      * simpl in Heq. congruence.
    + right. apply in_or_app. now left.
Qed.

Lemma step_wellFormed (e : Event) (st st' : ServerState) :
  wellFormed st -> step e st = Some st' -> wellFormed st'.
Proof.
  intros Hwf Hstep. destruct e as [b l newId now | t imm now | now | r now |];
    simpl in Hstep.
  - injection Hstep as <-. now apply setCommand_wellFormed.
  - injection Hstep as <-. now apply getDeviceCommand_wellFormed.
  - injection Hstep as <-. now apply pollDeviceCommand_wellFormed.
  - destruct (timerArmed r st) eqn:Harmed; [| discriminate].
    injection Hstep as <-. now apply onTimeout_wellFormed.
  - injection Hstep as <-. now apply clearPendingCommands_wellFormed.
Qed.

Lemma run_wellFormed (tr : list Event) (st st' : ServerState) :
  wellFormed st -> run tr st = Some st' -> wellFormed st'.
Proof.
  revert st. induction tr as [| e tr IH]; intros st Hwf Hrun; simpl in Hrun.
  - now injection Hrun as <-.
  - destruct (step e st) as [st1 |] eqn:Hstep; [| discriminate].
    apply (IH st1); [| exact Hrun]. now apply (step_wellFormed e st).
Qed.

(** Every state the server can reach satisfies the invariant. *)
Lemma reachable_wellFormed (st : ServerState) : reachable st -> wellFormed st.
Proof.
  intros [tr Hrun].
  exact (run_wellFormed tr initialState st initialState_wellFormed Hrun).
Qed.

(** ** Timeouts of waiting listeners *)

Lemma onTimeout_unanswered (r : nat) (now : Z) (st : ServerState) :
  headersSent r st = false ->
  sent (onTimeout r now st)
  = sent st ++ [(r, CommandSnapshot (deviceCommands st) now TimedOut)]
  /\ (forall l, In l (commandListeners (onTimeout r now st)) -> res l <> r)
  /\ deviceCommands (onTimeout r now st) = deviceCommands st
  /\ pendingCommands (onTimeout r now st) = pendingCommands st.
Proof.
  intros Hr. unfold onTimeout.
  change (headersSent r (setCommandListeners
            (List.filter (fun l => negb (Nat.eqb (res l) r))
                         (commandListeners st)) st))
    with (headersSent r st).
  rewrite Hr. cbn. repeat split.
  intros l Hl. apply List.filter_In in Hl as [_ Hk].
  now apply negb_true_iff, Nat.eqb_neq in Hk.
Qed.


(** ** Consumption of queued commands *)

(** C2 (as stated, refuted).  A long poll waits, SetCommand switches the
    buzzer on, then a plain poll arrives: the command [c1] is handed to the
    waiting listener (request 0) and, still queued, handed again to the
    poll (request 2). *)
Lemma broadcast_command_polled_again :
  exists st,
    run [LongPoll None false 0;
         SetCommand (JBool true) JUndefined "c1" 1;
         Poll 2] initialState = Some st
    /\ sent st
       = [(0%nat, CommandDelta (mkCommandUpdate (Some true) None) "c1" 1
                               NoMarker);
          (1%nat, CommandsUpdated (mkDeviceCommands true false) true);
          (2%nat, CommandDelta (mkCommandUpdate (Some true) None) "c1" 1
                               (NewCommands true))]
    /\ broadcastIds (sent st) = ["c1"]
    /\ dequeuedIds (sent st) = ["c1"].
Proof. eexists. split; [reflexivity |]. repeat split. Qed.

Lemma dequeuedIds_app (log1 log2 : list (nat * Response)) :
  dequeuedIds (log1 ++ log2) = dequeuedIds log1 ++ dequeuedIds log2.
Proof. unfold dequeuedIds. apply flat_map_app. Qed.

(** A broadcast dequeues nothing: the queue is untouched and the bodies
    it writes carry no dequeue marker. *)
Lemma notifyCommandListeners_consumable (command : PendingCommand)
    (st : ServerState) :
  dequeuedIds (sent (notifyCommandListeners command st)) = dequeuedIds (sent st)
  /\ pendingCommands (notifyCommandListeners command st) = pendingCommands st.
Proof.
  unfold notifyCommandListeners. cbn [setCommandListeners sent pendingCommands].
  generalize (commandListeners st) as ls. intros ls. revert st.
  induction ls as [| a ls IH]; intros st; cbn [fold_left]; [now split |].
  unfold json at 2 4. destruct (headersSent (res a) st).
  - apply IH.
  - destruct (IH (setSent
                    (sent st ++
                     [(res a, CommandDelta (commands command) (id command)
                                           (createdAt command) NoMarker)])
                    st)) as [Hd Hq].
    rewrite Hd, Hq. cbn [setSent sent pendingCommands].
    rewrite dequeuedIds_app. cbn. now rewrite app_nil_r.
Qed.

(** SetCommand dequeues nothing and appends at most one command, named
    [newId], to the queue. *)
Lemma setCommand_consumable (st : ServerState) (buzzerArg ledArg : jsval)
    (newId : string) (now : Z) :
  consumable (setCommand buzzerArg ledArg newId now st) = consumable st
  \/ consumable (setCommand buzzerArg ledArg newId now st)
     = consumable st ++ [newId].
Proof.
  unfold consumable.
  assert (Hupd : forall (dc dc' : DeviceCommands) (upd : CommandUpdate)
                        (r : nat) (u : bool) (ls : list Listener),
    let body := CommandsUpdated dc' u in
    let st1 := notifyCommandListeners
                 (mkPendingCommand newId upd now)
                 (mkServerState dc
                    (pendingCommands st ++ [mkPendingCommand newId upd now])
                    ls (sent st) (timers st) (S (nextRes st))) in
    dequeuedIds (sent (reply r body st1)) ++ map id (pendingCommands (reply r body st1))
    = (dequeuedIds (sent st) ++ map id (pendingCommands st)) ++ [newId]).
  { intros dc dc' upd r u ls body st1. cbn [reply setSent sent pendingCommands].
    subst st1 body. rewrite dequeuedIds_app.
    destruct (notifyCommandListeners_consumable
                (mkPendingCommand newId upd now)
                (mkServerState dc
                   (pendingCommands st ++ [mkPendingCommand newId upd now])
                   ls (sent st) (timers st) (S (nextRes st)))) as [-> ->].
    cbn [sent pendingCommands dequeuedIds flat_map snd].
    rewrite map_app, app_nil_r. cbn [map id]. now rewrite app_assoc. }
  destruct buzzerArg as [| | b | | |], ledArg as [| | l | | |];
    try (left; unfold setCommand; cbn; rewrite dequeuedIds_app; cbn;
         now rewrite app_nil_r);
    unfold setCommand; cbn -[notifyCommandListeners reply];
    try destruct (Bool.eqb (buzzer (deviceCommands st)) b);
    cbn -[notifyCommandListeners reply];
    try destruct (Bool.eqb (led (deviceCommands st)) l);
    cbn -[notifyCommandListeners reply];
    try (right; apply Hupd);
    left; cbn; rewrite dequeuedIds_app; cbn; now rewrite app_nil_r.
Qed.

Lemma step_consumable (e : Event) (st st' : ServerState) :
  step e st = Some st' ->
  consumable st' `sublist_of` consumable st ++ issuedIds [e].
Proof.
  intros Hstep.
  destruct e as [b l newId now | t imm now | now | r now |]; simpl in Hstep.
  - injection Hstep as <-. cbn [issuedIds flat_map]. rewrite app_nil_r.
    destruct (setCommand_consumable st b l newId now) as [-> | ->].
    + now apply sublist_inserts_r.
    + reflexivity.
  - injection Hstep as <-. cbn [issuedIds flat_map]. rewrite app_nil_r.
    unfold consumable.
    destruct (getDeviceCommand_cases st t imm now) as [H | [-> Hq]].
    + destruct (getDeviceCommand_answered st t imm now H) as (body & -> & ->).
      cbn [sent pendingCommands]. rewrite dequeuedIds_app.
      destruct (pendingCommands st) as [| c q]; cbn;
        rewrite <- ?app_assoc; reflexivity.
    + rewrite (getDeviceCommand_parked st t now Hq), Hq.
      destruct (requestedTimeout t); cbn [sent pendingCommands];
        rewrite ?dequeuedIds_app; cbn; rewrite ?app_nil_r; reflexivity.
  - injection Hstep as <-. cbn [issuedIds flat_map]. rewrite app_nil_r.
    unfold consumable, pollDeviceCommand. cbn [accept pendingCommands].
    destruct (pendingCommands st) as [| c q]; cbn;
      rewrite ?dequeuedIds_app; cbn; rewrite <- ?app_assoc; reflexivity.
  - destruct (timerArmed r st); [| discriminate]. injection Hstep as <-.
    cbn [issuedIds flat_map]. rewrite app_nil_r.
    unfold consumable, onTimeout.
    change (headersSent r (setCommandListeners
              (List.filter (fun l => negb (Nat.eqb (res l) r))
                           (commandListeners st)) st))
      with (headersSent r st).
    destruct (headersSent r st); cbn;
      rewrite ?dequeuedIds_app; cbn; rewrite ?app_nil_r; reflexivity.
  - injection Hstep as <-. cbn [issuedIds flat_map]. rewrite app_nil_r.
    unfold consumable, clearPendingCommands. cbn.
    rewrite dequeuedIds_app. cbn. rewrite !app_nil_r.
    now apply sublist_inserts_r.
Qed.

Lemma issuedIds_cons (e : Event) (tr : list Event) :
  issuedIds (e :: tr) = issuedIds [e] ++ issuedIds tr.
Proof. unfold issuedIds. cbn [flat_map]. now rewrite app_nil_r. Qed.

Lemma run_consumable (tr : list Event) (st st' : ServerState) :
  run tr st = Some st' ->
  consumable st' `sublist_of` consumable st ++ issuedIds tr.
Proof.
  revert st. induction tr as [| e tr IH]; intros st Hrun; simpl in Hrun.
  - injection Hrun as <-. cbn. now rewrite app_nil_r.
  - destruct (step e st) as [st1 |] eqn:Hstep; [| discriminate].
    rewrite issuedIds_cons, app_assoc.
    transitivity (consumable st1 ++ issuedIds tr).
    + now apply IH.
    + apply sublist_app; [| reflexivity]. now apply step_consumable.
Qed.

(** C2 (as amended).  Taking a command out of the queue consumes it: over
    any run whose SetCommand requests were given distinct identifiers, the
    commands handed to poll consumers (plain polls and long polls answered
    on arrival) followed by those still queued are, in this order, a
    subsequence of the identifiers issued.  So the poll consumers receive
    pairwise distinct commands, oldest first, and a command that was
    dequeued is no longer in the queue. *)
Theorem dequeued_at_most_once (tr : list Event) (st : ServerState)
    (Hrun : run tr initialState = Some st)
    (Hids : NoDup (issuedIds tr)) :
  (dequeuedIds (sent st) ++ map id (pendingCommands st))
    `sublist_of` issuedIds tr
  /\ NoDup (dequeuedIds (sent st))
  /\ (forall c, In c (pendingCommands st) ->
                ~ In (id c) (dequeuedIds (sent st))).
Proof.
  pose proof (run_consumable tr initialState st Hrun) as Hsub.
  change (consumable initialState) with (@nil string) in Hsub.
  rewrite app_nil_l in Hsub. unfold consumable in Hsub.
  assert (Hnd : NoDup (dequeuedIds (sent st) ++ map id (pendingCommands st)))
    by (eapply sublist_NoDup; eassumption).
  apply NoDup_app in Hnd as (Hdeq & Hdisj & _).
  split; [exact Hsub |]. split; [exact Hdeq |].
  intros c Hc Hin. apply (Hdisj (id c)).
  - now apply list_elem_of_In.
  - apply list_elem_of_In. now apply List.in_map.
Qed.

Lemma dequeued_at_most_once_witness :
  NoDup (dequeuedIds
           (sent (pollDeviceCommand 2
                    (setCommand (JBool true) JUndefined "c1" 1
                       (getDeviceCommand None false 0 initialState))))).
Proof.
  apply (dequeued_at_most_once
           [LongPoll None false 0;
            SetCommand (JBool true) JUndefined "c1" 1;
            Poll 2]
           (pollDeviceCommand 2
              (setCommand (JBool true) JUndefined "c1" 1
                 (getDeviceCommand None false 0 initialState)))
           eq_refl).
  apply NoDup_singleton.
Defined.

(** ** Submissions, field by field *)

Lemma flat_map_ext_In {A B : Type} (g h : A -> list B) (l : list A) :
  (forall a, In a l -> g a = h a) -> flat_map g l = flat_map h l.
Proof.
  induction l as [| a l IH]; intros H; [reflexivity |].
  cbn [flat_map]. rewrite (H a) by now left.
  rewrite IH; [reflexivity |]. intros b Hb. apply H. now right.
Qed.

Lemma oldValueOf_setReading_ne (d : LatestData) (k f : field)
    (r : SensorReading) :
  f <> k -> oldValueOf (setReading d k r) f = oldValueOf d f.
Proof.
  intros Hne. unfold oldValueOf, setReading. now rewrite decide_False.
Qed.

(** The loop of [updateChangedFields] over distinct keys decides every
    key against the table as it was before the loop. *)
Lemma fold_updateField_spec (th : Thresholds) (clock : field -> Z)
    (nd : list (field * jsval)) :
  NoDup (map fst nd) ->
  forall (d : LatestData) (ch : list (field * SensorReading)),
    let sig (k : field) (v : jsval) :=
      negb (is_nullish v)
      && hasDataChanged th (field_name k) v (oldValueOf d k) in
    let res :=
      fold_left (fun acc kv =>
                   updateField th (clock (fst kv)) (fst kv) (snd kv) acc)
                nd (d, ch) in
    (forall f,
        fst res f
        = match propertyOf f nd with
          | Some v => if sig f v then Some (mkReading v (clock f)) else d f
          | None => d f
          end)
    /\ snd res
       = ch ++ flat_map (fun kv =>
                 if sig (fst kv) (snd kv)
                 then [(fst kv, mkReading (snd kv) (clock (fst kv)))]
                 else []) nd.
Proof.
  induction nd as [| [k v] nd IH]; intros Hnd d ch sig res.
  - subst res. cbn. split; [reflexivity | now rewrite app_nil_r].
  - rewrite map_cons in Hnd. apply NoDup_cons in Hnd as [Hk Hnd].
    rewrite list_elem_of_In in Hk. cbn [fst] in Hk.
    subst res. cbn [fold_left fst snd].
    set (d1 := if sig k v then setReading d k (mkReading v (clock k)) else d).
    set (ch1 := if sig k v then ch ++ [(k, mkReading v (clock k))] else ch).
    assert (Hstep : updateField th (clock k) k v (d, ch) = (d1, ch1)).
    { unfold updateField, d1, ch1, sig.
      destruct (is_nullish v); cbn [negb andb]; [reflexivity |].
      now destruct (hasDataChanged th (field_name k) v (oldValueOf d k)). }
    rewrite Hstep.
    assert (Hold : forall f, f <> k -> oldValueOf d1 f = oldValueOf d f).
    { intros f Hne. unfold d1. destruct (sig k v); [| reflexivity].
      now apply oldValueOf_setReading_ne. }
    destruct (IH Hnd d1 ch1) as [Hd Hch]. split.
    + intros f. rewrite Hd. unfold propertyOf. cbn [List.find fst].
      destruct (decide (k = f)) as [-> | Hne].
      * rewrite bool_decide_eq_true_2 by reflexivity. cbn [fmap option_fmap option_map snd].
        assert (Hnone : List.find (fun kv => bool_decide (fst kv = f)) nd = None).
        { destruct (List.find _ nd) as [[k' v'] |] eqn:Hf; [| reflexivity].
          apply List.find_some in Hf as [Hin Heq].
          apply bool_decide_eq_true_1 in Heq. cbn in Heq. subst k'.
          exfalso. apply Hk. apply List.in_map_iff. now exists (f, v'). }
        rewrite Hnone. cbn. unfold d1. destruct (sig f v); [| reflexivity].
        unfold setReading. now rewrite decide_True.
      * rewrite bool_decide_eq_false_2 by exact Hne.
        assert (Hd1 : d1 f = d f).
        { unfold d1. destruct (sig k v); [| reflexivity].
          unfold setReading. rewrite decide_False; [reflexivity | congruence]. }
        rewrite Hd1, Hold by congruence. reflexivity.
    + rewrite Hch. cbn [flat_map fst snd]. unfold ch1.
      assert (Hext : forall kv, In kv nd ->
        (if negb (is_nullish (snd kv))
            && hasDataChanged th (field_name (fst kv)) (snd kv)
                              (oldValueOf d1 (fst kv))
         then [(fst kv, mkReading (snd kv) (clock (fst kv)))] else [])
        = (if sig (fst kv) (snd kv)
           then [(fst kv, mkReading (snd kv) (clock (fst kv)))] else [])).
      { intros kv Hin. unfold sig. rewrite Hold; [reflexivity |].
        intros Heq. apply Hk. rewrite <- Heq. now apply List.in_map. }
      rewrite (flat_map_ext_In _ _ _ Hext).
      destruct (sig k v); cbn [app]; [now rewrite <- app_assoc | reflexivity].
Qed.

Lemma NoDup_List_filter {A : Type} (P : A -> bool) (l : list A) :
  NoDup l -> NoDup (List.filter P l).
Proof.
  induction l as [| a l IH]; intros Hnd; cbn [List.filter]; [exact Hnd |].
  apply NoDup_cons in Hnd as [Ha Hl]. destruct (P a); [| now apply IH].
  apply NoDup_cons. split; [| now apply IH].
  rewrite list_elem_of_In in *. intros Hin. apply Ha.
  now apply List.filter_In in Hin as [Hin _].
Qed.

Lemma fields_NoDup : NoDup fields.
Proof.
  unfold fields.
  repeat (apply NoDup_cons; split;
          [rewrite list_elem_of_In; cbn; intuition discriminate |]).
  apply NoDup_nil_2.
Qed.

Lemma fields_complete (f : field) : In f fields.
Proof. destruct f; cbn; auto 6. Qed.

Lemma receivedData_fst (data : SensorRequest) :
  map fst (receivedData data)
  = List.filter (fun f => negb (is_undefined (requestField data f))) fields.
Proof.
  unfold receivedData. induction fields as [| k l IH]; [reflexivity |].
  cbn [map List.filter snd].
  destruct (is_undefined (requestField data k)); cbn [negb map fst];
    now rewrite IH.
Qed.

Lemma receivedData_NoDup (data : SensorRequest) :
  NoDup (map fst (receivedData data)).
Proof. rewrite receivedData_fst. apply NoDup_List_filter, fields_NoDup. Qed.

Lemma receivedData_propertyOf (data : SensorRequest) (f : field) :
  propertyOf f (receivedData data)
  = if is_undefined (requestField data f) then None
    else Some (requestField data f).
Proof.
  unfold receivedData.
  assert (Hgen : forall l,
    propertyOf f (List.filter (fun kv => negb (is_undefined (snd kv)))
                    (map (fun k => (k, requestField data k)) l))
    = if is_undefined (requestField data f) then None
      else if existsb (fun k => bool_decide (k = f)) l
           then Some (requestField data f) else None).
  { induction l as [| k l IH]; cbn [map List.filter snd existsb].
    - now destruct (is_undefined (requestField data f)).
    - destruct (decide (k = f)) as [-> | Hne].
      + rewrite bool_decide_eq_true_2 by reflexivity. cbn [orb].
        destruct (is_undefined (requestField data f)) eqn:Hu; cbn [negb].
        * exact IH.
        * unfold propertyOf. cbn [List.find fst].
          now rewrite bool_decide_eq_true_2 by reflexivity.
      + rewrite (bool_decide_eq_false_2 _ Hne). cbn [orb].
        destruct (is_undefined (requestField data k)); cbn [negb];
          [exact IH |].
        unfold propertyOf. cbn [List.find fst].
        rewrite (bool_decide_eq_false_2 _ Hne). exact IH. }
  rewrite Hgen.
  assert (Hin : existsb (fun k => bool_decide (k = f)) fields = true).
  { apply existsb_exists. exists f. split; [apply fields_complete |].
    now apply bool_decide_eq_true_2. }
  now rewrite Hin.
Qed.

Lemma receivedData_flat_map {B : Type} (data : SensorRequest)
    (h : field -> jsval -> list B) :
  (forall f v, is_undefined v = true -> h f v = []) ->
  flat_map (fun kv => h (fst kv) (snd kv)) (receivedData data)
  = flat_map (fun f => h f (requestField data f)) fields.
Proof.
  intros Hh. unfold receivedData.
  induction fields as [| k l IH]; [reflexivity |].
  cbn [map List.filter snd flat_map].
  destruct (is_undefined (requestField data k)) eqn:Hu; cbn [negb].
  - rewrite (Hh k _ Hu). exact IH.
  - cbn [flat_map fst snd]. now rewrite IH.
Qed.

Lemma receivedData_empty (data : SensorRequest) :
  Nat.eqb (length (receivedData data)) 0
  = forallb (fun f => is_undefined (requestField data f)) fields.
Proof.
  unfold receivedData, fields. cbn [map List.filter snd forallb requestField].
  destruct (is_undefined (r_temp data)), (is_undefined (r_heartrate data)),
    (is_undefined (r_movement data)), (is_undefined (r_lat data)),
    (is_undefined (r_lon data)); reflexivity.
Qed.

(** A submission that passes validation is applied field by field,
    each field on its own: a field is replaced by the submitted value,
    stamped with the clock, exactly when it is provided and significant
    against the value stored before the request; every other field keeps
    its reading; the thresholds are untouched; and the answer lists exactly
    the replaced fields, in field order. *)
Lemma postData_accepted (clock : field -> Z) (data : SensorRequest)
    (st : SensorState) (Hvalid : validateSensorData data = []) :
  let sig := significant (changeThresholds st) (latestData st) data in
  let changes :=
    flat_map (fun f => if sig f then [(f, submitted clock data f)] else [])
             fields in
  (forall f,
      latestData (fst (postData clock data st)) f
      = if sig f then Some (submitted clock data f) else latestData st f)
  /\ changeThresholds (fst (postData clock data st)) = changeThresholds st
  /\ snd (postData clock data st)
     = if forallb (fun f => is_undefined (requestField data f)) fields
       then NoValidData
       else match changes with
            | [] => NoSignificantChange
            | _ => DataProcessed changes
            end.
Proof.
  intros sig changes. unfold postData. rewrite Hvalid. cbn [length Nat.eqb negb].
  rewrite receivedData_empty.
  destruct (forallb (fun f => is_undefined (requestField data f)) fields)
    eqn:Hall.
  - cbn [fst snd]. repeat split. intros f.
    assert (Hu : is_undefined (requestField data f) = true).
    { rewrite forallb_forall in Hall. apply Hall, fields_complete. }
    unfold sig, significant.
    destruct (requestField data f); try discriminate Hu. reflexivity.
  - unfold updateChangedFields.
    destruct (fold_updateField_spec (changeThresholds st) clock
                (receivedData data) (receivedData_NoDup data)
                (latestData st) []) as [Hd Hch].
    destruct (fold_left _ (receivedData data) (latestData st, []))
      as [d' changed] eqn:Hfold.
    cbn [fst snd] in Hd, Hch.
    assert (Hchanges : changed = changes).
    { rewrite Hch. cbn [app].
      rewrite (receivedData_flat_map data
        (fun f v =>
           if negb (is_nullish v)
              && hasDataChanged (changeThresholds st) (field_name f) v
                                (oldValueOf (latestData st) f)
           then [(f, mkReading v (clock f))] else [])).
      - reflexivity.
      - intros f v Hu. destruct v; try discriminate Hu. reflexivity. }
    assert (Hfield : forall f,
      d' f = if sig f then Some (submitted clock data f) else latestData st f).
    { intros f. rewrite Hd, receivedData_propertyOf.
      unfold sig, significant, submitted.
      destruct (is_undefined (requestField data f)) eqn:Hu; [| reflexivity].
      destruct (requestField data f); try discriminate Hu. reflexivity. }
    rewrite Hchanges.
    destruct changes; cbn [fst snd latestData changeThresholds];
      repeat split; exact Hfield.
Qed.

(** X1.  A submission that passes validation is applied field by field,
    each field on its own: a field is replaced by the submitted value,
    stamped with the clock, exactly when it is provided and significant
    against the value stored before the request; every other field keeps
    its reading; the thresholds are untouched; and the answer lists exactly
    the replaced fields, in field order. *)
Theorem postData_fieldwise (clock : field -> Z) (data : SensorRequest)
    (st : SensorState) (Hvalid : validateSensorData data = []) :
  let sig := significant (changeThresholds st) (latestData st) data in
  let changes :=
    flat_map (fun f => if sig f then [(f, submitted clock data f)] else [])
             fields in
  (forall f,
      latestData (fst (postData clock data st)) f
      = if sig f then Some (submitted clock data f) else latestData st f)
  /\ changeThresholds (fst (postData clock data st)) = changeThresholds st
  /\ snd (postData clock data st)
     = if forallb (fun f => is_undefined (requestField data f)) fields
       then NoValidData
       else match changes with
            | [] => NoSignificantChange
            | _ => DataProcessed changes
            end.
Proof. exact (postData_accepted clock data st Hvalid). Qed.

Lemma postData_fieldwise_witness :
  latestData
    (fst (postData (fun _ => 5000)
            (mkSensorRequest (JNum 36.6) JUndefined (JStr "walking")
                             JUndefined JUndefined)
            initialSensorState)) movement
  = Some (mkReading (JStr "walking") 5000)
  /\ snd (postData (fun _ => 5000)
            (mkSensorRequest (JNum 36.6) JUndefined (JStr "walking")
                             JUndefined JUndefined)
            initialSensorState)
     = DataProcessed [(temp, mkReading (JNum 36.6) 5000);
                      (movement, mkReading (JStr "walking") 5000)].
Proof.
  pose proof (postData_fieldwise (fun _ => 5000)
                (mkSensorRequest (JNum 36.6) JUndefined (JStr "walking")
                                 JUndefined JUndefined)
                initialSensorState eq_refl) as (Hd & _ & Hresp).
  split; [exact (Hd movement) | exact Hresp].
Defined.

(** ** What validation lets into the store *)

Lemma float_not_neg_is_nonneg (x : float) :
  is_nan x = false -> (x <? 0)%float = false -> (0 <=? x)%float = true.
Proof.
  unfold is_nan. rewrite negb_false_iff.
  rewrite eqb_spec, ltb_spec, leb_spec.
  change (Prim2SF 0) with (S754_zero false).
  destruct (Prim2SF x) as [s | s | | s m e]; try destruct s;
    unfold SFeqb, SFltb, SFleb; simpl; try discriminate; auto.
Qed.

Lemma isValidNumber_inv (v : jsval) :
  isValidNumber v = true ->
  exists x, v = JNum x /\ is_nan x = false /\ is_finite x = true.
Proof.
  destruct v as [| | b | x | s | o]; try discriminate. cbn [isValidNumber].
  intros H. apply andb_prop in H as [Hn Hf].
  apply negb_true_iff in Hn. eauto.
Qed.

Lemma isValidMovement_inv (v : jsval) :
  isValidMovement v = true -> exists m, v = JStr m /\ In m validMovements.
Proof.
  unfold isValidMovement. intros H.
  apply existsb_exists in H as (m & Hin & Heq).
  destruct v as [| | b | x | s | o]; try discriminate Heq.
  cbn [strict_eq] in Heq. apply String.eqb_eq in Heq. subst s. eauto.
Qed.

(** A provided value that is not rejected is a value of the field's
    domain; in particular it is never [null]. *)
Lemma fieldRejected_false_inv (f : field) (v : jsval) :
  is_undefined v = false -> fieldRejected f v = false -> acceptedValue f v.
Proof.
  intros Hu. unfold fieldRejected. rewrite Hu. cbn [negb andb].
  destruct f; cbn [acceptedValue]; intros H.
  - apply negb_false_iff, isValidNumber_inv in H as (x & -> & _ & Hf). eauto.
  - apply orb_false_iff in H as [Hn Hlt].
    apply negb_false_iff, isValidNumber_inv in Hn as (x & -> & Hnan & Hf).
    cbn [js_lt_zero] in Hlt. exists x. repeat split; [exact Hf |].
    now apply float_not_neg_is_nonneg.
  - now apply negb_false_iff, isValidMovement_inv in H.
  - apply negb_false_iff in H. unfold isValidCoordinate in H.
    destruct v as [| | b | x | s | o]; try discriminate H.
    apply andb_prop in H as [Hn Hle].
    apply isValidNumber_inv in Hn as (x' & [= <-] & _ & Hf). eauto.
  - apply negb_false_iff in H. unfold isValidCoordinate in H.
    destruct v as [| | b | x | s | o]; try discriminate H.
    apply andb_prop in H as [Hn Hle].
    apply isValidNumber_inv in Hn as (x' & [= <-] & _ & Hf). eauto.
Qed.

Lemma acceptedValue_not_nullish (f : field) (v : jsval) :
  acceptedValue f v -> is_nullish v = false.
Proof.
  destruct f; cbn [acceptedValue]; intros H;
    repeat match goal with
           | H : exists _, _ |- _ => destruct H as [? H]
           | H : _ /\ _ |- _ => destruct H as [? ?]
           end; subst; reflexivity.
Qed.

Lemma valid_provided_not_nullish (data : SensorRequest) (f : field) :
  validateSensorData data = [] ->
  is_undefined (requestField data f) = false ->
  is_nullish (requestField data f) = false.
Proof.
  intros Hvalid Hu. apply (acceptedValue_not_nullish f).
  apply fieldRejected_false_inv; [exact Hu |].
  now apply validateSensorData_nil.
Qed.

Lemma changes_In (sig : field -> bool) (h : field -> SensorReading)
    (f : field) (r : SensorReading) :
  In (f, r) (flat_map (fun g => if sig g then [(g, h g)] else []) fields)
  <-> sig f = true /\ r = h f.
Proof.
  rewrite in_flat_map. split.
  - intros (g & _ & Hin). destruct (sig g) eqn:Hs; [| destruct Hin].
    destruct Hin as [[= -> ->] | []]. auto.
  - intros [Hs ->]. exists f. split; [apply fields_complete |].
    rewrite Hs. now left.
Qed.

(** X2.  The first observation of a field is always recorded: whatever
    the thresholds are, a valid submission that provides a field with no
    stored reading stores the submitted value, stamped with the clock, and
    reports it among the changes. *)
Theorem first_observation_recorded (clock : field -> Z) (data : SensorRequest)
    (st : SensorState) (f : field)
    (Hvalid : validateSensorData data = [])
    (Hprovided : is_undefined (requestField data f) = false)
    (Hnew : latestData st f = None) :
  latestData (fst (postData clock data st)) f = Some (submitted clock data f)
  /\ exists changes,
       snd (postData clock data st) = DataProcessed changes
       /\ In (f, submitted clock data f) changes.
Proof.
  destruct (postData_accepted clock data st Hvalid) as (Hd & _ & Hresp).
  assert (Hsig : significant (changeThresholds st) (latestData st) data f = true).
  { unfold significant.
    rewrite (valid_provided_not_nullish data f Hvalid Hprovided).
    unfold oldValueOf. rewrite Hnew. reflexivity. }
  split; [now rewrite Hd, Hsig |].
  assert (Hin : In (f, submitted clock data f)
    (flat_map (fun g =>
        if significant (changeThresholds st) (latestData st) data g
        then [(g, submitted clock data g)] else []) fields)).
  { apply changes_In. auto. }
  rewrite Hresp.
  assert (Hall : forallb (fun g => is_undefined (requestField data g)) fields
                 = false).
  { apply not_true_is_false. intros Hall. rewrite forallb_forall in Hall.
    specialize (Hall f (fields_complete f)). congruence. }
  rewrite Hall.
  destruct (flat_map _ fields) as [| c cs] eqn:Hch; [destruct Hin |].
  eexists. split; [reflexivity | exact Hin].
Qed.

Lemma first_observation_recorded_witness :
  latestData
    (fst (postData (fun _ => 42)
            (singleFieldRequest lat (JNum 12.5))
            (mkSensorState noData ∅))) lat
  = Some (mkReading (JNum 12.5) 42).
Proof.
  exact (proj1 (first_observation_recorded (fun _ => 42)
                  (singleFieldRequest lat (JNum 12.5))
                  (mkSensorState noData ∅) lat eq_refl eq_refl eq_refl)).
Defined.

Lemma snapshot_In (d : LatestData) (f : field) (r : SensorReading) :
  In (f, r) (snapshot d) <-> d f = Some r.
Proof.
  unfold snapshot. rewrite in_flat_map. split.
  - intros (g & _ & Hin). destruct (d g) as [r' |] eqn:Hd; [| destruct Hin].
    destruct Hin as [[= -> ->] | []]. exact Hd.
  - intros Hd. exists f. split; [apply fields_complete |].
    rewrite Hd. now left.
Qed.

(** X3.  Round trip of the movement state: after a valid submission that
    provides [movement = m], the store holds [m] for that field, whether
    the submission changed it or found it already there, and the full
    snapshot returns it. *)
Theorem movement_round_trip (clock : field -> Z) (data : SensorRequest)
    (st : SensorState) (m : string)
    (Hvalid : validateSensorData data = [])
    (Hm : r_movement data = JStr m) :
  exists r all,
    latestData (fst (postData clock data st)) movement = Some r
    /\ value r = JStr m
    /\ getData NoLastUpdate (fst (postData clock data st)) = Readings all true
    /\ In (movement, r) all.
Proof.
  destruct (postData_accepted clock data st Hvalid) as (Hd & _ & _).
  specialize (Hd movement).
  assert (Hstored : exists r,
    latestData (fst (postData clock data st)) movement = Some r
    /\ value r = JStr m).
  { destruct (significant (changeThresholds st) (latestData st) data movement)
      eqn:Hsig.
    - exists (submitted clock data movement). split; [exact Hd |].
      unfold submitted. cbn [value requestField]. exact Hm.
    - rewrite Hd. unfold significant in Hsig. cbn [requestField] in Hsig.
      rewrite Hm in Hsig. cbn [is_nullish negb andb] in Hsig.
      unfold hasDataChanged, oldValueOf in Hsig.
      destruct (latestData st movement) as [r |]; [| discriminate Hsig].
      exists r. split; [reflexivity |].
      destruct (value r) as [| | b | x | s | o]; try discriminate Hsig.
      cbn in Hsig. apply negb_false_iff, String.eqb_eq in Hsig.
      now subst s. }
  destruct Hstored as (r & Hr & Hv).
  exists r, (snapshot (latestData (fst (postData clock data st)))).
  repeat split; try assumption. now apply snapshot_In.
Qed.

Lemma movement_round_trip_witness :
  exists r all,
    latestData
      (fst (postData (fun _ => 7)
              (singleFieldRequest movement (JStr "walking"))
              initialSensorState)) movement = Some r
    /\ value r = JStr "walking"
    /\ getData NoLastUpdate
         (fst (postData (fun _ => 7)
                 (singleFieldRequest movement (JStr "walking"))
                 initialSensorState)) = Readings all true
    /\ In (movement, r) all.
Proof.
  exact (movement_round_trip (fun _ => 7)
           (singleFieldRequest movement (JStr "walking"))
           initialSensorState "walking" eq_refl eq_refl).
Defined.

(** X4.  The store never lags behind a submitted number by the threshold
    or more: after a valid submission of the number [n] for a field whose
    threshold is [t] and whose stored value, if any, is a number, the
    stored value is [n] itself or a number [o] with
    [abs (n - o) >= t] false. *)
Theorem stored_within_threshold (clock : field -> Z) (data : SensorRequest)
    (st : SensorState) (f : field) (n t : float)
    (Hvalid : validateSensorData data = [])
    (Hn : requestField data f = JNum n)
    (Ht : changeThresholds st !! field_name f = Some t)
    (Hnum : forall r, latestData st f = Some r -> exists o, value r = JNum o) :
  exists r,
    latestData (fst (postData clock data st)) f = Some r
    /\ (value r = JNum n
        \/ exists o, value r = JNum o /\ (t <=? abs (n - o))%float = false).
Proof.
  destruct (postData_accepted clock data st Hvalid) as (Hd & _ & _).
  specialize (Hd f).
  destruct (significant (changeThresholds st) (latestData st) data f) eqn:Hsig.
  - exists (submitted clock data f). split; [exact Hd |]. left.
    unfold submitted. cbn [value]. exact Hn.
  - rewrite Hd. unfold significant in Hsig. rewrite Hn in Hsig.
    cbn [is_nullish negb andb] in Hsig.
    unfold hasDataChanged, oldValueOf in Hsig.
    destruct (latestData st f) as [r |] eqn:Hr; [| discriminate Hsig].
    destruct (Hnum r eq_refl) as [o Ho]. rewrite Ho in Hsig.
    cbn [is_nullish] in Hsig. rewrite Ht in Hsig.
    exists r. split; [reflexivity |]. right. eauto.
Qed.

Lemma stored_within_threshold_witness :
  exists r,
    latestData
      (fst (postData (fun _ => 9)
              (singleFieldRequest temp (JNum 36.65))
              (mkSensorState (setReading noData temp (mkReading (JNum 36.6) 1))
                             initialThresholds))) temp = Some r
    /\ (value r = JNum 36.65
        \/ exists o, value r = JNum o
                     /\ (0.1 <=? abs (36.65 - o))%float = false).
Proof.
  apply (stored_within_threshold (fun _ => 9)
           (singleFieldRequest temp (JNum 36.65))
           (mkSensorState (setReading noData temp (mkReading (JNum 36.6) 1))
                          initialThresholds)
           temp 36.65%float 0.1%float eq_refl eq_refl eq_refl).
  intros r Hr. injection Hr as <-. exists 36.6%float. reflexivity.
Defined.

(** X5.  A submission with a rejected field is refused whole: the answer
    is the validation failure with a non-empty list of messages, and the
    state is exactly the one before the request, also for the fields of
    the request that were valid. *)
Theorem postData_all_or_nothing (clock : field -> Z) (data : SensorRequest)
    (st : SensorState) (f : field)
    (Hrej : fieldRejected f (requestField data f) = true) :
  postData clock data st = (st, ValidationFailed (validateSensorData data))
  /\ validateSensorData data <> [].
Proof. exact (postData_rejected_unchanged clock data st f Hrej). Qed.

Lemma postData_all_or_nothing_witness :
  postData (fun _ => 3)
    (mkSensorRequest (JNum 36.6) (JNum (-4)) JUndefined JUndefined JUndefined)
    initialSensorState
  = (initialSensorState, ValidationFailed [errHeartrate]).
Proof.
  exact (proj1 (postData_all_or_nothing (fun _ => 3)
                  (mkSensorRequest (JNum 36.6) (JNum (-4)) JUndefined
                                   JUndefined JUndefined)
                  initialSensorState heartrate eq_refl)).
Defined.

(** ** Invariants of the sensor side *)

Lemma initialThresholds_cover : thresholdsCover initialThresholds.
Proof. intros f. destruct f; eexists; reflexivity. Qed.

Lemma initialThresholds_finite : thresholdsFinite initialThresholds.
Proof.
  intros key t. unfold initialThresholds.
  repeat (rewrite lookup_insert; case_decide; [intros [= <-]; reflexivity |]).
  rewrite lookup_empty. discriminate.
Qed.

Lemma updateThreshold_keeps (acc : Thresholds * nat) (kv : string * jsval)
    (key : string) :
  is_Some (fst acc !! key) -> is_Some (fst (updateThreshold acc kv) !! key).
Proof.
  destruct acc as [th n], kv as [k v]. cbn [updateThreshold fst].
  intros Hk.
  destruct (thresholdDefined th k && isValidNumber v && js_ge_zero v);
    [| exact Hk].
  destruct v; try exact Hk. cbn [fst]. unfold assignThreshold.
  destruct (String.eqb k "__proto__"); [exact Hk |].
  rewrite lookup_insert. case_decide; [eauto | exact Hk].
Qed.

Lemma updateThreshold_finite (acc : Thresholds * nat) (kv : string * jsval) :
  thresholdsFinite (fst acc) -> thresholdsFinite (fst (updateThreshold acc kv)).
Proof.
  destruct acc as [th n], kv as [k v]. cbn [updateThreshold fst].
  intros Hth.
  destruct (thresholdDefined th k && isValidNumber v && js_ge_zero v) eqn:E;
    [| exact Hth].
  destruct v as [| | b | x | s | o]; try exact Hth. cbn [fst].
  apply andb_prop in E as [E _]. apply andb_prop in E as [_ Hv].
  apply isValidNumber_inv in Hv as (x' & [= <-] & _ & Hf).
  unfold assignThreshold. destruct (String.eqb k "__proto__"); [exact Hth |].
  intros key t. rewrite lookup_insert. case_decide.
  - intros [= <-]. exact Hf.
  - apply Hth.
Qed.

Lemma fold_updateThreshold_keeps (entries : list (string * jsval))
    (acc : Thresholds * nat) :
  (thresholdsCover (fst acc) ->
   thresholdsCover (fst (fold_left updateThreshold entries acc)))
  /\ (thresholdsFinite (fst acc) ->
      thresholdsFinite (fst (fold_left updateThreshold entries acc))).
Proof.
  revert acc. induction entries as [| kv entries IH]; intros acc;
    cbn [fold_left]; [auto |].
  destruct (IH (updateThreshold acc kv)) as [IHc IHf]. split; intros H.
  - apply IHc. intros f. apply updateThreshold_keeps, H.
  - apply IHf, updateThreshold_finite, H.
Qed.

Lemma setThresholds_state (newThresholds : ThresholdsBody) (st : SensorState) :
  latestData (fst (setThresholds newThresholds st)) = latestData st
  /\ (thresholdsCover (changeThresholds st) ->
      thresholdsCover (changeThresholds (fst (setThresholds newThresholds st))))
  /\ (thresholdsNonNegative (changeThresholds st) ->
      thresholdsNonNegative
        (changeThresholds (fst (setThresholds newThresholds st))))
  /\ (thresholdsFinite (changeThresholds st) ->
      thresholdsFinite (changeThresholds (fst (setThresholds newThresholds st)))).
Proof.
  destruct newThresholds as [| entries]; cbn [setThresholds fst]; [auto |].
  pose proof (fold_updateThreshold_keeps entries (changeThresholds st, 0%nat))
    as [Hc Hf].
  pose proof (fold_updateThreshold_nonneg entries (changeThresholds st, 0%nat))
    as Hn.
  destruct (fold_left updateThreshold entries (changeThresholds st, 0%nat))
    as [th n]. cbn [fst latestData changeThresholds] in *. auto.
Qed.

Lemma postData_state (clock : field -> Z) (data : SensorRequest)
    (st : SensorState) :
  changeThresholds (fst (postData clock data st)) = changeThresholds st
  /\ (storeValid (latestData st) ->
      storeValid (latestData (fst (postData clock data st))))
  /\ (forall f r, latestData st f = Some r ->
        exists r', latestData (fst (postData clock data st)) f = Some r'
                   /\ (r' = r \/ timestamp r' = clock f)).
Proof.
  destruct (validateSensorData data) as [| e es] eqn:Hvalid.
  - destruct (postData_accepted clock data st Hvalid) as (Hd & Hth & _).
    split; [exact Hth |]. split.
    + intros Hst f r. rewrite Hd.
      destruct (significant (changeThresholds st) (latestData st) data f)
        eqn:Hsig; [| apply Hst].
      intros [= <-]. unfold submitted. cbn [value].
      unfold significant in Hsig. apply andb_prop in Hsig as [Hnn _].
      assert (Hu : is_undefined (requestField data f) = false).
      { destruct (requestField data f); try discriminate Hnn; reflexivity. }
      split; [exact Hu |]. now apply validateSensorData_nil.
    + intros f r Hr. rewrite Hd.
      destruct (significant (changeThresholds st) (latestData st) data f).
      * exists (submitted clock data f). split; [reflexivity |]. now right.
      * exists r. split; [exact Hr |]. now left.
  - unfold postData. rewrite Hvalid. cbn [length Nat.eqb negb fst].
    split; [reflexivity |]. split; [auto |]. intros f r Hr. eauto.
Qed.

(** X6.  In every state the sensor side can reach, each of the five
    sensor fields has a threshold, and every threshold is a finite number
    that is [>= 0]: the change detector always compares against a proper
    tolerance. *)
Theorem thresholds_always_proper (tr : list SensorEvent) :
  thresholdsCover (changeThresholds (sensorRun tr initialSensorState))
  /\ thresholdsNonNegative (changeThresholds (sensorRun tr initialSensorState))
  /\ thresholdsFinite (changeThresholds (sensorRun tr initialSensorState)).
Proof.
  unfold sensorRun.
  assert (Hgen : forall st,
    thresholdsCover (changeThresholds st)
    /\ thresholdsNonNegative (changeThresholds st)
    /\ thresholdsFinite (changeThresholds st) ->
    thresholdsCover
      (changeThresholds (fold_left (fun s e => sensorStep e s) tr st))
    /\ thresholdsNonNegative
         (changeThresholds (fold_left (fun s e => sensorStep e s) tr st))
    /\ thresholdsFinite
         (changeThresholds (fold_left (fun s e => sensorStep e s) tr st))).
  { induction tr as [| e tr IH]; intros st H; cbn [fold_left]; [exact H |].
    apply IH. destruct H as (Hc & Hn & Hf).
    destruct e as [clock data | newThresholds]; cbn [sensorStep].
    - destruct (postData_state clock data st) as (-> & _). auto.
    - destruct (setThresholds_state newThresholds st) as (_ & Hc' & Hn' & Hf').
      auto. }
  apply Hgen. split; [apply initialThresholds_cover |].
  split; [apply initialThresholds_nonneg | apply initialThresholds_finite].
Qed.

(** X7.  In every state the sensor side can reach, a stored value belongs
    to the domain of its field: the temperature is a finite number, the
    heart rate a finite number [>= 0], the movement one of the three
    states, latitude and longitude finite numbers of absolute value
    [<= 180].  No stored value is [null] or [undefined]. *)
Theorem stored_values_valid (tr : list SensorEvent) (f : field)
    (r : SensorReading) :
  latestData (sensorRun tr initialSensorState) f = Some r ->
  acceptedValue f (value r).
Proof.
  assert (Hgen : forall st,
    storeValid (latestData st) -> storeValid (latestData (sensorRun tr st))).
  { unfold sensorRun. induction tr as [| e tr IH]; intros st H;
      cbn [fold_left]; [exact H |].
    apply IH. destruct e as [clock data | newThresholds]; cbn [sensorStep].
    - now apply postData_state.
    - destruct (setThresholds_state newThresholds st) as (-> & _). exact H. }
  intros Hr.
  assert (Hinit : storeValid (latestData initialSensorState))
    by (intros g r' Hg; discriminate Hg).
  destruct (Hgen initialSensorState Hinit f r Hr) as [Hu Hrej].
  now apply fieldRejected_false_inv.
Qed.

Lemma stored_values_valid_witness :
  acceptedValue heartrate (JNum 72).
Proof.
  exact (stored_values_valid
           [SubmitReading (fun _ => 1) (singleFieldRequest heartrate (JNum 72))]
           heartrate (mkReading (JNum 72) 1) eq_refl).
Defined.

(** X8.  Nothing the sensor side does removes a reading: a field that has
    a reading has one in every later state.  One event either keeps the
    reading of a field or, for a submission, replaces it by one stamped
    with the clock reading of that submission. *)
Theorem readings_never_removed (tr : list SensorEvent) (st : SensorState)
    (f : field) (r : SensorReading) (Hr : latestData st f = Some r) :
  (exists r', latestData (sensorRun tr st) f = Some r')
  /\ (forall e, exists r',
        latestData (sensorStep e st) f = Some r'
        /\ (r' = r
            \/ exists clock data,
                 e = SubmitReading clock data /\ timestamp r' = clock f)).
Proof.
  assert (Hstep : forall e s q, latestData s f = Some q ->
    exists q', latestData (sensorStep e s) f = Some q'
      /\ (q' = q
          \/ exists clock data,
               e = SubmitReading clock data /\ timestamp q' = clock f)).
  { intros e s q Hq. destruct e as [clock data | newThresholds];
      cbn [sensorStep].
    - destruct (postData_state clock data s) as (_ & _ & Hkeep).
      destruct (Hkeep f q Hq) as (q' & Hq' & [-> | Hts]); eauto 7.
    - destruct (setThresholds_state newThresholds s) as (-> & _). eauto. }
  split; [| intros e; now apply Hstep].
  revert st r Hr. unfold sensorRun.
  induction tr as [| e tr IH]; intros st r Hr; cbn [fold_left]; [eauto |].
  destruct (Hstep e st r Hr) as (r' & Hr' & _). now apply (IH _ r').
Qed.

Lemma readings_never_removed_witness :
  exists r',
    latestData
      (sensorRun [SetThresholds (BodyObject [("temp", JNum 2)]);
                  SubmitReading (fun _ => 8) (singleFieldRequest temp (JNum 37))]
                 (mkSensorState
                    (setReading noData temp (mkReading (JNum 36.6) 1))
                    initialThresholds)) temp = Some r'.
Proof.
  exact (proj1 (readings_never_removed
                  [SetThresholds (BodyObject [("temp", JNum 2)]);
                   SubmitReading (fun _ => 8)
                                 (singleFieldRequest temp (JNum 37))]
                  (mkSensorState
                     (setReading noData temp (mkReading (JNum 36.6) 1))
                     initialThresholds)
                  temp (mkReading (JNum 36.6) 1) eq_refl)).
Defined.

(** ** Queries *)

Lemma flat_map_sublist {A B : Type} (g h : A -> list B) (l : list A) :
  (forall a, g a `sublist_of` h a) -> flat_map g l `sublist_of` flat_map h l.
Proof.
  intros H. induction l as [| a l IH]; cbn [flat_map]; [reflexivity |].
  now apply sublist_app.
Qed.

(** X9.  A delta is a part of the snapshot, in the same field order; a
    later instant gives a smaller delta; and the delta since an instant
    that precedes every stored timestamp is the whole snapshot. *)
Theorem delta_within_snapshot (st : SensorState) (t : Z) :
  exists data fullUpdate all,
    getData (Since t) st = Readings data fullUpdate
    /\ getData NoLastUpdate st = Readings all true
    /\ data `sublist_of` all
    /\ ((forall f r, latestData st f = Some r -> t < timestamp r) ->
        data = all)
    /\ (forall t', t <= t' ->
          exists data' fullUpdate',
            getData (Since t') st = Readings data' fullUpdate'
            /\ data' `sublist_of` data).
Proof.
  exists (changedSince (latestData st) t),
         (Nat.eqb (length (changedSince (latestData st) t)) 0),
         (snapshot (latestData st)).
  split; [reflexivity |]. split; [reflexivity |]. split; [| split].
  - unfold changedSince, snapshot. apply flat_map_sublist. intros f.
    destruct (latestData st f) as [r |]; [| reflexivity].
    destruct (Z.ltb t (timestamp r)); [reflexivity | apply sublist_nil_l].
  - intros Hall. unfold changedSince, snapshot. apply flat_map_ext_In.
    intros f _. destruct (latestData st f) as [r |] eqn:Hr; [| reflexivity].
    specialize (Hall f r Hr). apply Z.ltb_lt in Hall. now rewrite Hall.
  - intros t' Hle.
    exists (changedSince (latestData st) t'),
           (Nat.eqb (length (changedSince (latestData st) t')) 0).
    split; [reflexivity |].
    unfold changedSince. apply flat_map_sublist. intros f.
    destruct (latestData st f) as [r |]; [| reflexivity].
    destruct (Z.ltb_spec t' (timestamp r)) as [Hlt | Hge];
      [| apply sublist_nil_l].
    destruct (Z.ltb_spec t (timestamp r)); [reflexivity | lia].
Qed.

(** X10.  A recorded reading shows up in the delta queries that ask for an
    instant before its timestamp, and in no other: after a valid
    submission in which a field is significant, the delta since [t]
    contains that field, with the submitted value, exactly when [t] is
    before the clock reading of the submission. *)
Theorem submission_visible_in_delta (clock : field -> Z)
    (data : SensorRequest) (st : SensorState) (f : field) (t : Z)
    (Hvalid : validateSensorData data = [])
    (Hsig : significant (changeThresholds st) (latestData st) data f = true) :
  exists delta fullUpdate,
    getData (Since t) (fst (postData clock data st)) = Readings delta fullUpdate
    /\ (In (f, submitted clock data f) delta <-> t < clock f)
    /\ (forall r, In (f, r) delta -> r = submitted clock data f).
Proof.
  destruct (postData_accepted clock data st Hvalid) as (Hd & _ & _).
  specialize (Hd f). rewrite Hsig in Hd.
  exists (changedSince (latestData (fst (postData clock data st))) t),
         (Nat.eqb (length (changedSince
                     (latestData (fst (postData clock data st))) t)) 0).
  split; [reflexivity |]. split.
  - rewrite changedSince_In, Hd. unfold submitted at 2. cbn [timestamp].
    intuition.
  - intros r Hin. apply changedSince_In in Hin as [Hr _]. congruence.
Qed.

Lemma submission_visible_in_delta_witness :
  exists delta fullUpdate,
    getData (Since 10)
      (fst (postData (fun _ => 11) (singleFieldRequest temp (JNum 37))
                     initialSensorState))
    = Readings delta fullUpdate
    /\ (In (temp, submitted (fun _ => 11)
                    (singleFieldRequest temp (JNum 37)) temp) delta
        <-> 10 < 11)
    /\ (forall r, In (temp, r) delta ->
          r = submitted (fun _ => 11) (singleFieldRequest temp (JNum 37)) temp).
Proof.
  exact (submission_visible_in_delta (fun _ => 11)
           (singleFieldRequest temp (JNum 37)) initialSensorState temp 10
           eq_refl eq_refl).
Defined.

(** ** Threshold updates through the handler *)

(** X11.  For a body whose keys are distinct and none of which is a name
    inherited from [Object.prototype], SetThresholds applies exactly the
    entries that name an existing threshold and carry a finite number
    [>= 0]: the count it reports is their number, each of them is stored,
    every other threshold and every reading is left as it was. *)
Theorem setThresholds_exact (entries : list (string * jsval))
    (st : SensorState)
    (Hdistinct : NoDup (map fst entries))
    (Hown : forall kv, In kv entries -> inherited (fst kv) = false) :
  exists th,
    setThresholds (BodyObject entries) st
    = (mkSensorState (latestData st) th,
       ThresholdsUpdated
         (length (List.filter (applicable (changeThresholds st)) entries)) th)
    /\ (forall key x, In (key, JNum x) entries ->
          applicable (changeThresholds st) (key, JNum x) = true ->
          th !! key = Some x)
    /\ (forall key,
          (forall v, In (key, v) entries ->
                     applicable (changeThresholds st) (key, v) = false) ->
          th !! key = changeThresholds st !! key).
Proof.
  destruct (fold_updateThreshold_exact entries (changeThresholds st) 0
              Hdistinct Hown) as (th & Hfold & Happlied & Hkept).
  exists th. split; [| split; assumption].
  unfold setThresholds. now rewrite Hfold.
Qed.

Lemma setThresholds_exact_witness :
  exists th,
    setThresholds
      (BodyObject [("temp", JNum (-1)); ("heartrate", JNum 5);
                   ("bogus", JNum 3)])
      initialSensorState
    = (mkSensorState noData th, ThresholdsUpdated 1 th)
    /\ th !! "heartrate" = Some 5%float
    /\ th !! "temp" = Some 0.1%float
    /\ th !! "bogus" = None.
Proof.
  assert (Hdistinct : NoDup (map fst [("temp", JNum (-1)); ("heartrate", JNum 5);
                                      ("bogus", JNum 3)])).
  { apply (bool_decide_unpack _). vm_compute. exact I. }
  assert (Hown : forall kv : string * jsval,
    In kv [("temp", JNum (-1)); ("heartrate", JNum 5); ("bogus", JNum 3)] ->
    inherited (fst kv) = false).
  { intros kv [<- | [<- | [<- | []]]]; reflexivity. }
  destruct (setThresholds_exact
              [("temp", JNum (-1)); ("heartrate", JNum 5); ("bogus", JNum 3)]
              initialSensorState Hdistinct Hown)
    as (th & Heq & Happlied & Hkept).
  exists th. split; [exact Heq |]. split; [| split].
  - apply Happlied; [right; now left | reflexivity].
  - rewrite Hkept; [reflexivity |].
    intros v [[= <-] | [[=] | [[=] | []]]]. reflexivity.
  - rewrite Hkept; [reflexivity |].
    intros v [[=] | [[=] | [[= <-] | []]]]. reflexivity.
Defined.

(** ** Field selection *)

Lemma field_name_inj (f g : field) : field_name f = field_name g -> f = g.
Proof. destruct f, g; cbn; congruence. Qed.

Lemma fieldOfName_Some (v : jsval) (f : field) :
  fieldOfName v = Some f <-> v = JStr (field_name f).
Proof.
  split.
  - intros H. apply List.find_some in H as [_ Heq].
    destruct v as [| | b | x | s | o]; try discriminate Heq.
    cbn [strict_eq] in Heq. apply String.eqb_eq in Heq. now subst s.
  - intros ->. destruct f; reflexivity.
Qed.

Lemma isFieldName_fieldOfName (v : jsval) :
  isFieldName v = true <-> exists f, fieldOfName v = Some f.
Proof.
  unfold isFieldName, validFields. rewrite existsb_exists. split.
  - intros (name & Hin & Heq). apply List.in_map_iff in Hin as (f & <- & _).
    exists f. apply fieldOfName_Some.
    destruct v as [| | b | x | s | o]; try discriminate Heq.
    cbn [strict_eq] in Heq. apply String.eqb_eq in Heq. now subst s.
  - intros (f & Hf). apply fieldOfName_Some in Hf. subst v.
    exists (field_name f). split.
    + apply List.in_map, fields_complete.
    + cbn [strict_eq]. apply String.eqb_refl.
Qed.

(** Writing again the reading a property already holds changes nothing. *)
Lemma setProperty_spec (obj : list (field * SensorReading)) (f : field)
    (r : SensorReading) :
  NoDup (map fst obj) ->
  (forall q, In (f, q) obj -> q = r) ->
  NoDup (map fst (setProperty obj f r))
  /\ (forall g q, In (g, q) (setProperty obj f r)
                  <-> In (g, q) obj \/ (g = f /\ q = r)).
Proof.
  intros Hnd Hsame. unfold setProperty.
  destruct (existsb (fun kv => bool_decide (fst kv = f)) obj) eqn:Hex.
  - assert (Hid : map (fun kv : field * SensorReading =>
                         if decide (fst kv = f) then (f, r) else kv) obj = obj).
    { clear Hnd Hex. induction obj as [| [k q] obj IH]; [reflexivity |].
      cbn [map fst]. rewrite IH by (intros q' Hq'; apply Hsame; now right).
      case_decide as Hk; [| reflexivity].
      subst k. now rewrite (Hsame q) by now left. }
    rewrite Hid. split; [exact Hnd |].
    intros g q. split; [auto |]. intros [Hin | [-> ->]]; [exact Hin |].
    apply existsb_exists in Hex as ([k q'] & Hin & Hk).
    apply bool_decide_eq_true_1 in Hk. cbn in Hk. subst k.
    now rewrite <- (Hsame q' Hin).
  - assert (Hfresh : ~ In f (map fst obj)).
    { intros Hin. apply List.in_map_iff in Hin as ([k q] & Hk & Hin).
      cbn in Hk. subst k.
      assert (existsb (fun kv => bool_decide (fst kv = f)) obj = true).
      { apply existsb_exists. exists (f, q). split; [exact Hin |].
        now apply bool_decide_eq_true_2. }
      congruence. }
    split.
    + rewrite map_app. cbn [map fst]. apply NoDup_app.
      split; [exact Hnd |]. split; [| apply NoDup_singleton].
      intros g Hg Hg'. apply list_elem_of_In in Hg.
      apply list_elem_of_singleton in Hg'. now subst g.
    + intros g q. rewrite in_app_iff. cbn [In]. split.
      * intros [Hin | [[= <- <-] | []]]; auto.
      * intros [Hin | [-> ->]]; auto.
Qed.

Lemma getSpecificData_fold (st : SensorState) (requested : list jsval)
    (acc : list (field * SensorReading)) :
  NoDup (map fst acc) ->
  (forall f r, In (f, r) acc -> latestData st f = Some r) ->
  let data :=
    fold_left (fun specificData v =>
        match fieldOfName v with
        | Some f =>
            match latestData st f with
            | Some r => setProperty specificData f r
            | None => specificData
            end
        | None => specificData
        end) requested acc in
  NoDup (map fst data)
  /\ (forall f r,
        In (f, r) data
        <-> In (f, r) acc
            \/ (In (JStr (field_name f)) requested /\ latestData st f = Some r)).
Proof.
  revert acc. induction requested as [| v requested IH];
    intros acc Hnd Hacc data; subst data; cbn [fold_left].
  - split; [exact Hnd |]. intros f r. cbn [In]. tauto.
  - destruct (fieldOfName v) as [g |] eqn:Hv.
    + apply fieldOfName_Some in Hv. subst v.
      destruct (latestData st g) as [q |] eqn:Hg.
      * destruct (setProperty_spec acc g q Hnd) as [Hnd' Hin'].
        { intros q' Hq'. apply Hacc in Hq'. congruence. }
        destruct (IH (setProperty acc g q) Hnd') as [Hn Hi].
        { intros f r Hfr. apply Hin' in Hfr as [Hfr | [-> ->]];
            [now apply Hacc | exact Hg]. }
        split; [exact Hn |]. intros f r. rewrite Hi, Hin'. cbn [In].
        split.
        -- intros [[Hin | [-> ->]] | [Hin Hr]]; auto.
        -- intros [Hin | [[Heq | Hin] Hr]]; auto.
           injection Heq as Heq. apply field_name_inj in Heq. subst g.
           left. right. split; [reflexivity | congruence].
      * destruct (IH acc Hnd Hacc) as [Hn Hi].
        split; [exact Hn |]. intros f r. rewrite Hi. cbn [In]. split.
        -- intros [Hin | [Hin Hr]]; auto.
        -- intros [Hin | [[Heq | Hin] Hr]]; auto.
           injection Heq as Heq. apply field_name_inj in Heq. subst g.
           congruence.
    + destruct (IH acc Hnd Hacc) as [Hn Hi].
      split; [exact Hn |]. intros f r. rewrite Hi. cbn [In]. split.
      * intros [Hin | [Hin Hr]]; auto.
      * intros [Hin | [[Heq | Hin] Hr]]; auto.
        subst v. rewrite (proj2 (fieldOfName_Some _ f) eq_refl) in Hv.
        discriminate Hv.
Qed.

(** X12.  Selecting fields: when some requested element is not the name of
    a sensor field, the request fails, naming exactly the offending
    elements (in request order) and all five valid names; otherwise it
    returns, once each, exactly the requested fields that have a reading,
    with the stored reading.  A field without a reading is left out, and
    an empty request yields an empty selection. *)
Theorem getSpecificData_contract (requested : list jsval) (st : SensorState) :
  (forall v, In v requested -> isFieldName v = false ->
     exists invalidFields,
       getSpecificData (Some requested) st
       = InvalidFields invalidFields
           ["temp"; "heartrate"; "movement"; "lat"; "lon"]
       /\ (forall w, In w invalidFields
                     <-> In w requested /\ isFieldName w = false))
  /\ ((forall v, In v requested -> isFieldName v = true) ->
      exists data,
        getSpecificData (Some requested) st = SpecificData data
        /\ NoDup (map fst data)
        /\ (forall f r,
              In (f, r) data
              <-> In (JStr (field_name f)) requested
                  /\ latestData st f = Some r)).
Proof.
  split.
  - intros v Hin Hbad.
    exists (List.filter (fun w => negb (isFieldName w)) requested).
    assert (Hv : In v (List.filter (fun w => negb (isFieldName w)) requested)).
    { apply List.filter_In. split; [exact Hin | now rewrite Hbad]. }
    split.
    + unfold getSpecificData.
      destruct (List.filter _ requested) as [| w ws]; [destruct Hv |].
      reflexivity.
    + intros w. rewrite List.filter_In, negb_true_iff. reflexivity.
  - intros Hall.
    assert (Hnone : List.filter (fun w => negb (isFieldName w)) requested = []).
    { induction requested as [| v l IH]; [reflexivity |].
      cbn [List.filter]. rewrite (Hall v) by now left. cbn [negb].
      apply IH. intros w Hw. apply Hall. now right. }
    unfold getSpecificData. rewrite Hnone. cbn [length Nat.eqb negb].
    destruct (getSpecificData_fold st requested [])
      as [Hnd Hin]; [apply NoDup_nil_2 | intros f r [] |].
    eexists. split; [reflexivity |]. split; [exact Hnd |].
    intros f r. rewrite Hin. cbn [In]. tauto.
Qed.

Lemma getSpecificData_contract_witness :
  exists invalidFields,
    getSpecificData (Some [JStr "temp"; JStr "bogus"; JNum 1])
                    initialSensorState
    = InvalidFields invalidFields
        ["temp"; "heartrate"; "movement"; "lat"; "lon"]
    /\ (forall w, In w invalidFields
                  <-> In w [JStr "temp"; JStr "bogus"; JNum 1]
                      /\ isFieldName w = false).
Proof.
  apply (proj1 (getSpecificData_contract
                  [JStr "temp"; JStr "bogus"; JNum 1] initialSensorState)
               (JStr "bogus")).
  - right. now left.
  - reflexivity.
Defined.

(** ** The change detector and the order of thresholds *)

Lemma SFleb_trans (a b c : spec_float) :
  SFleb a b = true -> SFleb b c = true -> SFleb a c = true.
Proof.
  unfold SFleb, SFcompare.
  destruct a as [sa | sa | | sa ma ea], b as [sb | sb | | sb mb eb],
    c as [sc | sc | | sc mc ec];
    try destruct sa; try destruct sb; try destruct sc;
    try (intros; discriminate); try (intros; reflexivity);
    change (Pos.compare_cont Eq) with Pos.compare;
    destruct (Z.compare_spec ea eb); destruct (Z.compare_spec eb ec);
    destruct (Z.compare_spec ea ec); try lia;
    try (intros; discriminate); try (intros; reflexivity);
    subst;
    destruct (Pos.compare_spec ma mb); destruct (Pos.compare_spec mb mc);
    destruct (Pos.compare_spec ma mc); try lia;
    try (intros; discriminate); try (intros; reflexivity).
Qed.

Lemma float_leb_trans (a b c : float) :
  (a <=? b)%float = true -> (b <=? c)%float = true -> (a <=? c)%float = true.
Proof. rewrite !leb_spec. apply SFleb_trans. Qed.

Lemma float_pos_not_leb_zero (t : float) :
  (0 <? t)%float = true -> (t <=? 0)%float = false.
Proof.
  rewrite ltb_spec, leb_spec. change (Prim2SF 0) with (S754_zero false).
  destruct (Prim2SF t) as [s | s | | s m e]; try destruct s;
    unfold SFltb, SFleb; simpl; try discriminate; auto.
Qed.

(** X25.  Lowering a threshold never hides a change: if the threshold of a
    key in one table is [<=] its threshold in another, every pair of
    values that the detector finds significant under the larger threshold
    is significant under the smaller one. *)
Theorem lower_threshold_keeps_significance (th1 th2 : Thresholds)
    (key : string) (t1 t2 : float) (newValue oldValue : jsval)
    (H1 : th1 !! key = Some t1)
    (H2 : th2 !! key = Some t2)
    (Hle : (t1 <=? t2)%float = true)
    (Hsig : hasDataChanged th2 key newValue oldValue = true) :
  hasDataChanged th1 key newValue oldValue = true.
Proof.
  unfold hasDataChanged in *.
  destruct (is_nullish oldValue); [reflexivity |].
  destruct (is_nullish newValue); [discriminate |].
  destruct newValue as [| | b | n | s | o]; try exact Hsig.
  destruct oldValue as [| | b | o' | s | o]; try exact Hsig.
  rewrite H1. rewrite H2 in Hsig. now apply (float_leb_trans t1 t2).
Qed.

Lemma lower_threshold_keeps_significance_witness :
  hasDataChanged (<["temp" := 0.05%float]> initialThresholds) "temp"
                 (JNum 36.8) (JNum 36.6) = true.
Proof.
  exact (lower_threshold_keeps_significance
           (<["temp" := 0.05%float]> initialThresholds) initialThresholds
           "temp" 0.05%float 0.1%float (JNum 36.8) (JNum 36.6)
           eq_refl eq_refl eq_refl eq_refl).
Defined.

(** X26.  Under positive thresholds repeating a submission is a no-op:
    when every field a valid request provides carries the value already
    stored for it, and the threshold of every provided number is
    positive, no reading changes (value and timestamp stay) and the
    answer is that nothing significant changed. *)
Theorem resubmission_not_recorded (clock : field -> Z) (data : SensorRequest)
    (st : SensorState)
    (Hvalid : validateSensorData data = [])
    (Hsome : exists f, is_undefined (requestField data f) = false)
    (Hsame : forall f, is_undefined (requestField data f) = false ->
       (exists r, latestData st f = Some r
                  /\ value r = requestField data f)
       /\ (forall x, requestField data f = JNum x ->
             exists t, changeThresholds st !! field_name f = Some t
                       /\ (0 <? t)%float = true)) :
  (forall f, latestData (fst (postData clock data st)) f = latestData st f)
  /\ snd (postData clock data st) = NoSignificantChange.
Proof.
  destruct (postData_accepted clock data st Hvalid) as (Hd & _ & Hresp).
  assert (Hnone : forall f,
    significant (changeThresholds st) (latestData st) data f = false).
  { intros f. unfold significant.
    destruct (is_undefined (requestField data f)) eqn:Hu.
    - destruct (requestField data f); try discriminate Hu. reflexivity.
    - rewrite (valid_provided_not_nullish data f Hvalid Hu). cbn [negb andb].
      destruct (Hsame f Hu) as ((r & Hr & Hv) & Hnum).
      unfold oldValueOf. rewrite Hr, Hv.
      pose proof (fieldRejected_false_inv f (requestField data f) Hu
                    (proj1 (validateSensorData_nil data) Hvalid f)) as Hacc.
      unfold hasDataChanged.
      rewrite (acceptedValue_not_nullish f _ Hacc).
      destruct (requestField data f) as [| | b | x | s | o] eqn:Hreq;
        try (destruct f; cbn in Hacc;
             repeat match goal with
                    | H : exists _, _ |- _ => destruct H as [? H]
                    | H : _ /\ _ |- _ => destruct H as [? ?]
                    end; discriminate).
      + destruct (Hnum x eq_refl) as (t & -> & Hpos).
        assert (Hfin : is_finite x = true).
        { destruct f; cbn in Hacc;
            repeat match goal with
                   | H : exists _, _ |- _ => destruct H as [? H]
                   | H : _ /\ _ |- _ => destruct H as [? ?]
                   end; congruence. }
        rewrite (float_sub_diag x Hfin). change (abs 0) with 0%float.
        now apply float_pos_not_leb_zero.
      + unfold strict_neq. cbn. now rewrite String.eqb_refl. }
  split.
  - intros f. now rewrite Hd, Hnone.
  - rewrite Hresp.
    assert (Hall : forallb (fun g => is_undefined (requestField data g)) fields
                   = false).
    { destruct Hsome as [f Hf]. apply not_true_is_false. intros Hall.
      rewrite forallb_forall in Hall.
      specialize (Hall f (fields_complete f)). congruence. }
    rewrite Hall.
    rewrite (flat_map_ext_In _ (fun _ => []) fields)
      by (intros g _; now rewrite Hnone).
    reflexivity.
Qed.

Lemma resubmission_not_recorded_witness :
  snd (postData (fun _ => 50)
         (mkSensorRequest (JNum 36.6) JUndefined (JStr "sitting")
                          JUndefined JUndefined)
         (mkSensorState
            (setReading (setReading noData temp (mkReading (JNum 36.6) 1))
                        movement (mkReading (JStr "sitting") 2))
            initialThresholds))
  = NoSignificantChange.
Proof.
  refine (proj2 (resubmission_not_recorded (fun _ => 50)
           (mkSensorRequest (JNum 36.6) JUndefined (JStr "sitting")
                            JUndefined JUndefined)
           (mkSensorState
              (setReading (setReading noData temp (mkReading (JNum 36.6) 1))
                          movement (mkReading (JStr "sitting") 2))
              initialThresholds)
           eq_refl (ex_intro _ temp eq_refl) _)).
  intros f Hu. destruct f; try discriminate Hu.
  - split; [eexists; split; reflexivity |].
    intros x Hx. exists 0.1%float. split; reflexivity.
  - split; [eexists; split; reflexivity |].
    intros x Hx. discriminate Hx.
Defined.

(** ** SetCommand, case by case *)

(** A request that is refused answers with an error and leaves queue,
    registry and timers alone. *)
Lemma setCommand_refused (st : ServerState) (buzzerArg ledArg : jsval)
    (newId : string) (now : Z) :
  is_undefined buzzerArg && is_undefined ledArg = true
  \/ commandArgOk buzzerArg && commandArgOk ledArg = false ->
  exists dc message,
    setCommand buzzerArg ledArg newId now st
    = mkServerState dc (pendingCommands st) (commandListeners st)
        (sent st ++ [(nextRes st, BadRequest message)]) (timers st)
        (S (nextRes st)).
Proof.
  destruct st as [[bz ld] q ls log ts n].
  intros [H | H];
    destruct buzzerArg as [| | b | | |], ledArg as [| | l | | |];
    try discriminate H;
    unfold setCommand; cbn;
    try destruct (Bool.eqb bz b); cbn; eauto.
Qed.

(** What a broadcast leaves alone, whatever the state of the listeners. *)
Lemma notifyCommandListeners_frame (command : PendingCommand)
    (st : ServerState) :
  deviceCommands (notifyCommandListeners command st) = deviceCommands st
  /\ pendingCommands (notifyCommandListeners command st) = pendingCommands st
  /\ commandListeners (notifyCommandListeners command st) = []
  /\ timers (notifyCommandListeners command st) = timers st
  /\ nextRes (notifyCommandListeners command st) = nextRes st
  /\ exists extra,
       sent (notifyCommandListeners command st) = sent st ++ extra
       /\ Forall (fun p =>
            snd p = CommandDelta (commands command) (id command)
                                 (createdAt command) NoMarker
            /\ In (fst p) (map res (commandListeners st))) extra.
Proof.
  unfold notifyCommandListeners.
  cbn [setCommandListeners deviceCommands pendingCommands commandListeners
       timers nextRes sent].
  set (body := CommandDelta (commands command) (id command)
                            (createdAt command) NoMarker).
  assert (Hgen : forall ls s,
    let s' := fold_left (fun s0 listener =>
                match json (res listener) body s0 with
                | Some s1 => s1
                | None => s0
                end) ls s in
    deviceCommands s' = deviceCommands s
    /\ pendingCommands s' = pendingCommands s
    /\ timers s' = timers s
    /\ nextRes s' = nextRes s
    /\ exists extra,
         sent s' = sent s ++ extra
         /\ Forall (fun p => snd p = body /\ In (fst p) (map res ls)) extra).
  { induction ls as [| a ls IH]; intros s s'; subst s'; cbn [fold_left].
    - repeat split. exists []. split; [now rewrite app_nil_r | constructor].
    - unfold json at 2 4 6 8 10. destruct (headersSent (res a) s).
      + destruct (IH s) as (H1 & H2 & H3 & H4 & extra & H5 & H6).
        repeat split; try assumption. exists extra. split; [exact H5 |].
        eapply Forall_impl; [exact H6 |]. cbn. intros p [? ?]. auto.
      + destruct (IH (setSent (sent s ++ [(res a, body)]) s))
          as (H1 & H2 & H3 & H4 & extra & H5 & H6).
        repeat split; try assumption.
        exists ((res a, body) :: extra). split.
        * rewrite H5. cbn [setSent sent]. now rewrite <- app_assoc.
        * constructor; [cbn; auto |].
          eapply Forall_impl; [exact H6 |]. cbn. intros p [? ?]. auto. }
  destruct (Hgen (commandListeners st) st) as (H1 & H2 & H3 & H4 & H5).
  auto 10.
Qed.

(** A well-typed request: the provided fields are stored; if one of them
    changed, the command is queued and broadcast before the request is
    answered. *)
Lemma setCommand_accepted (st : ServerState) (buzzerArg ledArg : jsval)
    (newId : string) (now : Z) :
  commandArgOk buzzerArg = true -> commandArgOk ledArg = true ->
  is_undefined buzzerArg && is_undefined ledArg = false ->
  let upd := builtUpdate st buzzerArg ledArg in
  let dc := applyUpdate (deviceCommands st) upd in
  let newCommand := mkPendingCommand newId upd now in
  setCommand buzzerArg ledArg newId now st
  = if updateNonEmpty upd
    then reply (nextRes st) (CommandsUpdated dc true)
           (notifyCommandListeners newCommand
              (mkServerState dc (pendingCommands st ++ [newCommand])
                 (commandListeners st) (sent st) (timers st)
                 (S (nextRes st))))
    else reply (nextRes st) (CommandsUpdated (deviceCommands st) false)
           (mkServerState (deviceCommands st) (pendingCommands st)
              (commandListeners st) (sent st) (timers st) (S (nextRes st))).
Proof.
  destruct st as [[bz ld] q ls log ts n].
  intros Hb Hl Hsome.
  destruct buzzerArg as [| | b | | |]; try discriminate Hb;
    destruct ledArg as [| | l | | |]; try discriminate Hl;
    try discriminate Hsome;
    unfold setCommand, builtUpdate;
    cbn -[notifyCommandListeners reply];
    try destruct (Bool.eqb bz b) eqn:Eb;
    try destruct (Bool.eqb ld l) eqn:El;
    cbn -[notifyCommandListeners reply];
    rewrite ?Eb, ?El; cbn -[notifyCommandListeners reply];
    try (apply Bool.eqb_prop in Eb; subst b);
    try (apply Bool.eqb_prop in El; subst l);
    rewrite ?(proj1 (notifyCommandListeners_frame _ _));
    reflexivity.
Qed.

Lemma builtUpdate_empty (st : ServerState) (buzzerArg ledArg : jsval) :
  commandArgOk buzzerArg = true -> commandArgOk ledArg = true ->
  updateNonEmpty (builtUpdate st buzzerArg ledArg) = false ->
  sameOrAbsent (buzzer (deviceCommands st)) buzzerArg = true
  /\ sameOrAbsent (led (deviceCommands st)) ledArg = true
  /\ applyUpdate (deviceCommands st) (builtUpdate st buzzerArg ledArg)
     = deviceCommands st.
Proof.
  destruct st as [[bz ld] q ls log ts n]. unfold builtUpdate, applyUpdate.
  cbn [deviceCommands buzzer led cu_buzzer cu_led].
  intros Hb Hl.
  destruct buzzerArg as [| | b | | |]; try discriminate Hb;
    destruct ledArg as [| | l | | |]; try discriminate Hl;
    cbn [changedField sameOrAbsent];
    try destruct (Bool.eqb bz b); try destruct (Bool.eqb ld l);
    cbn; intros H; try discriminate H; auto.
Qed.


Lemma applyUpdate_builtUpdate (st : ServerState) (buzzerArg ledArg : jsval) :
  applyUpdate (deviceCommands st) (builtUpdate st buzzerArg ledArg)
  = mkDeviceCommands (requestedValue (buzzer (deviceCommands st)) buzzerArg)
                     (requestedValue (led (deviceCommands st)) ledArg).
Proof.
  destruct st as [[bz ld] q ls log ts n]. unfold applyUpdate, builtUpdate.
  cbn [deviceCommands buzzer led cu_buzzer cu_led].
  destruct buzzerArg as [| | b | | |], ledArg as [| | l | | |];
    cbn [changedField requestedValue default];
    try destruct (Bool.eqb bz b) eqn:Eb; try destruct (Bool.eqb ld l) eqn:El;
    try (apply Bool.eqb_prop in Eb; subst b);
    try (apply Bool.eqb_prop in El; subst l); reflexivity.
Qed.

(** The state a well-typed SetCommand leaves: the command state and the
    response of the request. *)
Lemma setCommand_accepted_state (st : ServerState) (buzzerArg ledArg : jsval)
    (newId : string) (now : Z) :
  commandArgOk buzzerArg = true -> commandArgOk ledArg = true ->
  is_undefined buzzerArg && is_undefined ledArg = false ->
  let upd := builtUpdate st buzzerArg ledArg in
  let st' := setCommand buzzerArg ledArg newId now st in
  deviceCommands st' = applyUpdate (deviceCommands st) upd
  /\ pendingCommands st'
     = (if updateNonEmpty upd
        then pendingCommands st ++ [mkPendingCommand newId upd now]
        else pendingCommands st)
  /\ commandListeners st'
     = (if updateNonEmpty upd then [] else commandListeners st)
  /\ timers st' = timers st
  /\ nextRes st' = S (nextRes st)
  /\ exists extra,
       sent st'
       = sent st ++ extra
         ++ [(nextRes st,
              CommandsUpdated (applyUpdate (deviceCommands st) upd)
                              (updateNonEmpty upd))]
       /\ (updateNonEmpty upd = false -> extra = [])
       /\ Forall (fun p =>
            snd p = CommandDelta upd newId now NoMarker
            /\ In (fst p) (map res (commandListeners st))) extra.
Proof.
  intros Hb Hl Hsome upd st'. subst st'.
  rewrite (setCommand_accepted st buzzerArg ledArg newId now Hb Hl Hsome).
  fold upd. destruct (updateNonEmpty upd) eqn:Hne.
  - destruct (notifyCommandListeners_frame
                (mkPendingCommand newId upd now)
                (mkServerState (applyUpdate (deviceCommands st) upd)
                   (pendingCommands st ++ [mkPendingCommand newId upd now])
                   (commandListeners st) (sent st) (timers st)
                   (S (nextRes st))))
      as (H1 & H2 & H3 & H4 & H5 & extra & H6 & H7).
    cbn [reply setSent deviceCommands pendingCommands commandListeners timers
         nextRes sent] in *.
    rewrite H1, H2, H3, H4, H5, H6. repeat split.
    exists extra. rewrite <- app_assoc. repeat split; [discriminate | exact H7].
  - destruct (builtUpdate_empty st buzzerArg ledArg Hb Hl Hne) as (_ & _ & Heq).
    fold upd in Heq. rewrite Heq. cbn. repeat split.
    exists []. repeat split. constructor.
Qed.

(** X13.  Last writer wins: after a SetCommand whose provided fields are
    booleans, the command state holds every provided value and keeps the
    field that was not provided; the request is answered with that state
    and with [updated] telling whether a field changed. *)
Theorem setCommand_last_writer_wins (st : ServerState)
    (buzzerArg ledArg : jsval) (newId : string) (now : Z)
    (Hb : commandArgOk buzzerArg = true)
    (Hl : commandArgOk ledArg = true)
    (Hsome : is_undefined buzzerArg && is_undefined ledArg = false) :
  let st' := setCommand buzzerArg ledArg newId now st in
  deviceCommands st'
  = mkDeviceCommands (requestedValue (buzzer (deviceCommands st)) buzzerArg)
                     (requestedValue (led (deviceCommands st)) ledArg)
  /\ In (nextRes st,
         CommandsUpdated (deviceCommands st')
           (negb (sameOrAbsent (buzzer (deviceCommands st)) buzzerArg
                  && sameOrAbsent (led (deviceCommands st)) ledArg)))
        (sent st').
Proof.
  intros st'.
  destruct (setCommand_accepted_state st buzzerArg ledArg newId now Hb Hl Hsome)
    as (Hdc & _ & _ & _ & _ & extra & Hsent & _).
  fold st' in Hdc, Hsent.
  assert (Hne : updateNonEmpty (builtUpdate st buzzerArg ledArg)
                = negb (sameOrAbsent (buzzer (deviceCommands st)) buzzerArg
                        && sameOrAbsent (led (deviceCommands st)) ledArg)).
  { destruct st as [[bz ld] q ls log ts n]. unfold builtUpdate.
    cbn [deviceCommands buzzer led].
    destruct buzzerArg as [| | b | | |]; try discriminate Hb;
      destruct ledArg as [| | l | | |]; try discriminate Hl;
      cbn [changedField sameOrAbsent];
      try destruct (Bool.eqb bz b); try destruct (Bool.eqb ld l); reflexivity. }
  split.
  - rewrite Hdc. apply applyUpdate_builtUpdate.
  - rewrite Hsent, Hdc, Hne.
    apply in_or_app. right. apply in_or_app. right. now left.
Qed.

Lemma setCommand_last_writer_wins_witness :
  deviceCommands (setCommand JUndefined (JBool true) "x" 3 initialState)
  = mkDeviceCommands false true.
Proof.
  exact (proj1 (setCommand_last_writer_wins initialState JUndefined
                  (JBool true) "x" 3 eq_refl eq_refl eq_refl)).
Defined.

(** X14.  SetCommand is idempotent: sending a well-typed request a second
    time, right after the first, changes nothing.  The second request is
    answered [updated = false] with the same command state, queues no
    command and writes to no listener. *)
Theorem setCommand_idempotent (st : ServerState) (buzzerArg ledArg : jsval)
    (id1 id2 : string) (t1 t2 : Z)
    (Hb : commandArgOk buzzerArg = true)
    (Hl : commandArgOk ledArg = true)
    (Hsome : is_undefined buzzerArg && is_undefined ledArg = false) :
  let st1 := setCommand buzzerArg ledArg id1 t1 st in
  let st2 := setCommand buzzerArg ledArg id2 t2 st1 in
  deviceCommands st2 = deviceCommands st1
  /\ pendingCommands st2 = pendingCommands st1
  /\ commandListeners st2 = commandListeners st1
  /\ sent st2
     = sent st1 ++ [(nextRes st1, CommandsUpdated (deviceCommands st1) false)].
Proof.
  intros st1 st2.
  destruct (setCommand_accepted_state st buzzerArg ledArg id1 t1 Hb Hl Hsome)
    as (Hdc & _). fold st1 in Hdc. rewrite applyUpdate_builtUpdate in Hdc.
  assert (Hempty : updateNonEmpty (builtUpdate st1 buzzerArg ledArg) = false).
  { unfold builtUpdate. rewrite Hdc. cbn [buzzer led].
    destruct buzzerArg as [| | b | | |]; try discriminate Hb;
      destruct ledArg as [| | l | | |]; try discriminate Hl;
      cbn [changedField requestedValue]; rewrite ?Bool.eqb_reflx; reflexivity. }
  destruct (setCommand_accepted_state st1 buzzerArg ledArg id2 t2 Hb Hl Hsome)
    as (Hdc2 & Hq2 & Hls2 & _ & _ & extra & Hsent2 & Hextra & _).
  fold st2 in Hdc2, Hq2, Hls2, Hsent2.
  destruct (builtUpdate_empty st1 buzzerArg ledArg Hb Hl Hempty)
    as (_ & _ & Hsame).
  rewrite Hempty in Hq2, Hls2, Hsent2. rewrite Hsame in Hdc2, Hsent2.
  rewrite (Hextra Hempty) in Hsent2. auto.
Qed.

Lemma setCommand_idempotent_witness :
  pendingCommands
    (setCommand (JBool true) JUndefined "b" 2
       (setCommand (JBool true) JUndefined "a" 1 initialState))
  = pendingCommands (setCommand (JBool true) JUndefined "a" 1 initialState).
Proof.
  pose proof (setCommand_idempotent initialState (JBool true) JUndefined
                "a" "b" 1 2 eq_refl eq_refl eq_refl) as (_ & Hq & _).
  exact Hq.
Defined.

(** ** What every request does to the log, the queue and the timers *)

Lemma writtenDeltas_app (log1 log2 : list (nat * Response)) :
  writtenDeltas (log1 ++ log2) = writtenDeltas log1 ++ writtenDeltas log2.
Proof. unfold writtenDeltas. apply flat_map_app. Qed.

(** The effect of SetCommand, whatever its arguments: it answers its own
    request with a body that is no delta; it either leaves queue and
    registry alone, or queues one command that names a field, writes it to
    listeners of the registry and empties the registry. *)
Lemma setCommand_effect (st : ServerState) (buzzerArg ledArg : jsval)
    (newId : string) (now : Z) :
  let st' := setCommand buzzerArg ledArg newId now st in
  timers st' = timers st
  /\ nextRes st' = S (nextRes st)
  /\ exists extra body,
       sent st' = sent st ++ extra ++ [(nextRes st, body)]
       /\ writtenDeltas [(nextRes st, body)] = []
       /\ ((extra = []
            /\ pendingCommands st' = pendingCommands st
            /\ commandListeners st' = commandListeners st)
           \/ (exists upd,
                 updateNonEmpty upd = true
                 /\ pendingCommands st'
                    = pendingCommands st ++ [mkPendingCommand newId upd now]
                 /\ commandListeners st' = []
                 /\ Forall (fun p =>
                      snd p = CommandDelta upd newId now NoMarker
                      /\ In (fst p) (map res (commandListeners st))) extra)).
Proof.
  intros st'. subst st'.
  destruct (is_undefined buzzerArg && is_undefined ledArg) eqn:Hsome.
  { destruct (setCommand_refused st buzzerArg ledArg newId now
                (or_introl Hsome)) as (dc & m & ->).
    cbn. repeat split. exists [], (BadRequest m). cbn. auto 10. }
  destruct (commandArgOk buzzerArg && commandArgOk ledArg) eqn:Hok.
  - apply andb_prop in Hok as [Hb Hl].
    destruct (setCommand_accepted_state st buzzerArg ledArg newId now
                Hb Hl Hsome)
      as (_ & Hq & Hls & Hts & Hn & extra & Hsent & Hextra & Hall).
    split; [exact Hts |]. split; [exact Hn |].
    exists extra. eexists. split; [exact Hsent |]. split; [reflexivity |].
    destruct (updateNonEmpty (builtUpdate st buzzerArg ledArg)) eqn:Hne.
    + right. eexists. repeat split; eassumption.
    + left. rewrite (Hextra eq_refl). auto.
  - destruct (setCommand_refused st buzzerArg ledArg newId now
                (or_intror Hok)) as (dc & m & ->).
    cbn. repeat split. exists [], (BadRequest m). cbn. auto 10.
Qed.

Lemma headersSent_grows (r : nat) (st st' : ServerState)
    (extra : list (nat * Response)) :
  sent st' = sent st ++ extra ->
  headersSent r st = true -> headersSent r st' = true.
Proof.
  unfold headersSent. intros -> H. rewrite existsb_app, H. reflexivity.
Qed.

Lemma headersSent_last (r : nat) (st : ServerState)
    (log : list (nat * Response)) (body : Response) :
  sent st = log ++ [(r, body)] -> headersSent r st = true.
Proof.
  unfold headersSent. intros ->. rewrite existsb_app. cbn.
  now rewrite Nat.eqb_refl, orb_true_r.
Qed.

Lemma timerArmed_grows (r : nat) (st st' : ServerState)
    (more : list (nat * Z)) :
  timers st' = timers st ++ more ->
  timerArmed r st = true -> timerArmed r st' = true.
Proof.
  unfold timerArmed. intros -> H. rewrite existsb_app, H. reflexivity.
Qed.

(** One event only adds to the log and to the timers; a request that
    arrives is answered within its handler, or parked with its timeout
    armed, or it is a long poll that asked for no timeout. *)
Lemma step_progress (e : Event) (st st' : ServerState) :
  step e st = Some st' ->
  (exists extra, sent st' = sent st ++ extra)
  /\ (exists more, timers st' = timers st ++ more)
  /\ (nextRes st' = nextRes st
      \/ (nextRes st' = S (nextRes st)
          /\ (headersSent (nextRes st) st' = true
              \/ timerArmed (nextRes st) st' = true
              \/ asksNoTimeout e = true))).
Proof.
  intros Hstep.
  destruct e as [b l newId now | t imm now | now | r now |]; simpl in Hstep.
  - injection Hstep as <-.
    destruct (setCommand_effect st b l newId now)
      as (Hts & Hn & extra & body & Hsent & _).
    split; [eauto |]. split; [exists []; now rewrite app_nil_r |].
    right. split; [exact Hn |]. left.
    apply (headersSent_last _ _ (sent st ++ extra) body).
    now rewrite Hsent, app_assoc.
  - injection Hstep as <-.
    destruct (getDeviceCommand_cases st t imm now) as [H | [-> Hq]].
    + destruct (getDeviceCommand_answered st t imm now H) as (body & -> & _).
      cbn [sent timers nextRes].
      split; [eauto |]. split; [exists []; now rewrite app_nil_r |].
      right. split; [reflexivity |]. left. unfold headersSent. cbn.
      rewrite existsb_app. cbn. now rewrite Nat.eqb_refl, orb_true_r.
    + rewrite (getDeviceCommand_parked st t now Hq).
      destruct (requestedTimeout t) eqn:Hout; cbn [sent timers nextRes].
      * split; [eauto |]. split; [exists []; now rewrite app_nil_r |].
        right. split; [reflexivity |]. left. unfold headersSent. cbn.
        rewrite existsb_app. cbn. now rewrite Nat.eqb_refl, orb_true_r.
      * split; [exists []; now rewrite app_nil_r |].
        split; [exists []; now rewrite app_nil_r |].
        right. split; [reflexivity |]. right. right.
        destruct t as [[| n] |]; cbn in Hout; try discriminate Hout.
        destruct n; cbn in Hout; try discriminate Hout. reflexivity.
      * split; [exists []; now rewrite app_nil_r |]. split; [eauto |].
        right. split; [reflexivity |]. right. left. unfold timerArmed. cbn.
        rewrite existsb_app. cbn. now rewrite Nat.eqb_refl, orb_true_r.
  - injection Hstep as <-. unfold pollDeviceCommand. cbn [accept pendingCommands].
    destruct (pendingCommands st) as [| c q]; cbn;
      (split; [eauto |]); (split; [exists []; now rewrite app_nil_r |]);
      right; (split; [reflexivity |]); left; unfold headersSent; cbn;
      rewrite existsb_app; cbn; now rewrite Nat.eqb_refl, orb_true_r.
  - destruct (timerArmed r st); [| discriminate]. injection Hstep as <-.
    unfold onTimeout.
    change (headersSent r (setCommandListeners
              (List.filter (fun l => negb (Nat.eqb (res l) r))
                           (commandListeners st)) st))
      with (headersSent r st).
    destruct (headersSent r st); cbn.
    + split; [exists []; now rewrite app_nil_r |].
      split; [exists []; now rewrite app_nil_r | now left].
    + split; [eauto |]. split; [exists []; now rewrite app_nil_r | now left].
  - injection Hstep as <-. unfold clearPendingCommands. cbn.
    split; [eauto |]. split; [exists []; now rewrite app_nil_r |].
    right. split; [reflexivity |]. left. unfold headersSent. cbn.
    rewrite existsb_app. cbn. now rewrite Nat.eqb_refl, orb_true_r.
Qed.

(** X15.  No request is lost, as long as no long poll asks for its
    timeout to be switched off ([timeout=0]): in every state such a run
    reaches, each request that has arrived is answered or has its timeout
    armed. *)
Theorem every_request_answered_or_parked (tr : list Event) (st : ServerState)
    (Hrun : run tr initialState = Some st)
    (Htimeouts : forallb (fun e => negb (asksNoTimeout e)) tr = true)
    (r : nat) (Hr : (r < nextRes st)%nat) :
  headersSent r st = true \/ timerArmed r st = true.
Proof.
  assert (Hgen : forall st0,
    (forall q, (q < nextRes st0)%nat ->
       headersSent q st0 = true \/ timerArmed q st0 = true) ->
    run tr st0 = Some st ->
    forall q, (q < nextRes st)%nat ->
      headersSent q st = true \/ timerArmed q st = true).
  { clear Hrun r Hr. induction tr as [| e tr IH]; intros st0 Hinv Hrun;
      simpl in Hrun.
    - now injection Hrun as <-.
    - cbn [forallb] in Htimeouts. apply andb_prop in Htimeouts as [He Htr].
      destruct (step e st0) as [st1 |] eqn:Hstep; [| discriminate].
      apply (IH Htr st1); [| exact Hrun].
      destruct (step_progress e st0 st1 Hstep)
        as ((extra & Hsent) & (more & Hts) & Hnext).
      assert (Hold : forall q, (q < nextRes st0)%nat ->
        headersSent q st1 = true \/ timerArmed q st1 = true).
      { intros q Hq. destruct (Hinv q Hq) as [Ha | Ht].
        - left. now apply (headersSent_grows q st0 st1 extra).
        - right. now apply (timerArmed_grows q st0 st1 more). }
      intros q Hq. destruct Hnext as [Heq | [Heq Hnew]].
      + apply Hold. lia.
      + destruct (decide (q = nextRes st0)) as [-> | Hne]; [| apply Hold; lia].
        destruct Hnew as [Ha | [Ht | Hzero]]; [now left | now right |].
        rewrite Hzero in He. discriminate He. }
  apply (Hgen initialState); [| exact Hrun | exact Hr].
  intros q Hq. cbn in Hq. lia.
Qed.

Lemma every_request_answered_or_parked_witness :
  headersSent 0 (getDeviceCommand None false 5 initialState) = true
  \/ timerArmed 0 (getDeviceCommand None false 5 initialState) = true.
Proof.
  apply (every_request_answered_or_parked [LongPoll None false 5]
           (getDeviceCommand None false 5 initialState) eq_refl eq_refl 0%nat).
  cbn. lia.
Defined.

(** ** Deltas always name a field *)

Lemma writtenDeltas_broadcast (extra : list (nat * Response))
    (body : Response) (P : nat -> Prop) (u : CommandUpdate) :
  (exists i t, body = CommandDelta u i t NoMarker) ->
  Forall (fun p => snd p = body /\ P (fst p)) extra ->
  Forall (fun v => v = u) (writtenDeltas extra).
Proof.
  intros (i & t & ->) H. induction H as [| [r b] extra [Hb _] _ IH];
    [constructor |].
  cbn in Hb. subst b. cbn. constructor; [reflexivity | exact IH].
Qed.

Lemma step_deltasNonEmpty (e : Event) (st st' : ServerState) :
  deltasNonEmpty st -> step e st = Some st' -> deltasNonEmpty st'.
Proof.
  intros [Hq Hw] Hstep.
  destruct e as [b l newId now | t imm now | now | r now |]; simpl in Hstep.
  - injection Hstep as <-.
    destruct (setCommand_effect st b l newId now)
      as (_ & _ & extra & body & Hsent & Hbody & Hcases).
    unfold deltasNonEmpty. rewrite Hsent, !writtenDeltas_app, Hbody, app_nil_r.
    destruct Hcases as [(-> & -> & _) | (upd & Hne & -> & _ & Hall)].
    + cbn. rewrite app_nil_r. auto.
    + split.
      * apply Forall_app. split; [exact Hq |]. constructor; [exact Hne |].
        constructor.
      * apply Forall_app. split; [exact Hw |].
        eapply Forall_impl;
          [apply (writtenDeltas_broadcast extra
                    (CommandDelta upd newId now NoMarker)
                    (fun r => In r (map res (commandListeners st))) upd);
           [eauto | exact Hall] |].
        cbn. now intros v ->.
  - injection Hstep as <-. unfold deltasNonEmpty.
    destruct (getDeviceCommand_cases st t imm now) as [H | [-> Hc]].
    + destruct (getDeviceCommand_answered st t imm now H) as (body & -> & ->).
      cbn [sent pendingCommands]. rewrite writtenDeltas_app.
      destruct (pendingCommands st) as [| c q] eqn:Hc; cbn;
        rewrite ?app_nil_r; auto.
      apply Forall_cons in Hq as [Hc' Hq]. split; [exact Hq |].
      apply Forall_app. split; [exact Hw |]. constructor; [exact Hc' |].
      constructor.
    + rewrite (getDeviceCommand_parked st t now Hc).
      destruct (requestedTimeout t); cbn [sent pendingCommands];
        rewrite ?writtenDeltas_app; cbn; rewrite ?app_nil_r;
        (split; [constructor | exact Hw]).
  - injection Hstep as <-. unfold deltasNonEmpty, pollDeviceCommand.
    cbn [accept pendingCommands].
    destruct (pendingCommands st) as [| c q] eqn:Hc; cbn;
      rewrite ?writtenDeltas_app; cbn; rewrite ?app_nil_r; auto.
    apply Forall_cons in Hq as [Hc' Hq]. split; [exact Hq |].
    apply Forall_app. split; [exact Hw |]. constructor; [exact Hc' |].
    constructor.
  - destruct (timerArmed r st); [| discriminate]. injection Hstep as <-.
    unfold deltasNonEmpty, onTimeout.
    change (headersSent r (setCommandListeners
              (List.filter (fun l => negb (Nat.eqb (res l) r))
                           (commandListeners st)) st))
      with (headersSent r st).
    destruct (headersSent r st); cbn;
      rewrite ?writtenDeltas_app; cbn; rewrite ?app_nil_r; auto.
  - injection Hstep as <-. unfold deltasNonEmpty, clearPendingCommands. cbn.
    rewrite writtenDeltas_app. cbn. rewrite app_nil_r. auto.
Qed.

(** X16.  A device is never handed an empty delta: in every state the
    server can reach, each queued command and each delta written so far,
    by dequeuing or by broadcast, names at least one of buzzer and LED. *)
Theorem deltas_name_a_field (tr : list Event) (st : ServerState)
    (Hrun : run tr initialState = Some st) :
  Forall (fun c => updateNonEmpty (commands c) = true) (pendingCommands st)
  /\ Forall (fun u => updateNonEmpty u = true) (writtenDeltas (sent st)).
Proof.
  assert (Hgen : forall st0, deltasNonEmpty st0 -> run tr st0 = Some st ->
                             deltasNonEmpty st).
  { clear Hrun. induction tr as [| e tr IH]; intros st0 Hinv Hrun;
      simpl in Hrun.
    - now injection Hrun as <-.
    - destruct (step e st0) as [st1 |] eqn:Hstep; [| discriminate].
      apply (IH st1); [| exact Hrun].
      now apply (step_deltasNonEmpty e st0). }
  apply (Hgen initialState); [| exact Hrun].
  split; constructor.
Qed.

Lemma deltas_name_a_field_witness :
  Forall (fun c => updateNonEmpty (commands c) = true)
         (pendingCommands (setCommand JUndefined (JBool true) "x" 3 initialState))
  /\ Forall (fun u => updateNonEmpty u = true)
            (writtenDeltas
               (sent (setCommand JUndefined (JBool true) "x" 3 initialState))).
Proof.
  exact (deltas_name_a_field [SetCommand JUndefined (JBool true) "x" 3]
           (setCommand JUndefined (JBool true) "x" 3 initialState) eq_refl).
Defined.

(** ** Draining the queue *)

Lemma pollDeviceCommand_head (now : Z) (st : ServerState)
    (c : PendingCommand) (q : list PendingCommand) :
  pendingCommands st = c :: q ->
  pollDeviceCommand now st
  = mkServerState (deviceCommands st) q (commandListeners st)
      (sent st ++ [(nextRes st,
                    CommandDelta (commands c) (id c) (createdAt c)
                                 (NewCommands true))])
      (timers st) (S (nextRes st)).
Proof.
  intros Hq. unfold pollDeviceCommand. cbn [accept pendingCommands].
  now rewrite Hq.
Qed.

(** X17.  Plain polls drain the queue in order: [k] polls against a queue
    of at least [k] commands are answered with its first [k] commands,
    oldest first, one per poll, each marked as new, and leave the rest of
    the queue; command state and registry are untouched.  A poll that
    finds the queue empty is answered with the current command state
    marked as nothing new. *)
Theorem polls_drain_in_order (st : ServerState) (nows : list Z) :
  ((length nows <= length (pendingCommands st))%nat ->
   exists st',
     run (map Poll nows) st = Some st'
     /\ pendingCommands st' = drop (length nows) (pendingCommands st)
     /\ sent st'
        = sent st ++
          imap (fun i c =>
                  ((nextRes st + i)%nat,
                   CommandDelta (commands c) (id c) (createdAt c)
                                (NewCommands true)))
               (take (length nows) (pendingCommands st))
     /\ deviceCommands st' = deviceCommands st
     /\ commandListeners st' = commandListeners st)
  /\ (pendingCommands st = [] ->
      forall now,
        sent (pollDeviceCommand now st)
        = sent st ++
          [(nextRes st,
            CommandSnapshot (deviceCommands st) now (NewCommands false))]
        /\ pendingCommands (pollDeviceCommand now st) = []).
Proof.
  split.
  - revert st. induction nows as [| now nows IH]; intros st Hlen.
    + exists st. cbn. rewrite app_nil_r. auto.
    + destruct (pendingCommands st) as [| c q] eqn:Hq; [cbn in Hlen; lia |].
      cbn [length] in Hlen.
      destruct (IH (pollDeviceCommand now st)) as (st' & Hrun & Hq' & Hs & Hd & Hl).
      { rewrite (pollDeviceCommand_head now st c q Hq). cbn. lia. }
      exists st'. rewrite (pollDeviceCommand_head now st c q Hq) in *.
      cbn [pendingCommands sent nextRes deviceCommands commandListeners] in *.
      split; [cbn [map run step]; rewrite (pollDeviceCommand_head now st c q Hq);
              exact Hrun |].
      split; [exact Hq' |]. split; [| auto].
      rewrite Hs. cbn [length take]. rewrite imap_cons, <- app_assoc.
      cbn [app]. rewrite Nat.add_0_r. do 2 f_equal.
      apply imap_ext. intros i x _. cbn. do 2 f_equal. lia.
  - intros Hq now. unfold pollDeviceCommand. cbn [accept pendingCommands].
    rewrite Hq. cbn. auto.
Qed.

Lemma polls_drain_in_order_witness :
  exists st',
    run [Poll 10; Poll 11]
        (setPendingCommands
           [mkPendingCommand "a" (mkCommandUpdate (Some true) None) 1;
            mkPendingCommand "b" (mkCommandUpdate None (Some true)) 2;
            mkPendingCommand "c" (mkCommandUpdate (Some false) None) 3]
           initialState) = Some st'
    /\ pendingCommands st'
       = [mkPendingCommand "c" (mkCommandUpdate (Some false) None) 3]
    /\ sent st'
       = [(0%nat, CommandDelta (mkCommandUpdate (Some true) None) "a" 1
                               (NewCommands true));
          (1%nat, CommandDelta (mkCommandUpdate None (Some true)) "b" 2
                               (NewCommands true))].
Proof.
  destruct (proj1 (polls_drain_in_order
              (setPendingCommands
                 [mkPendingCommand "a" (mkCommandUpdate (Some true) None) 1;
                  mkPendingCommand "b" (mkCommandUpdate None (Some true)) 2;
                  mkPendingCommand "c" (mkCommandUpdate (Some false) None) 3]
                 initialState) [10; 11]))
    as (st' & Hrun & Hq & Hs & _).
  - cbn. lia.
  - exists st'. split; [exact Hrun |]. split; [exact Hq | exact Hs].
Defined.

(** ** Shutdown *)

Lemma gracefulShutdown_fold (clock : nat -> Z) (st : ServerState)
    (ls : list Listener) (written : list (nat * ShutdownNotice)) :
  (forall l, In l ls -> ~ In (res l) (map fst written)) ->
  NoDup (map res ls) ->
  fold_left (fun w listener =>
      if headersSent (res listener) st
         || existsb (fun p => Nat.eqb (fst p) (res listener)) w
      then w
      else w ++ [(res listener,
                  mkShutdownNotice msgShutdown (deviceCommands st)
                                   (clock (res listener)))]) ls written
  = written ++
    map (fun l => (res l,
                   mkShutdownNotice msgShutdown (deviceCommands st)
                                    (clock (res l))))
        (List.filter (fun l => negb (headersSent (res l) st)) ls).
Proof.
  revert written. induction ls as [| a ls IH]; intros written Hfresh Hnd.
  - cbn. now rewrite app_nil_r.
  - rewrite map_cons in Hnd. apply NoDup_cons in Hnd as [Hna Hnd].
    cbn [fold_left List.filter].
    destruct (headersSent (res a) st) eqn:Ha; cbn [orb negb].
    + apply IH; [| exact Hnd]. intros l Hl. apply Hfresh. now right.
    + assert (Hex : existsb (fun p : nat * ShutdownNotice =>
                               Nat.eqb (fst p) (res a)) written = false).
      { apply not_true_is_false. intros Hex.
        apply existsb_exists in Hex as (p & Hp & Heq).
        apply Nat.eqb_eq in Heq. apply (Hfresh a (or_introl eq_refl)).
        rewrite <- Heq. now apply List.in_map. }
      rewrite Hex. rewrite IH; [cbn [map]; now rewrite <- app_assoc | | exact Hnd].
      intros l Hl. rewrite map_app. cbn [map fst].
      intros Hin. apply in_app_or in Hin as [Hin | [Heq | []]].
      * exact (Hfresh l (or_intror Hl) Hin).
      * apply Hna. rewrite Heq. apply list_elem_of_In. now apply List.in_map.
Qed.

(** X18.  On shutdown, in any state the server can reach, the listeners
    of the registry that are still unanswered are each written exactly
    one notice, in registry order: the shutdown message with the current
    command state.  A listener that was answered already (500, when its
    timeout was refused) is written nothing: the write throws and is
    caught. *)
Theorem gracefulShutdown_notifies_all (tr : list Event) (st : ServerState)
    (clock : nat -> Z) (Hrun : run tr initialState = Some st) :
  gracefulShutdown clock st
  = map (fun l => (res l,
                   mkShutdownNotice "Server shutting down"
                                    (deviceCommands st) (clock (res l))))
        (unanswered st).
Proof.
  pose proof (run_wellFormed tr initialState st initialState_wellFormed Hrun)
    as Hwf.
  unfold gracefulShutdown. rewrite gracefulShutdown_fold.
  - reflexivity.
  - intros l Hl [].
  - apply (wf_listener_distinct st Hwf).
Qed.

Lemma gracefulShutdown_notifies_all_witness :
  gracefulShutdown (fun _ => 99)
    (getDeviceCommand None false 2
       (getDeviceCommand (Some (Finite (-5))) false 1
          (getDeviceCommand None false 0 initialState)))
  = [(0%nat, mkShutdownNotice "Server shutting down"
                              (mkDeviceCommands false false) 99);
     (2%nat, mkShutdownNotice "Server shutting down"
                              (mkDeviceCommands false false) 99)].
Proof.
  exact (gracefulShutdown_notifies_all
           [LongPoll None false 0; LongPoll (Some (Finite (-5))) false 1;
            LongPoll None false 2]
           (getDeviceCommand None false 2
              (getDeviceCommand (Some (Finite (-5))) false 1
                 (getDeviceCommand None false 0 initialState)))
           (fun _ => 99) eq_refl).
Defined.

(** ** The administrative reset *)

(** X19.  ClearPendingCommands drops silently: it empties queue and
    registry and reports the number of commands dropped, but writes
    nothing to the listeners it releases and leaves their timeouts as they
    are.  In a state the server can reach, a listener that was unanswered
    is still unanswered after the reset; if its timeout is armed, it is
    answered, with the current command state and the timeout marker, when
    that timeout fires. *)
Theorem clear_releases_waiters (tr : list Event) (st : ServerState)
    (l : Listener)
    (Hrun : run tr initialState = Some st)
    (Hl : In l (commandListeners st))
    (Hwaiting : headersSent (res l) st = false) :
  let st1 := clearPendingCommands st in
  pendingCommands st1 = []
  /\ commandListeners st1 = []
  /\ sent st1
     = sent st ++ [(nextRes st, Cleared (length (pendingCommands st)))]
  /\ timers st1 = timers st
  /\ headersSent (res l) st1 = false
  /\ (timerArmed (res l) st = true ->
      forall now,
        exists st2,
          step (TimerFires (res l) now) st1 = Some st2
          /\ sent st2
             = sent st1 ++
               [(res l, CommandSnapshot (deviceCommands st) now TimedOut)]).
Proof.
  intros st1.
  pose proof (run_wellFormed tr initialState st initialState_wellFormed Hrun)
    as Hwf.
  pose proof (wf_listener_known st Hwf l Hl) as Hknown.
  assert (Hun : headersSent (res l) st1 = false).
  { subst st1. unfold clearPendingCommands, headersSent. cbn.
    rewrite existsb_app. cbn. unfold headersSent in Hwaiting.
    rewrite Hwaiting. cbn. rewrite orb_false_r. apply Nat.eqb_neq. lia. }
  repeat split; try exact Hun.
  intros Harmed now. exists (onTimeout (res l) now st1). split.
  - cbn [step].
    change (timerArmed (res l) st1) with (timerArmed (res l) st).
    now rewrite Harmed.
  - now destruct (onTimeout_unanswered (res l) now st1 Hun) as (-> & _).
Qed.

Lemma clear_releases_waiters_witness :
  sent (clearPendingCommands (getDeviceCommand None false 0 initialState))
  = [(1%nat, Cleared 0)]
  /\ headersSent 0
       (clearPendingCommands (getDeviceCommand None false 0 initialState))
     = false
  /\ exists st2,
       step (TimerFires 0 30000)
            (clearPendingCommands (getDeviceCommand None false 0 initialState))
       = Some st2
       /\ sent st2
          = [(1%nat, Cleared 0);
             (0%nat, CommandSnapshot (mkDeviceCommands false false) 30000
                                     TimedOut)].
Proof.
  assert (Hl : In (mkListener 0 0)
                  (commandListeners
                     (getDeviceCommand None false 0 initialState)))
    by (now left).
  pose proof (clear_releases_waiters [LongPoll None false 0]
                (getDeviceCommand None false 0 initialState)
                (mkListener 0 0) eq_refl Hl eq_refl)
    as (_ & _ & Hs & _ & Hun & Hfire).
  split; [exact Hs |]. split; [exact Hun |].
  destruct (Hfire eq_refl 30000) as (st2 & Hstep & Hsent).
  exists st2. split; [exact Hstep | exact Hsent].
Defined.

(** ** Long polls and SetCommand together *)

(** A well-typed SetCommand that changes a field writes the command to
    every listener of the registry that is still unanswered, in registry
    order. *)
Lemma setCommand_accepted_broadcast (st : ServerState)
    (buzzerArg ledArg : jsval) (newId : string) (now : Z) :
  NoDup (map res (commandListeners st)) ->
  commandArgOk buzzerArg = true -> commandArgOk ledArg = true ->
  updateNonEmpty (builtUpdate st buzzerArg ledArg) = true ->
  let upd := builtUpdate st buzzerArg ledArg in
  let dc := applyUpdate (deviceCommands st) upd in
  setCommand buzzerArg ledArg newId now st
  = mkServerState dc (pendingCommands st ++ [mkPendingCommand newId upd now])
      []
      (sent st
       ++ map (fun l => (res l, CommandDelta upd newId now NoMarker))
              (unanswered st)
       ++ [(nextRes st, CommandsUpdated dc true)])
      (timers st) (S (nextRes st)).
Proof.
  intros Hnd Hb Hl Hne upd dc.
  assert (Hsome : is_undefined buzzerArg && is_undefined ledArg = false).
  { destruct buzzerArg, ledArg; try reflexivity.
    unfold builtUpdate in Hne. cbn in Hne. discriminate Hne. }
  rewrite (setCommand_accepted st buzzerArg ledArg newId now Hb Hl Hsome).
  fold upd. fold upd in Hne. rewrite Hne. fold dc.
  rewrite notifyCommandListeners_unanswered by exact Hnd.
  unfold reply. cbn [setSent sent deviceCommands pendingCommands
                     commandListeners timers nextRes].
  now rewrite <- app_assoc.
Qed.

(** X20.  A parked long poll is woken by the next change: in a state the
    server can reach with an empty queue, a long poll without the
    immediate flag and with a timeout that [res.setTimeout] takes (none
    given, or an integer that is not negative) gets no answer on arrival;
    a following well-typed SetCommand that changes a field answers it
    with the delta of exactly the changed fields and empties the
    registry. *)
Theorem longPoll_woken_by_setCommand (tr : list Event) (st : ServerState)
    (timeoutArg : option ParsedInt) (t0 t1 : Z) (buzzerArg ledArg : jsval)
    (newId : string)
    (Hrun : run tr initialState = Some st)
    (Hempty : pendingCommands st = [])
    (Htimeout : acceptsTimeout timeoutArg = true)
    (Hb : commandArgOk buzzerArg = true)
    (Hl : commandArgOk ledArg = true)
    (Hchange : updateNonEmpty (builtUpdate st buzzerArg ledArg) = true) :
  let st1 := getDeviceCommand timeoutArg false t0 st in
  let st2 := setCommand buzzerArg ledArg newId t1 st1 in
  sent st1 = sent st
  /\ In (mkListener (nextRes st) t0) (commandListeners st1)
  /\ In (nextRes st,
         CommandDelta
           (mkCommandUpdate
              (changedField (buzzer (deviceCommands st)) buzzerArg)
              (changedField (led (deviceCommands st)) ledArg))
           newId t1 NoMarker)
        (sent st2)
  /\ commandListeners st2 = [].
Proof.
  intros st1 st2.
  pose proof (run_wellFormed tr initialState st initialState_wellFormed Hrun)
    as Hwf.
  assert (Hst1 : exists ts,
    st1 = mkServerState (deviceCommands st) []
            (commandListeners st ++ [mkListener (nextRes st) t0]) (sent st)
            ts (S (nextRes st))).
  { subst st1. rewrite (getDeviceCommand_parked st timeoutArg t0 Hempty).
    unfold acceptsTimeout in Htimeout.
    destruct (requestedTimeout timeoutArg); [discriminate Htimeout | |]; eauto. }
  destruct Hst1 as [ts Hst1].
  assert (Hwf1 : wellFormed st1)
    by (now apply getDeviceCommand_wellFormed).
  assert (Hbuilt : builtUpdate st1 buzzerArg ledArg
                   = builtUpdate st buzzerArg ledArg)
    by (now rewrite Hst1).
  pose proof (setCommand_accepted_broadcast st1 buzzerArg ledArg newId t1
                (wf_listener_distinct st1 Hwf1) Hb Hl) as Hset.
  rewrite Hbuilt in Hset. specialize (Hset Hchange). cbn zeta in Hset.
  fold st2 in Hset.
  split; [now rewrite Hst1 |]. split.
  - rewrite Hst1. cbn [commandListeners]. apply in_or_app. right. now left.
  - rewrite Hset. cbn [sent commandListeners]. split; [| reflexivity].
    apply in_or_app. right. apply in_or_app. left.
    apply (List.in_map (fun l0 => (res l0, _)) (unanswered st1)
                       (mkListener (nextRes st) t0)).
    unfold unanswered. apply List.filter_In. split.
    + rewrite Hst1. cbn [commandListeners]. apply in_or_app. right. now left.
    + apply negb_true_iff. cbn [res]. rewrite Hst1.
      apply (headersSent_fresh st (wf_sent_known st Hwf)). lia.
Qed.

Lemma longPoll_woken_by_setCommand_witness :
  In (0%nat, CommandDelta (mkCommandUpdate None (Some true)) "c" 8 NoMarker)
     (sent (setCommand JUndefined (JBool true) "c" 8
              (getDeviceCommand (Some (Finite 0)) false 5 initialState))).
Proof.
  pose proof (longPoll_woken_by_setCommand [] initialState (Some (Finite 0))
                5 8 JUndefined (JBool true) "c" eq_refl eq_refl eq_refl
                eq_refl eq_refl eq_refl) as (_ & _ & Hin & _).
  exact Hin.
Defined.

(** X21.  A broadcast does not take the command out of the queue: in a
    state the server can reach with an empty queue, a well-typed
    SetCommand that changes a field writes the command to the listeners
    still unanswered and keeps it queued; the very next long poll, with or
    without the immediate flag and whatever its timeout, is answered on
    arrival with that same command, which only then leaves the queue. *)
Theorem broadcast_command_stays_queued (tr : list Event) (st : ServerState)
    (timeoutArg : option ParsedInt) (immediate : bool) (t1 t2 : Z)
    (buzzerArg ledArg : jsval) (newId : string)
    (Hrun : run tr initialState = Some st)
    (Hempty : pendingCommands st = [])
    (Hb : commandArgOk buzzerArg = true)
    (Hl : commandArgOk ledArg = true)
    (Hchange : updateNonEmpty (builtUpdate st buzzerArg ledArg) = true) :
  let upd := builtUpdate st buzzerArg ledArg in
  let st1 := setCommand buzzerArg ledArg newId t1 st in
  let st2 := getDeviceCommand timeoutArg immediate t2 st1 in
  pendingCommands st1 = [mkPendingCommand newId upd t1]
  /\ sent st2
     = sent st
       ++ map (fun l => (res l, CommandDelta upd newId t1 NoMarker))
              (unanswered st)
       ++ [(nextRes st,
            CommandsUpdated (applyUpdate (deviceCommands st) upd) true);
           (S (nextRes st), CommandDelta upd newId t1 Immediate)]
  /\ pendingCommands st2 = [].
Proof.
  intros upd st1 st2.
  pose proof (run_wellFormed tr initialState st initialState_wellFormed Hrun)
    as Hwf.
  pose proof (setCommand_accepted_broadcast st buzzerArg ledArg newId t1
                (wf_listener_distinct st Hwf) Hb Hl Hchange) as Hset.
  cbn zeta in Hset. fold upd in Hset. fold st1 in Hset.
  subst st2. rewrite Hset, Hempty. unfold getDeviceCommand. cbn.
  rewrite orb_true_r. cbn. repeat split.
  rewrite <- !app_assoc. reflexivity.
Qed.

Lemma broadcast_command_stays_queued_witness :
  sent (getDeviceCommand None false 9
          (setCommand (JBool true) JUndefined "c" 8
             (getDeviceCommand None false 6
                (getDeviceCommand (Some NotFinite) false 5 initialState))))
  = [(0%nat, ServerError "Internal server error");
     (1%nat, CommandDelta (mkCommandUpdate (Some true) None) "c" 8 NoMarker);
     (2%nat, CommandsUpdated (mkDeviceCommands true false) true);
     (3%nat, CommandDelta (mkCommandUpdate (Some true) None) "c" 8 Immediate)].
Proof.
  pose proof (broadcast_command_stays_queued
                [LongPoll (Some NotFinite) false 5; LongPoll None false 6]
                (getDeviceCommand None false 6
                   (getDeviceCommand (Some NotFinite) false 5 initialState))
                None false 8 9
                (JBool true) JUndefined "c" eq_refl eq_refl eq_refl eq_refl
                eq_refl) as (_ & Hs & _).
  exact Hs.
Defined.

(** ** Deltas add up to the command state *)

Lemma dequeuedDeltas_app (log1 log2 : list (nat * Response)) :
  dequeuedDeltas (log1 ++ log2) = dequeuedDeltas log1 ++ dequeuedDeltas log2.
Proof. unfold dequeuedDeltas. apply flat_map_app. Qed.

Lemma dequeuedDeltas_broadcast (extra : list (nat * Response))
    (body : Response) (P : nat -> Prop) :
  (exists u i t, body = CommandDelta u i t NoMarker) ->
  Forall (fun p => snd p = body /\ P (fst p)) extra ->
  dequeuedDeltas extra = [].
Proof.
  intros (u & i & t & ->) H. induction H as [| [r b] extra [Hb _] _ IH];
    [reflexivity |].
  cbn in Hb. subst b. cbn. exact IH.
Qed.

Lemma step_deltaHistory (e : Event) (st st' : ServerState) :
  regularEvent e = true -> step e st = Some st' ->
  (deltaHistory st' = deltaHistory st
   /\ deviceCommands st' = deviceCommands st)
  \/ (exists upd,
        deltaHistory st' = deltaHistory st ++ [upd]
        /\ deviceCommands st' = applyUpdate (deviceCommands st) upd).
Proof.
  intros Hreg Hstep.
  destruct e as [b l newId now | t imm now | now | r now |];
    simpl in Hstep; try discriminate Hreg.
  - injection Hstep as <-. cbn [regularEvent] in Hreg.
    apply andb_prop in Hreg as [Hb Hl].
    destruct (is_undefined b && is_undefined l) eqn:Hsome.
    + left. destruct b; try discriminate Hsome.
      destruct l; try discriminate Hsome.
      unfold deltaHistory, setCommand. cbn.
      rewrite dequeuedDeltas_app. cbn. now rewrite app_nil_r.
    + destruct (setCommand_accepted_state st b l newId now Hb Hl Hsome)
        as (Hdc & Hq & _ & _ & _ & extra & Hsent & _ & Hall).
      assert (Hex : dequeuedDeltas extra = []).
      { apply (dequeuedDeltas_broadcast extra
                 (CommandDelta (builtUpdate st b l) newId now NoMarker)
                 (fun r => In r (map res (commandListeners st))));
          [eauto | exact Hall]. }
      unfold deltaHistory. rewrite Hsent, Hq, !dequeuedDeltas_app, Hex.
      cbn [dequeuedDeltas flat_map snd app]. rewrite app_nil_r.
      destruct (updateNonEmpty (builtUpdate st b l)) eqn:Hne.
      * right. exists (builtUpdate st b l). rewrite map_app, app_assoc.
        split; [reflexivity | exact Hdc].
      * left. split; [reflexivity |]. rewrite Hdc.
        now destruct (builtUpdate_empty st b l Hb Hl Hne) as (_ & _ & ->).
  - injection Hstep as <-. left. unfold deltaHistory.
    destruct (getDeviceCommand_cases st t imm now) as [H | [-> Hc]].
    + destruct (getDeviceCommand_answered st t imm now H) as (body & -> & ->).
      cbn [sent pendingCommands deviceCommands]. rewrite dequeuedDeltas_app.
      destruct (pendingCommands st) as [| c q]; cbn;
        rewrite <- ?app_assoc; auto.
    + rewrite (getDeviceCommand_parked st t now Hc), Hc.
      destruct (requestedTimeout t); cbn [sent pendingCommands deviceCommands];
        rewrite ?dequeuedDeltas_app; cbn; rewrite ?app_nil_r; auto.
  - injection Hstep as <-. left. unfold deltaHistory, pollDeviceCommand.
    cbn [accept pendingCommands].
    destruct (pendingCommands st) as [| c q]; cbn;
      rewrite ?dequeuedDeltas_app; cbn; rewrite <- ?app_assoc; auto.
  - destruct (timerArmed r st); [| discriminate]. injection Hstep as <-.
    left. unfold deltaHistory, onTimeout.
    change (headersSent r (setCommandListeners
              (List.filter (fun l => negb (Nat.eqb (res l) r))
                           (commandListeners st)) st))
      with (headersSent r st).
    destruct (headersSent r st); cbn;
      rewrite ?dequeuedDeltas_app; cbn; rewrite ?app_nil_r; auto.
Qed.

(** X22.  The deltas add up to the command state: over a run without the
    administrative reset and whose SetCommand requests carry only
    booleans, laying the deltas dequeued so far and then those still
    queued, in order, over the initial command state gives the current
    command state.  A single consumer that polls and applies every delta
    is in step with the server once the queue is empty. *)
Theorem deltas_add_up (tr : list Event) (st : ServerState)
    (Hrun : run tr initialState = Some st)
    (Hregular : forallb regularEvent tr = true) :
  fold_left applyUpdate
            (dequeuedDeltas (sent st) ++ map commands (pendingCommands st))
            (mkDeviceCommands false false)
  = deviceCommands st.
Proof.
  assert (Hgen : forall st0,
    fold_left applyUpdate (deltaHistory st0) (mkDeviceCommands false false)
    = deviceCommands st0 ->
    run tr st0 = Some st ->
    fold_left applyUpdate (deltaHistory st) (mkDeviceCommands false false)
    = deviceCommands st).
  { clear Hrun. induction tr as [| e tr IH]; intros st0 Hinv Hrun;
      simpl in Hrun.
    - now injection Hrun as <-.
    - cbn [forallb] in Hregular. apply andb_prop in Hregular as [He Htr].
      destruct (step e st0) as [st1 |] eqn:Hstep; [| discriminate].
      apply (IH Htr st1); [| exact Hrun].
      destruct (step_deltaHistory e st0 st1 He Hstep)
        as [[-> ->] | (upd & -> & ->)]; [exact Hinv |].
      rewrite fold_left_app, Hinv. reflexivity. }
  apply (Hgen initialState); [reflexivity | exact Hrun].
Qed.

Lemma deltas_add_up_witness :
  fold_left applyUpdate
    (dequeuedDeltas
       (sent (pollDeviceCommand 3
                (setCommand (JBool false) (JBool true) "b" 2
                   (setCommand (JBool true) JUndefined "a" 1 initialState))))
     ++ map commands
          (pendingCommands
             (pollDeviceCommand 3
                (setCommand (JBool false) (JBool true) "b" 2
                   (setCommand (JBool true) JUndefined "a" 1 initialState)))))
    (mkDeviceCommands false false)
  = mkDeviceCommands false true.
Proof.
  exact (deltas_add_up
           [SetCommand (JBool true) JUndefined "a" 1;
            SetCommand (JBool false) (JBool true) "b" 2;
            Poll 3]
           (pollDeviceCommand 3
              (setCommand (JBool false) (JBool true) "b" 2
                 (setCommand (JBool true) JUndefined "a" 1 initialState)))
           eq_refl eq_refl).
Defined.

(** ** Timeouts along a run *)






(** ** The dashboard *)

Lemma mergeReadings_spec (view d : LatestData)
    (data : list (field * SensorReading)) :
  (forall k r, In (k, r) data ->
     d k = Some r /\ is_undefined (value r) = false) ->
  forall f,
    mergeReadings view data f
    = if existsb (fun kv => bool_decide (fst kv = f)) data
      then d f else view f.
Proof.
  unfold mergeReadings. revert view.
  induction data as [| [k r] data IH]; intros view Hdata f; [reflexivity |].
  cbn [fold_left existsb fst snd].
  destruct (Hdata k r (or_introl eq_refl)) as [Hk Hv]. rewrite Hv. cbn [negb].
  rewrite IH by (intros k' r' Hin; apply Hdata; now right).
  destruct (existsb (fun kv => bool_decide (fst kv = f)) data);
    [now rewrite orb_true_r |].
  rewrite orb_false_r. unfold setReading.
  destruct (decide (k = f)) as [-> | Hne].
  - rewrite bool_decide_eq_true_2 by reflexivity.
    now rewrite decide_True by reflexivity.
  - rewrite (bool_decide_eq_false_2 _ Hne).
    rewrite decide_False; [reflexivity | congruence].
Qed.

(** X23.  Incremental refresh is complete: when the dashboard shows the
    server's reading for every field whose stored timestamp is not after
    [t] (and nothing for the fields the server has no reading for),
    merging the delta since [t] into what it shows gives exactly the
    server's table.  Merging a full snapshot gives the server's reading
    for every field that has one, whatever was shown before. *)
Theorem dashboard_refresh_complete (d view : LatestData) (t : Z)
    (Hdefined : forall f r, d f = Some r -> is_undefined (value r) = false) :
  ((forall f, (forall r, d f = Some r -> timestamp r <= t) -> view f = d f) ->
   forall f, mergeReadings view (changedSince d t) f = d f)
  /\ (forall f r, d f = Some r -> mergeReadings view (snapshot d) f = Some r).
Proof.
  split.
  - intros Hagree f.
    rewrite (mergeReadings_spec view d).
    + destruct (existsb (fun kv => bool_decide (fst kv = f))
                        (changedSince d t)) eqn:Hex; [reflexivity |].
      apply Hagree. intros r Hr.
      destruct (Z.le_gt_cases (timestamp r) t) as [Hle | Hgt]; [exact Hle |].
      assert (existsb (fun kv => bool_decide (fst kv = f))
                      (changedSince d t) = true).
      { apply existsb_exists. exists (f, r). split.
        - apply changedSince_In. split; [exact Hr | lia].
        - now apply bool_decide_eq_true_2. }
      congruence.
    + intros k r Hin. apply changedSince_In in Hin as [Hk _]. eauto.
  - intros f r Hr. rewrite (mergeReadings_spec view d).
    + assert (Hex : existsb (fun kv => bool_decide (fst kv = f)) (snapshot d)
                    = true).
      { apply existsb_exists. exists (f, r). split.
        - now apply snapshot_In.
        - now apply bool_decide_eq_true_2. }
      now rewrite Hex.
    + intros k q Hin. apply snapshot_In in Hin. eauto.
Qed.

Lemma dashboard_refresh_complete_witness :
  mergeReadings (setReading noData temp (mkReading (JNum 36.6) 1))
    (changedSince
       (setReading (setReading noData temp (mkReading (JNum 36.6) 1))
                   movement (mkReading (JStr "walking") 7)) 5)
    movement
  = Some (mkReading (JStr "walking") 7).
Proof.
  refine (proj1 (dashboard_refresh_complete
            (setReading (setReading noData temp (mkReading (JNum 36.6) 1))
                        movement (mkReading (JStr "walking") 7))
            (setReading noData temp (mkReading (JNum 36.6) 1)) 5 _) _ movement).
  - intros f r. destruct f; cbn; intros [= <-]; reflexivity.
  - intros f Hold. destruct f; try reflexivity.
    specialize (Hold _ eq_refl). cbn in Hold. lia.
Defined.

Lemma take_length_le {A : Type} (n : nat) (l : list A) :
  (length (take n l) <= n)%nat.
Proof. rewrite length_take. lia. Qed.

Lemma List_filter_length_le {A : Type} (P : A -> bool) (l : list A) :
  (length (List.filter P l) <= length l)%nat.
Proof.
  induction l as [| a l IH]; cbn; [lia |]. destruct (P a); cbn; lia.
Qed.

(** X24.  The dashboard never shows more than five notifications:
    whatever banners are added and expired, the list holds at most five,
    and a banner just added is the first of them. *)
Theorem notifications_at_most_five (events : list NotificationEvent) :
  (length (fold_left (fun shown e => notificationStep e shown) events [])
   <= 5)%nat
  /\ (forall n shown, hd_error (notificationStep (Notify n) shown) = Some n).
Proof.
  split; [| reflexivity].
  assert (Hgen : forall shown, (length shown <= 5)%nat ->
    (length (fold_left (fun s e => notificationStep e s) events shown) <= 5)%nat).
  { induction events as [| e events IH]; intros shown H; cbn [fold_left];
      [exact H |].
    apply IH. destruct e as [n | i]; cbn [notificationStep].
    - unfold addNotification. cbn [length].
      pose proof (take_length_le 4 shown). lia.
    - unfold expireNotification.
      pose proof (List_filter_length_le
                    (fun n => negb (Z.eqb (n_id n) i)) shown). lia. }
  apply Hgen. cbn. lia.
Qed.
